(** * herogram: idea and image generation services

    A shallow embedding of [src/services/openAIService.js] and
    [src/services/openRouterService.js], the properties of the two request
    orchestrators [generateImage] and [generateIdeas], and further properties
    of the functions they are made of.

    Conventions of the embedding.
    - A JavaScript string is a [string]; one character stands for one UTF-16
      code unit, so the model covers the strings whose code units are below
      256.  [String.length] is [.length].
    - A JavaScript value is a [JsVal]; a number is an integer, a [Z], which
      stands for the double nearest to it, as its literal does.  An object is
      the list of its own properties in the order [Object.keys] lists them.
    - An [async] function is a computation in the monad [M]: it threads the
      [World] (module state, disk, object store, trace of outside calls) and
      either returns a value or throws a [JsError].  [await] is sequencing;
      the callbacks handed to [Promise.all] run in the order of their array.
      In [cleanup] every callback asks [existsSync] before any deletion
      ends, as [map] runs each callback up to its [await].
    - What lies outside the two files (axios, the connection pool, [fs],
      [Date], [Buffer], [JSON.parse], [path], [process.env]) is an [Env] of
      oracles; every theorem holds for all of them.  Of a request the trace
      keeps the URL and the body; the headers and the timeout are constants
      of the code.  [console] output is not modelled.
    - A [FormData] is the list of its fields; a function that fills the one
      it is handed returns it as it leaves it.
    - [processReferenceImages] and [makeEditsRequest] are called from nowhere
      in the two files; they are modelled as the other functions are. *)

From Stdlib Require Import String Ascii ZArith List DecimalString Bool Lia.
From stdpp Require Import gmap strings list.

(** ** JavaScript strings *)

Module JsString.

Definition dquote : ascii := "034"%char.
Definition backslash : ascii := "092"%char.
Definition squote : ascii := "039"%char.
Definition LF : ascii := "010"%char.
Definition CR : ascii := "013"%char.

(** [WhiteSpace] and [LineTerminator] code units below 256: TAB, LF, VT, FF,
    CR, SP and NBSP. *)
Definition is_whitespace (c : ascii) : bool :=
  let n := nat_of_ascii c in
  (9 <=? n)%nat && (n <=? 13)%nat || (n =? 32)%nat || (n =? 160)%nat.

(** [s.trimStart()] *)
Fixpoint trimStart (s : string) : string :=
  match s with
  | EmptyString => EmptyString
  | String c s' => if is_whitespace c then trimStart s' else s
  end.

(** [s.trimEnd()] *)
Fixpoint trimEnd (s : string) : string :=
  match s with
  | EmptyString => EmptyString
  | String c s' =>
      match trimEnd s' with
      | EmptyString => if is_whitespace c then EmptyString else String c EmptyString
      | t => String c t
      end
  end.

(** [s.trim()] *)
Definition trim (s : string) : string := trimEnd (trimStart s).

(** [s.substring(0, n)] *)
Definition substring0 (n : nat) (s : string) : string := String.substring 0 n s.

(** [s.includes(pat)] *)
Fixpoint includes (s pat : string) : bool :=
  String.prefix pat s ||
  match s with
  | EmptyString => false
  | String _ s' => includes s' pat
  end.

(** [s.replace(/c/g, by)] for a pattern of one character. *)
Fixpoint replace_char (c : ascii) (by_ : string) (s : string) : string :=
  match s with
  | EmptyString => EmptyString
  | String a s' =>
      if Ascii.eqb a c then by_ +:+ replace_char c by_ s'
      else String a (replace_char c by_ s')
  end.

(** [s.replace(/\\q/g, by)]: every backslash that is followed by [q] is
    replaced, with that [q], by [by]; matches are found left to right and do
    not overlap. *)
Fixpoint replace_escaped (q : ascii) (by_ : string) (s : string) : string :=
  match s with
  | EmptyString => EmptyString
  | String a s' =>
      match s' with
      | String b s'' =>
          if Ascii.eqb a backslash && Ascii.eqb b q
          then by_ +:+ replace_escaped q by_ s''
          else String a (replace_escaped q by_ s')
      | EmptyString => String a EmptyString
      end
  end.

(** The decimal digits of an integer. *)
Definition decimal (n : Z) : string := NilZero.string_of_int (Z.to_int n).

(** The distance from the double [x >= 2^53] to the next double above it. *)
Definition ulp (x : Z) : Z := (2 ^ (Z.log2 x - 52))%Z.

(** The integer [y] read as a number is the double [x] (round to nearest,
    ties to the even significand); below a power of two the doubles lie twice
    as close. *)
Definition rounds_to (x y : Z) : bool :=
  let even := Z.even (x / ulp x) in
  if (y <? x)%Z
  then let gap := if (x =? 2 ^ Z.log2 x)%Z then (ulp x / 2)%Z else ulp x in
       (2 * (x - y) <? gap)%Z || ((2 * (x - y) =? gap)%Z && even)
  else (2 * (y - x) <? ulp x)%Z || ((2 * (y - x) =? ulp x)%Z && even).

(** The digits [s], their number [k] and the exponent [n] of Number::toString
    for a double [x >= 2^53] of [width] decimal digits: the fewest digits
    [s] with [s * 10^(n-k)] read back as [x], and of those the nearest to
    [x].  Seventeen digits tell every double from its neighbours. *)
Fixpoint shortest (fuel : nat) (k : Z) (x width : Z) : Z * Z * Z :=
  match fuel with
  | O => (x, width, width)
  | S fuel' =>
      let unit := (10 ^ (width - k))%Z in
      let low := (x / unit)%Z in
      let below := rounds_to x (low * unit) in
      let above := rounds_to x ((low + 1) * unit) in
      if below && (negb above || (x - low * unit <=? (low + 1) * unit - x)%Z)
      then (low, k, width)
      else if above
           then if (low + 1 =? 10 ^ k)%Z then (1, 1, width + 1)%Z else ((low + 1)%Z, k, width)
           else shortest fuel' (k + 1)%Z x width
  end.

Fixpoint zeros (n : nat) : string :=
  match n with
  | O => EmptyString
  | S n' => String "0" (zeros n')
  end.

(** The double a literal of the integer [x >= 0] stands for: the nearest
    one, ties to the even significand.  The integers below [2^53] are
    doubles. *)
Definition nearest_double (x : Z) : Z :=
  if (x <? 2 ^ 53)%Z then x
  else
    let q := (x / ulp x)%Z in
    let r := (x mod ulp x)%Z in
    if (2 * r <? ulp x)%Z || ((2 * r =? ulp x)%Z && Z.even q) then (q * ulp x)%Z
    else ((q + 1) * ulp x)%Z.

(** Number::toString for a double whose value is the integer [x >= 0]: the
    integers below [2^53] print in full, the doubles above by their shortest
    digits, followed by zeros below [10^21] and in exponent form from there
    on; what lies beyond the doubles is [Infinity]. *)
Definition of_double (x : Z) : string :=
  if (x <? 2 ^ 53)%Z then decimal x
  else if (2 ^ 1024 <=? x)%Z then "Infinity"
  else
    let '(s, k, n) := shortest 17 1 x (Z.of_nat (String.length (decimal x))) in
    if (n <=? 21)%Z then decimal s +:+ zeros (Z.to_nat (n - k))
    else match decimal s with
         | String d EmptyString => String d ("e+" +:+ decimal (n - 1))
         | String d rest => String d ("." +:+ rest +:+ "e+" +:+ decimal (n - 1))
         | EmptyString => EmptyString
         end.

Definition of_positive (x : Z) : string := of_double (nearest_double x).

(** [String(n)] for the number that the integer [n] stands for. *)
Definition of_Z (n : Z) : string :=
  if (n <? 0)%Z then String "-" (of_positive (- n)) else of_positive n.

(** [parts.join(sep)] on strings. *)
Fixpoint join (sep : string) (parts : list string) : string :=
  match parts with
  | [] => EmptyString
  | [p] => p
  | p :: rest => p +:+ sep +:+ join sep rest
  end.

(** [s.split(c)] for a separator of one character. *)
Fixpoint split (c : ascii) (s : string) : list string :=
  match s with
  | EmptyString => [EmptyString]
  | String a s' =>
      if Ascii.eqb a c then EmptyString :: split c s'
      else match split c s' with
           | part :: rest => String a part :: rest
           | [] => [String a EmptyString]
           end
  end.

(** How many times the character [c] stands in [s]. *)
Fixpoint count (c : ascii) (s : string) : nat :=
  match s with
  | EmptyString => 0
  | String a s' => (if Ascii.eqb a c then 1 else 0) + count c s'
  end.

End JsString.

(** ** JavaScript values *)

#[warnings="-register-all"]
Inductive JsVal : Type :=
| JUndefined
| JNull
| JBool (b : bool)
| JNum (n : Z)
| JStr (s : string)
| JArr (elems : list JsVal)
| JObj (props : list (string * JsVal)).

(** The value of an HTTP response as the code reads it: [response.status]
    and [response.data] (the parsed body). *)
Record Response := mkResponse { status : Z; data : JsVal }.

(** A thrown value.  Every value thrown in the two files or by their
    collaborators is an [Error] object: [name] and [message], and for the
    errors of the HTTP client [response] (the reply, when one came) and
    [request] (whether the request was sent). *)
Record JsError := mkError {
  name : string;
  message : string;
  response : option Response;
  request : bool
}.

(** [new Error(msg)] *)
Definition Error (msg : string) : JsError := mkError "Error" msg None false.
Definition TypeError (msg : string) : JsError := mkError "TypeError" msg None false.

(** A synchronous evaluation: a value or a thrown error. *)
Inductive Outcome (A : Type) : Type :=
| Return (a : A)
| Throw (e : JsError).
Arguments Return {A} a.
Arguments Throw {A} e.

Module Js.

(** [!!v] *)
Definition truthy (v : JsVal) : bool :=
  match v with
  | JUndefined | JNull => false
  | JBool b => b
  | JNum n => negb (n =? 0)%Z
  | JStr s => negb (String.eqb s EmptyString)
  | JArr _ | JObj _ => true
  end.

(** [v == null] *)
Definition nullish (v : JsVal) : bool :=
  match v with
  | JUndefined | JNull => true
  | _ => false
  end.

(** [v === undefined] *)
Definition is_undefined (v : JsVal) : bool :=
  match v with
  | JUndefined => true
  | _ => false
  end.

(** [a || b] *)
Definition or (a b : JsVal) : JsVal := if truthy a then a else b.

(** Own property [key] of an object literal or parsed object. *)
Fixpoint lookup_prop (key : string) (props : list (string * JsVal)) : JsVal :=
  match props with
  | [] => JUndefined
  | (k, v) :: rest => if String.eqb k key then v else lookup_prop key rest
  end.

Fixpoint has_prop (key : string) (props : list (string * JsVal)) : bool :=
  match props with
  | [] => false
  | (k, _) :: rest => String.eqb k key || has_prop key rest
  end.

(** An array index as a property name: the decimal digits, with no leading
    zero, of an integer below [2^32 - 1]. *)
Definition array_index (key : string) : option Z :=
  match NilZero.int_of_string key with
  | Some d =>
      let i := Z.of_int d in
      if String.eqb (JsString.decimal i) key && (0 <=? i)%Z && (i <? 2 ^ 32 - 1)%Z
      then Some i else None
  | None => None
  end.

(** An existing key keeps its place and takes the new value. *)
Fixpoint replace_prop (key : string) (v : JsVal) (props : list (string * JsVal))
  : list (string * JsVal) :=
  match props with
  | [] => []
  | (k, v0) :: rest =>
      if String.eqb k key then (k, v) :: rest else (k, v0) :: replace_prop key v rest
  end.

(** A new array index goes among the array indices, which come first and in
    ascending order. *)
Fixpoint insert_index (i : Z) (key : string) (v : JsVal) (props : list (string * JsVal))
  : list (string * JsVal) :=
  match props with
  | [] => [(key, v)]
  | (k, v0) :: rest =>
      match array_index k with
      | Some j => if (j <? i)%Z then (k, v0) :: insert_index i key v rest
                  else (key, v) :: (k, v0) :: rest
      | None => (key, v) :: (k, v0) :: rest
      end
  end.

(** [obj[key] = v], in the order in which the properties of the object are
    listed afterwards: an existing key keeps its place, a new array index is
    sorted in among the first, any other new key comes last. *)
Definition set_prop (key : string) (v : JsVal) (props : list (string * JsVal))
  : list (string * JsVal) :=
  if has_prop key props then replace_prop key v props
  else match array_index key with
       | Some i => insert_index i key v props
       | None => props ++ [(key, v)]
       end.

(** [{...a, ...b}] *)
Definition spread (a b : list (string * JsVal)) : list (string * JsVal) :=
  fold_left (fun acc kv => set_prop (fst kv) (snd kv) acc) b a.

(** [v?.key] for a [v] that is neither [null] nor [undefined], and [v.key]
    there: the own property of an object, [length] of an array or a string,
    [undefined] otherwise.  None of the keys the two files read is a method or
    an inherited property. *)
Definition prop (v : JsVal) (key : string) : JsVal :=
  match v with
  | JObj props => lookup_prop key props
  | JArr l => if String.eqb key "length" then JNum (Z.of_nat (length l)) else JUndefined
  | JStr s => if String.eqb key "length" then JNum (Z.of_nat (String.length s)) else JUndefined
  | _ => JUndefined
  end.

(** [v[i]] for a [v] that is neither [null] nor [undefined]. *)
Definition item (v : JsVal) (i : nat) : JsVal :=
  match v with
  | JArr l => nth i l JUndefined
  | JStr s => match String.get i s with
              | Some c => JStr (String c EmptyString)
              | None => JUndefined
              end
  | JObj props => lookup_prop (JsString.of_Z (Z.of_nat i)) props
  | _ => JUndefined
  end.

(** The error of reading the property [key] of [v], which is [null] or
    [undefined]. *)
Definition cannot_read (v : JsVal) (key : string) : JsError :=
  TypeError ("Cannot read properties of "
             +:+ match v with JNull => "null" | _ => "undefined" end
             +:+ " (reading '" +:+ key +:+ "')").

(** [v.key]: reading a property of [null] or [undefined] throws. *)
Definition get (v : JsVal) (key : string) : Outcome JsVal :=
  if nullish v then Throw (cannot_read v key) else Return (prop v key).

(** [v[i]] *)
Definition get_item (v : JsVal) (i : nat) : Outcome JsVal :=
  if nullish v then Throw (cannot_read v (JsString.of_Z (Z.of_nat i)))
  else Return (item v i).

(** [v?.key] *)
Definition opt (v : JsVal) (key : string) : JsVal :=
  if nullish v then JUndefined else prop v key.

(** [v?.[i]] *)
Definition opt_item (v : JsVal) (i : nat) : JsVal :=
  if nullish v then JUndefined else item v i.

(** [String(v)], the conversion of a template literal and of [join]. *)
Fixpoint toString (v : JsVal) : string :=
  match v with
  | JUndefined => "undefined"
  | JNull => "null"
  | JBool true => "true"
  | JBool false => "false"
  | JNum n => JsString.of_Z n
  | JStr s => s
  | JArr l =>
      JsString.join ","
        ((fix elems (l : list JsVal) : list string :=
            match l with
            | [] => []
            | x :: r => (if nullish x then EmptyString else toString x) :: elems r
            end) l)
  | JObj _ => "[object Object]"
  end.

(** [arr.join(sep)] *)
Definition join (sep : string) (l : list JsVal) : string :=
  JsString.join sep (map (fun x => if nullish x then EmptyString else toString x) l).

Definition hex_digit (n : nat) : ascii :=
  ascii_of_nat (if (n <? 10)%nat then 48 + n else 87 + n).

(** One character of a string inside [JSON.stringify]'s quotes. *)
Definition json_escape (c : ascii) : string :=
  let n := nat_of_ascii c in
  if Ascii.eqb c JsString.dquote then String JsString.backslash (String JsString.dquote EmptyString)
  else if Ascii.eqb c JsString.backslash then String JsString.backslash (String JsString.backslash EmptyString)
  else if (n =? 8)%nat then String JsString.backslash "b"
  else if (n =? 12)%nat then String JsString.backslash "f"
  else if (n =? 10)%nat then String JsString.backslash "n"
  else if (n =? 13)%nat then String JsString.backslash "r"
  else if (n =? 9)%nat then String JsString.backslash "t"
  else if (n <? 32)%nat
       then String JsString.backslash
              ("u00" +:+ String (hex_digit (n / 16)) (String (hex_digit (n mod 16)) EmptyString))
  else String c EmptyString.

Fixpoint json_escape_all (s : string) : string :=
  match s with
  | EmptyString => EmptyString
  | String c s' => json_escape c +:+ json_escape_all s'
  end.

Definition json_quote (s : string) : string :=
  String JsString.dquote (json_escape_all s +:+ String JsString.dquote EmptyString).

(** [JSON.stringify(v)]; [None] is the result [undefined]. *)
Fixpoint JSON_stringify (v : JsVal) : option string :=
  match v with
  | JUndefined => None
  | JNull => Some "null"
  | JBool true => Some "true"
  | JBool false => Some "false"
  | JNum n => Some (JsString.of_Z n)
  | JStr s => Some (json_quote s)
  | JArr l =>
      Some ("[" +:+ JsString.join ","
              ((fix elems (l : list JsVal) : list string :=
                  match l with
                  | [] => []
                  | x :: r => default "null" (JSON_stringify x) :: elems r
                  end) l) +:+ "]")
  | JObj props =>
      Some ("{" +:+ JsString.join ","
              ((fix members (ps : list (string * JsVal)) : list string :=
                  match ps with
                  | [] => []
                  | (k, x) :: r =>
                      match JSON_stringify x with
                      | Some t => (json_quote k +:+ ":" +:+ t) :: members r
                      | None => members r
                      end
                  end) props) +:+ "}")
  end.

(** The value of [JSON.stringify(v)] as a JavaScript value. *)
Definition JSON_stringify_val (v : JsVal) : JsVal :=
  match JSON_stringify v with
  | Some s => JStr s
  | None => JUndefined
  end.

End Js.

(** ** The world outside the two files *)

(** The bytes of a [Buffer]. *)
Definition Buffer := list Byte.byte.

(** One call that left the process, with what came back: a request with its
    URL and body, a download, a statement with its values, a file written, a
    file deleted. *)
Inductive Event : Type :=
| EvPost (url : string) (body : JsVal) (res : JsError + Response)
| EvGet (url : JsVal) (res : JsError + Buffer)
| EvExecute (sql : string) (values : list JsVal) (res : JsError + JsVal)
| EvWriteFile (path : string) (content : Buffer) (res : option JsError)
| EvUnlink (path : string) (res : option JsError).

(** The state a call runs in. *)
Record World := mkWorld {
  apiKeyValidated : bool;              (* the module variable of openAIService.js *)
  files : gmap string Buffer;          (* the files on disk *)
  managers : list (list string);       (* [tempFiles] of every TempFileManager made *)
  trace : list Event                   (* the outside calls so far, oldest first *)
}.

(** The first state of the process: the module has just been loaded. *)
Definition initial_world (disk : gmap string Buffer) : World :=
  mkWorld false disk [] [].

(** The collaborators.  Each oracle sees the calls made so far, so that a
    reply may depend on anything that happened before. *)
Record Env := mkEnv {
  OPENAI_API_KEY : option string;      (* process.env.OPENAI_API_KEY *)
  OPENROUTER_API_KEY : option string;  (* process.env.OPENROUTER_API_KEY *)
  UPLOADS_DIR : string;                (* path.join(__dirname, '../uploads') *)
  path_join : string -> string -> string;
  axios_post : list Event -> string -> JsVal -> JsError + Response;
  axios_get : list Event -> JsVal -> JsError + Buffer;
  pool_execute : list Event -> string -> list JsVal -> JsError + JsVal;
  fs_writeFile : list Event -> string -> Buffer -> option JsError;
  fs_unlink : list Event -> string -> option JsError;
  Date_now : list Event -> Z;
  Math_random_tag : list Event -> string;  (* Math.random().toString(36).substring(7) *)
  JSON_parse : string -> JsError + JsVal;
  Buffer_from_base64 : JsVal -> JsError + Buffer;  (* Buffer.from(v, 'base64') *)
  Buffer_toString_base64 : Buffer -> string         (* buf.toString('base64') *)
}.

(** [!process.env.KEY] is false: the variable is set and not empty. *)
Definition key_present (k : option string) : bool :=
  match k with
  | Some s => negb (String.eqb s EmptyString)
  | None => false
  end.

(** ** The monad of [async] functions *)

Definition M (A : Type) : Type := World -> Outcome A * World.

Definition ret {A} (a : A) : M A := fun w => (Return a, w).

Definition throw {A} (e : JsError) : M A := fun w => (Throw e, w).

Definition bind {A B} (m : M A) (k : A -> M B) : M B :=
  fun w =>
    match m w with
    | (Return a, w') => k a w'
    | (Throw e, w') => (Throw e, w')
    end.

(** A synchronous evaluation inside an [async] function. *)
Definition lift {A} (o : Outcome A) : M A := fun w => (o, w).

(** [try { body } catch (error) { handler }] *)
Definition try_catch {A} (body : M A) (handler : JsError -> M A) : M A :=
  fun w =>
    match body w with
    | (Return a, w') => (Return a, w')
    | (Throw e, w') => handler e w'
    end.

(** [try { body } finally { final }]: [final] runs on both exits; when it
    throws, its error replaces the outcome of [body]. *)
Definition try_finally {A} (body : M A) (final : M unit) : M A :=
  fun w =>
    match body w with
    | (r, w') =>
        match final w' with
        | (Return _, w'') => (r, w'')
        | (Throw e, w'') => (Throw e, w'')
        end
    end.

Declare Scope js_scope.
Delimit Scope js_scope with js.
Notation "x <- m ;; k" := (bind m (fun x => k))
  (at level 100, m at next level, right associativity) : js_scope.
Notation "m ;;; k" := (bind m (fun _ => k))
  (at level 100, right associativity) : js_scope.
Open Scope js_scope.

Definition log_event (e : Event) (w : World) : World :=
  mkWorld (apiKeyValidated w) (files w) (managers w) (trace w ++ [e]).

Definition set_files (f : gmap string Buffer) (w : World) : World :=
  mkWorld (apiKeyValidated w) f (managers w) (trace w).

Definition set_managers (m : list (list string)) (w : World) : World :=
  mkWorld (apiKeyValidated w) (files w) m (trace w).

Definition set_apiKeyValidated (b : bool) (w : World) : World :=
  mkWorld b (files w) (managers w) (trace w).

Section Collaborators.

Variable env : Env.

(** [await axios.post(url, body, config)] *)
Definition post (url : string) (body : JsVal) : M Response :=
  fun w =>
    let res := axios_post env (trace w) url body in
    (match res with inl e => Throw e | inr r => Return r end,
     log_event (EvPost url body res) w).

(** [await axios.get(url, { responseType: 'arraybuffer' })], its [data]. *)
Definition get_bytes (url : JsVal) : M Buffer :=
  fun w =>
    let res := axios_get env (trace w) url in
    (match res with inl e => Throw e | inr b => Return b end,
     log_event (EvGet url res) w).

(** [await pool.execute(sql, values)] *)
Definition execute (sql : string) (values : list JsVal) : M JsVal :=
  fun w =>
    let res := pool_execute env (trace w) sql values in
    (match res with inl e => Throw e | inr r => Return r end,
     log_event (EvExecute sql values res) w).

(** [await fs.writeFile(path, buffer)] *)
Definition writeFile (path : string) (content : Buffer) : M unit :=
  fun w =>
    let res := fs_writeFile env (trace w) path content in
    match res with
    | Some e => (Throw e, log_event (EvWriteFile path content res) w)
    | None =>
        (Return tt,
         log_event (EvWriteFile path content res) (set_files (<[path := content]> (files w)) w))
    end.

(** [await fs.unlink(path)] *)
Definition unlink (path : string) : M unit :=
  fun w =>
    let res := fs_unlink env (trace w) path in
    match res with
    | Some e => (Throw e, log_event (EvUnlink path res) w)
    | None =>
        (Return tt, log_event (EvUnlink path res) (set_files (delete path (files w)) w))
    end.

(** [fsSync.existsSync(path)] *)
Definition existsSync (path : string) : M bool :=
  fun w => (Return (bool_decide (is_Some (files w !! path))), w).

(** [Date.now()] *)
Definition now : M Z := fun w => (Return (Date_now env (trace w)), w).

End Collaborators.

Definition of_sum {A} (r : JsError + A) : Outcome A :=
  match r with
  | inl e => Throw e
  | inr a => Return a
  end.

(** [v.trim()]: a string is trimmed, any other value has no such method. *)
Definition call_trim (v : JsVal) : Outcome string :=
  match v with
  | JStr s => Return (JsString.trim s)
  | JUndefined | JNull => Throw (Js.cannot_read v "trim")
  | _ => Throw (TypeError "prompt.trim is not a function")
  end.

(** [v.split(',')]: a string is split, no other value has such a method. *)
Definition call_split (v : JsVal) : Outcome (list string) :=
  match v with
  | JStr s => Return (JsString.split "," s)
  | JUndefined | JNull => Throw (Js.cannot_read v "split")
  | _ => Throw (TypeError "ref.image_data.split is not a function")
  end.

(** [parts[i]] of an array of strings. *)
Definition part (parts : list string) (i : nat) : JsVal :=
  match nth_error parts i with
  | Some s => JStr s
  | None => JUndefined
  end.

(** A [FormData] as the code fills it: the fields appended so far, each with
    its name and the path of the file its stream reads. *)
Definition FormData : Type := list (string * string).

(** ** src/services/openAIService.js *)

Module OpenAIService.

Section Service.

Variable env : Env.

(** [openaiClient]: the axios instance with its [baseURL]. *)
Definition openaiClient_baseURL : string := "https://api.openai.com/v1".

Definition openaiClient_post (url : string) (body : JsVal) : M Response :=
  post env (openaiClient_baseURL +:+ url) body.

(** [validateInputs(ideaId, prompt)] *)
Definition validateInputs (ideaId prompt : JsVal) : M unit :=
  if negb (Js.truthy ideaId)
  then throw (Error "Idea ID is required for image generation")
  else
    blank <- (if negb (Js.truthy prompt) then ret true
              else (trimmed <- lift (call_trim prompt) ;;
                    ret (String.length trimmed =? 0)%nat)) ;;
    if (blank : bool)
    then throw (Error "Prompt is required for image generation")
    else fun w =>
      if negb (apiKeyValidated w) && negb (key_present (OPENAI_API_KEY env))
      then (Throw (Error "OpenAI API key is missing. Please check your .env file."), w)
      else (Return tt, set_apiKeyValidated true w).

(** [updatePaintingStatus(ideaId, status, additionalFields = {})] *)
Definition updatePaintingStatus (ideaId status : JsVal)
    (additionalFields : list (string * JsVal)) : M unit :=
  let baseFields := [("status", status)] in
  let fields := Js.spread baseFields additionalFields in
  let setClause := JsString.join ", " (map (fun kv => fst kv +:+ " = ?") fields) in
  let values := map snd fields ++ [ideaId] in
  if existsb Js.is_undefined values
  then throw (Error "Invalid query parameter detected")
  else
    execute env ("UPDATE paintings SET " +:+ setClause +:+ " WHERE idea_id = ?") values ;;;
    ret tt.

(** *** class TempFileManager

    An instance is its index in [managers]; [this.tempFiles] is the list
    stored there. *)

(** [new TempFileManager()] *)
Definition new_TempFileManager : M nat :=
  fun w => (Return (length (managers w)), set_managers (managers w ++ [[]]) w).

(** [this.tempFiles] *)
Definition tempFiles (this : nat) (w : World) : list string :=
  default [] (managers w !! this).

(** [this.tempFiles.push(path)] *)
Definition tempFiles_push (this : nat) (path : string) : M unit :=
  fun w => (Return tt, set_managers (<[this := tempFiles this w ++ [path]]> (managers w)) w).

(** [createTempFile(base64Data, prefix = 'temp')] *)
Definition createTempFile (this : nat) (base64Data : JsVal) (prefix : string) : M string :=
  try_catch
    (buffer <- lift (of_sum (Buffer_from_base64 env base64Data)) ;;
     t <- now env ;;
     tag <- (fun w => (Return (Math_random_tag env (trace w)), w)) ;;
     let fileName := prefix +:+ "_" +:+ JsString.of_Z t +:+ "_" +:+ tag +:+ ".png" in
     let tempFilePath := path_join env (UPLOADS_DIR env) fileName in
     writeFile env tempFilePath buffer ;;;
     tempFiles_push this tempFilePath ;;;
     ret tempFilePath)
    (fun error => throw error).

(** The callbacks of [this.tempFiles.map] in [cleanup], each up to its
    [await]: [map] runs them that far one after the other, before any
    deletion ends, so each [existsSync] sees the disk as the call found it.
    The value is the list of the paths whose deletion was started; a path
    that is tracked twice and found is in it twice. *)
Fixpoint cleanup_found (paths : list string) : M (list string) :=
  match paths with
  | [] => ret []
  | filePath :: rest =>
      there <- existsSync filePath ;;
      found <- cleanup_found rest ;;
      ret (if (there : bool) then filePath :: found else found)
  end.

(** The rest of the callback for a path that was found: the deletion, whose
    failure is swallowed. *)
Definition cleanup_one (filePath : string) : M unit :=
  try_catch (unlink env filePath) (fun error => ret tt).

(** [await Promise.all(cleanupPromises)]: the deletions that were started,
    taken in the order of the array.  Deletions of different paths do not
    depend on one another: on a disk whose answers do not depend on the
    history, any other order leaves the same files
    ([cleanup_all_any_order]). *)
Fixpoint cleanup_deletions (found : list string) : M unit :=
  match found with
  | [] => ret tt
  | filePath :: rest => cleanup_one filePath ;;; cleanup_deletions rest
  end.

(** [await Promise.all(this.tempFiles.map(...))] *)
Definition cleanup_all (paths : list string) : M unit :=
  found <- cleanup_found paths ;;
  cleanup_deletions found.

(** [cleanup()] *)
Definition cleanup (this : nat) : M unit :=
  paths <- (fun w => (Return (tempFiles this w), w)) ;;
  cleanup_all paths ;;;
  fun w => (Return tt, set_managers (<[this := []]> (managers w)) w).

(** *** processReferenceImages *)

(** The callback of [references.map] for [ref] at [index]; the value is the
    form data after it. *)
Definition reference_callback (tempFileManager : nat) (formData : FormData)
    (ref : JsVal) (index : nat) : M FormData :=
  try_catch
    (image_data <- lift (Js.get ref "image_data") ;;
     parts <- lift (call_split image_data) ;;
     let base64Data := part parts 1 in
     if negb (Js.truthy base64Data) then ret formData
     else
       tempFilePath <- createTempFile tempFileManager base64Data
                         ("ref_" +:+ JsString.of_Z (Z.of_nat index)) ;;
       ret (formData ++ [("image[]", tempFilePath)]))
    (fun error => ret formData).

(** [await Promise.all(references.map(...))]: the callbacks, taken in the
    order of the array, from [index] on.  A callback waits once, for its
    write; what it does before and after touches nothing another callback
    reads but the list of tracked files and the form data, which each only
    extends. *)
Fixpoint process_all (tempFileManager : nat) (references : list JsVal) (index : nat)
    (formData : FormData) : M FormData :=
  match references with
  | [] => ret formData
  | ref :: rest =>
      formData' <- reference_callback tempFileManager formData ref index ;;
      process_all tempFileManager rest (S index) formData'
  end.

(** [processReferenceImages(references, formData, tempFileManager)]; the value
    is [formData] as the call leaves it. *)
Definition processReferenceImages (references : list JsVal) (formData : FormData)
    (tempFileManager : nat) : M FormData :=
  if (length references =? 0)%nat then ret formData
  else process_all tempFileManager references 0 formData.

(** *** The two tiers *)

(** The [catch] of [makeGenerationRequest]: the error thrown for [error]. *)
Definition generationError (error : JsError) : JsError :=
  match response error with
  | Some r =>
      let providerMessage := Js.opt (Js.opt (data r) "error") "message" in
      if (status r =? 401)%Z then Error "Invalid OpenAI API key"
      else if (status r =? 403)%Z
      then Error "OpenAI API access forbidden - check your subscription"
      else if (status r =? 429)%Z then Error "OpenAI API rate limit exceeded"
      else if (status r =? 400)%Z
      then Error ("Invalid request: "
                  +:+ Js.toString (Js.or providerMessage (JStr "Bad request")))
      else if (status r =? 500)%Z then Error "OpenAI API server error"
      else Error ("OpenAI API error (" +:+ JsString.of_Z (status r) +:+ "): "
                  +:+ Js.toString (Js.or providerMessage (Js.JSON_stringify_val (data r))))
  | None =>
      if request error
      then Error "No response received from OpenAI API - check your internet connection"
      else Error ("Request setup error: " +:+ message error)
  end.

(** [makeGenerationRequest(prompt)] *)
Definition makeGenerationRequest (prompt : JsVal) : M Response :=
  trimmed <- lift (call_trim prompt) ;;
  let requestBody :=
    JObj [("model", JStr "dall-e-3");
          ("prompt", JStr trimmed);
          ("quality", JStr "hd");
          ("size", JStr "1024x1024");
          ("response_format", JStr "b64_json")] in
  try_catch
    (openaiClient_post "/images/generations" requestBody)
    (fun error => throw (generationError error)).

(** [makeEditsRequest(prompt, formData)] *)
Definition makeEditsRequest (prompt : JsVal) (formData : FormData) : M Response :=
  makeGenerationRequest prompt.

(** [makeDalle2GenerationRequest(prompt)] *)
Definition makeDalle2GenerationRequest (prompt : JsVal) : M Response :=
  trimmed <- lift (call_trim prompt) ;;
  let requestBody :=
    JObj [("model", JStr "dall-e-2");
          ("prompt", JStr (JsString.substring0 1000 trimmed));
          ("size", JStr "1024x1024");
          ("response_format", JStr "b64_json")] in
  try_catch
    (openaiClient_post "/images/generations" requestBody)
    (fun error => throw error).

(** [extractImageData(response, hasReferences)] *)
Definition extractImageData (response : Response) (hasReferences : bool) : M JsVal :=
  try_catch
    (results <- lift (Js.get (data response) "data") ;;
     imageResult <- lift (Js.get_item results 0) ;;
     if negb (Js.truthy imageResult)
     then throw (Error "No image data in API response")
     else
       b64_json <- lift (Js.get imageResult "b64_json") ;;
       if Js.truthy b64_json then ret b64_json
       else
         url <- lift (Js.get imageResult "url") ;;
         if Js.truthy url
         then (bytes <- get_bytes env url ;;
               ret (JStr (Buffer_toString_base64 env bytes)))
         else throw (Error "No valid image data found in API response"))
    (fun error => throw (Error "Failed to extract image data from API response")).

(** [saveImageFile(ideaId, imageData)] *)
Definition saveImageFile (ideaId imageData : JsVal) : M string :=
  t <- now env ;;
  let fileName := "painting_" +:+ Js.toString ideaId +:+ "_" +:+ JsString.of_Z t +:+ ".png" in
  let filePath := path_join env (UPLOADS_DIR env) fileName in
  buffer <- lift (of_sum (Buffer_from_base64 env imageData)) ;;
  writeFile env filePath buffer ;;;
  ret fileName.

(** *** generateImage *)

(** The test of the ladder's [catch]: the message names a client error. *)
Definition isClientError (error : JsError) : bool :=
  JsString.includes (message error) "Invalid OpenAI API key"
  || JsString.includes (message error) "access forbidden"
  || JsString.includes (message error) "Invalid request".

(** The [try] block of the ladder for one [model]. *)
Definition requestWith (model : string) (hasReferences : bool) (prompt : JsVal) : M Response :=
  if hasReferences
  then
    let enhancedPrompt :=
      JStr (Js.toString prompt +:+ " (inspired by provided reference images)") in
    if String.eqb model "dall-e-3"
    then makeGenerationRequest enhancedPrompt
    else makeDalle2GenerationRequest enhancedPrompt
  else
    if String.eqb model "dall-e-3"
    then makeGenerationRequest prompt
    else makeDalle2GenerationRequest prompt.

(** [for (const model of models) { try { ...; break } catch (error) { ... } }]:
    the values of [response] and [lastError] after the loop. *)
Fixpoint tryModels (models : list string) (hasReferences : bool) (prompt : JsVal)
    (lastError : option JsError) : M (option Response * option JsError) :=
  match models with
  | [] => ret (None, lastError)
  | model :: rest =>
      fun w =>
        match requestWith model hasReferences prompt w with
        | (Return response, w') => (Return (Some response, lastError), w')
        | (Throw error, w') =>
            if isClientError error
            then (Throw error, w')
            else tryModels rest hasReferences prompt (Some error) w'
        end
  end.

Definition models : list string := ["dall-e-3"; "dall-e-2"].

(** [references.map(ref => ref.id)] *)
Fixpoint referenceIdsOf (references : list JsVal) : Outcome (list JsVal) :=
  match references with
  | [] => Return []
  | ref :: rest =>
      match Js.get ref "id" with
      | Throw e => Throw e
      | Return id =>
          match referenceIdsOf rest with
          | Throw e => Throw e
          | Return ids => Return (id :: ids)
          end
      end
  end.

(** [usedReferenceIdsJSON] *)
Definition usedReferenceIdsJSON (ids : list JsVal) : JsVal :=
  let referenceIds := List.filter (fun id => negb (Js.nullish id)) ids in
  if (0 <? length referenceIds)%nat
  then Js.JSON_stringify_val (JArr referenceIds)
  else JNull.

(** The [try] block of [generateImage] from the extraction on. *)
Definition generateImage_finish (ideaId : JsVal) (references : list JsVal)
    (response : Response) : M JsVal :=
  let hasReferences := (0 <? length references)%nat in
  imageData <- extractImageData response hasReferences ;;
  fileName <- saveImageFile ideaId imageData ;;
  ids <- lift (referenceIdsOf references) ;;
  updatePaintingStatus ideaId (JStr "completed")
    [("image_url", JStr ("uploads/" +:+ fileName));
     ("image_data", JStr ("data:image/png;base64," +:+ Js.toString imageData));
     ("used_reference_ids", usedReferenceIdsJSON ids)] ;;;
  ret (JObj [("ideaId", ideaId);
             ("imageUrl", JStr ("uploads/" +:+ fileName));
             ("status", JStr "completed")]).

(** The [try] block of [generateImage]. *)
Definition generateImage_try (ideaId prompt : JsVal) (references : list JsVal) : M JsVal :=
  updatePaintingStatus ideaId (JStr "processing") [] ;;;
  let hasReferences := (0 <? length references)%nat in
  after_loop <- tryModels models hasReferences prompt None ;;
  response <- match fst after_loop with
              | Some r => ret r
              | None => throw (default (Error "All image generation models failed")
                                       (snd after_loop))
              end ;;
  generateImage_finish ideaId references response.

(** The [catch] block of [generateImage]. *)
Definition generateImage_catch (ideaId : JsVal) (error : JsError) : M JsVal :=
  try_catch
    (let errorMsg :=
       if String.eqb (message error) EmptyString then "Unknown error" else message error in
     updatePaintingStatus ideaId (JStr "failed")
       [("error_message", JStr (JsString.substring0 255 errorMsg))])
    (fun dbError => ret tt) ;;;
  throw error.

(** [generateImage(ideaId, prompt, references = [])] *)
Definition generateImage (ideaId prompt : JsVal) (references : list JsVal) : M JsVal :=
  validateInputs ideaId prompt ;;;
  tempFileManager <- new_TempFileManager ;;
  try_finally
    (try_catch (generateImage_try ideaId prompt references)
               (generateImage_catch ideaId))
    (cleanup tempFileManager).

End Service.

End OpenAIService.

(** ** src/services/openRouterService.js *)

Module OpenRouterService.

Section Service.

Variable env : Env.

Definition OPENROUTER_URL : string := "https://openrouter.ai/api/v1/chat/completions".

(** The repair pass of [safeJSONParse]: [cleaned]. *)
Definition cleaned (str : string) : string :=
  JsString.replace_escaped JsString.dquote (String JsString.dquote EmptyString)
    (JsString.replace_escaped JsString.squote (String JsString.squote EmptyString)
       (JsString.replace_char JsString.CR " "
          (JsString.replace_char JsString.LF " " str))).

(** [safeJSONParse(str)].  [JSON.parse] converts its argument to a string;
    [replace] is a method of strings only, and reading it of [null] or
    [undefined] throws. *)
Definition safeJSONParse (str : JsVal) : Outcome JsVal :=
  match JSON_parse env (Js.toString str) with
  | inr v => Return v
  | inl e =>
      match str with
      | JStr s =>
          match JSON_parse env (cleaned s) with
          | inr v => Return v
          | inl err => Throw err
          end
      | JUndefined | JNull => Throw (Js.cannot_read str "replace")
      | _ => Throw (TypeError "str.replace is not a function")
      end
  end.

(** [previousIdeas.slice(-3)] *)
Definition slice_last3 (l : list JsVal) : list JsVal := skipn (length l - 3) l.

(** [lastIdeas.map(idea => idea.summary)] *)
Fixpoint summariesOf (ideas : list JsVal) : Outcome (list JsVal) :=
  match ideas with
  | [] => Return []
  | idea :: rest =>
      match Js.get idea "summary" with
      | Throw e => Throw e
      | Return s =>
          match summariesOf rest with
          | Throw e => Throw e
          | Return l => Return (s :: l)
          end
      end
  end.

Definition indent : string := "          ".

(** The [content] of the user message. *)
Definition userContent (titleText instructions : JsVal) (previousIdeasSummary : string)
  : string :=
  "Create a painting concept for the title: " +:+ String JsString.dquote EmptyString
  +:+ Js.toString titleText +:+ String JsString.dquote EmptyString +:+ "."
  +:+ String JsString.LF indent
  +:+ (if Js.truthy instructions
       then "Custom instructions: " +:+ Js.toString instructions
       else EmptyString)
  +:+ String JsString.LF indent
  +:+ previousIdeasSummary
  +:+ String JsString.LF indent
  +:+ "Please generate a completely new and different painting idea that hasn't been suggested yet.".

(** The [tools] of the request. *)
Definition tools : JsVal :=
  JArr [JObj [("type", JStr "function");
              ("function",
               JObj [("name", JStr "savePaintingIdea");
                     ("description", JStr "Save a painting idea");
                     ("parameters",
                      JObj [("type", JStr "object");
                            ("properties",
                             JObj [("summary",
                                    JObj [("type", JStr "string");
                                          ("description",
                                           JStr "A short summary of the painting idea (30-50 words)")]);
                                   ("fullPrompt",
                                    JObj [("type", JStr "string");
                                          ("description",
                                           JStr "The full prompt to generate this painting image (100-200 words with detailed visual instructions)")])]);
                            ("required", JArr [JStr "summary"; JStr "fullPrompt"])])])]].

(** The body of the chat-completion request. *)
Definition requestBody (titleText instructions : JsVal) (previousIdeasSummary : string)
  : JsVal :=
  JObj [("model", JStr "openai/gpt-3.5-turbo");
        ("messages",
         JArr [JObj [("role", JStr "system");
                     ("content",
                      JStr "You are a creative painting designer. Generate unique painting concepts that haven't been suggested before.")];
               JObj [("role", JStr "user");
                     ("content", JStr (userContent titleText instructions previousIdeasSummary))]]);
        ("tools", tools);
        ("tool_choice",
         JObj [("type", JStr "function");
               ("function", JObj [("name", JStr "savePaintingIdea")])])].

(** [response?.data?.choices?.[0]?.message?.tool_calls?.[0]] *)
Definition toolCallOf (response : Response) : JsVal :=
  Js.opt_item (Js.opt (Js.opt (Js.opt_item (Js.opt (data response) "choices") 0)
                               "message") "tool_calls") 0.

(** [const [result] = v]: the first element of an array or of a string; other
    values are not iterable. *)
Definition destructure_first (v : JsVal) : Outcome JsVal :=
  match v with
  | JArr _ | JStr _ => Return (Js.item v 0)
  | JUndefined =>
      Throw (TypeError
               "undefined is not iterable (cannot read property Symbol(Symbol.iterator))")
  | JNull =>
      Throw (TypeError
               "object null is not iterable (cannot read property Symbol(Symbol.iterator))")
  | _ => Throw (TypeError "(intermediate value) is not iterable")
  end.

Definition sqlInsertIdea : string :=
  "INSERT INTO ideas (title_id, summary, full_prompt) VALUES (?, ?, ?)".

(** The insert of [generateIdeas]: the check of [params], then
    [pool.execute]. *)
Definition insertIdea (params : list JsVal) : M JsVal :=
  if existsb Js.is_undefined params
  then throw (Error "Invalid query parameter detected")
  else execute env sqlInsertIdea params.

(** [generateIdeas(titleId, titleText, instructions, previousIdeas = [])] *)
Definition generateIdeas (titleId titleText instructions : JsVal)
    (previousIdeas : list JsVal) : M JsVal :=
  try_catch
    (if negb (Js.truthy titleId)
     then throw (Error "Title ID is required for idea generation")
     else if negb (Js.truthy titleText)
     then throw (Error "Title text is required for idea generation")
     else if negb (key_present (OPENROUTER_API_KEY env))
     then throw (Error "OpenRouter API key is missing. Please check your .env file.")
     else
       let lastIdeas := slice_last3 previousIdeas in
       summaries <- lift (summariesOf lastIdeas) ;;
       let previousIdeasSummary :=
         if (0 <? length lastIdeas)%nat
         then "Previous painting ideas: " +:+ Js.join "; " summaries
         else EmptyString in
       response <- post env OPENROUTER_URL
                     (requestBody titleText instructions previousIdeasSummary) ;;
       let toolCall := toolCallOf response in
       let arguments := Js.opt (Js.opt toolCall "function") "arguments" in
       if negb (Js.truthy arguments)
       then throw (Error "No function arguments returned from OpenRouter.")
       else
         ideaData <- lift (safeJSONParse arguments) ;;
         summary <- lift (Js.get ideaData "summary") ;;
         fullPrompt <- (if negb (Js.truthy summary) then ret JUndefined
                        else lift (Js.get ideaData "fullPrompt")) ;;
         if negb (Js.truthy summary) || negb (Js.truthy fullPrompt)
         then throw (Error "Incomplete idea data received from AI")
         else
           let params := [titleId; summary; fullPrompt] in
           rows <- insertIdea params ;;
           result <- lift (destructure_first rows) ;;
           id <- lift (Js.get result "insertId") ;;
           ret (JObj [("id", id);
                      ("titleId", titleId);
                      ("summary", summary);
                      ("fullPrompt", fullPrompt)]))
    (fun error => throw error).

End Service.

End OpenRouterService.

(** ** Reference collaborators

    Executable stand-ins for the library functions, used to run the model on
    concrete inputs.  None of the general theorems depends on them. *)

Module Reference.

(** *** JSON.parse, for documents whose numbers are integers and whose
    [\u] escapes are below 256 *)

Inductive Parsed (A : Type) : Type :=
| POk (a : A) (rest : string)
| PSyntax                      (* not JSON: a SyntaxError *)
| POutside.                    (* outside the fragment *)
Arguments POk {A} a rest.
Arguments PSyntax {A}.
Arguments POutside {A}.

Definition is_json_ws (c : ascii) : bool :=
  let n := nat_of_ascii c in
  (n =? 32)%nat || (n =? 9)%nat || (n =? 10)%nat || (n =? 13)%nat.

Fixpoint skip_ws (s : string) : string :=
  match s with
  | String c s' => if is_json_ws c then skip_ws s' else s
  | EmptyString => s
  end.

Definition hex_value (c : ascii) : option nat :=
  let n := nat_of_ascii c in
  if (48 <=? n)%nat && (n <=? 57)%nat then Some (n - 48)
  else if (97 <=? n)%nat && (n <=? 102)%nat then Some (n - 87)
  else if (65 <=? n)%nat && (n <=? 70)%nat then Some (n - 55)
  else None.

Definition unescape (c : ascii) : option ascii :=
  let n := nat_of_ascii c in
  if (n =? 34)%nat || (n =? 92)%nat || (n =? 47)%nat then Some c
  else if (n =? 98)%nat then Some (ascii_of_nat 8)
  else if (n =? 102)%nat then Some (ascii_of_nat 12)
  else if (n =? 110)%nat then Some (ascii_of_nat 10)
  else if (n =? 114)%nat then Some (ascii_of_nat 13)
  else if (n =? 116)%nat then Some (ascii_of_nat 9)
  else None.

Definition cons_char (c : ascii) (p : Parsed string) : Parsed string :=
  match p with
  | POk s rest => POk (String c s) rest
  | PSyntax => PSyntax
  | POutside => POutside
  end.

(** The characters of a string literal, after its opening quote. *)
Fixpoint parse_chars (s : string) : Parsed string :=
  match s with
  | EmptyString => PSyntax
  | String c s' =>
      if Ascii.eqb c JsString.dquote then POk EmptyString s'
      else if Ascii.eqb c JsString.backslash then
        match s' with
        | EmptyString => PSyntax
        | String e s'' =>
            if Ascii.eqb e "u" then
              match s'' with
              | String h1 (String h2 (String h3 (String h4 r))) =>
                  match hex_value h1, hex_value h2, hex_value h3, hex_value h4 with
                  | Some a, Some b, Some c', Some d =>
                      if (a =? 0)%nat && (b =? 0)%nat
                      then cons_char (ascii_of_nat (16 * c' + d)) (parse_chars r)
                      else POutside
                  | _, _, _, _ => PSyntax
                  end
              | _ => PSyntax
              end
            else
              match unescape e with
              | Some ch => cons_char ch (parse_chars s'')
              | None => PSyntax
              end
        end
      else if (nat_of_ascii c <? 32)%nat then PSyntax
      else cons_char c (parse_chars s')
  end.

Definition is_digit (c : ascii) : bool :=
  let n := nat_of_ascii c in (48 <=? n)%nat && (n <=? 57)%nat.

(** The digits at the head of [s], as a number, with how many there are. *)
Fixpoint take_digits (acc : Z) (count : nat) (s : string) : Z * nat * string :=
  match s with
  | String c s' =>
      if is_digit c
      then take_digits (10 * acc + Z.of_nat (nat_of_ascii c - 48)) (S count) s'
      else (acc, count, s)
  | EmptyString => (acc, count, s)
  end.

Definition parse_digits (negative : bool) (s : string) : Parsed JsVal :=
  match take_digits 0 0 s with
  | (n, count, rest) =>
      if (count =? 0)%nat then PSyntax
      else if (1 <? count)%nat && String.prefix "0" s then PSyntax
      else
        match rest with
        | String c _ =>
            if Ascii.eqb c "." || Ascii.eqb c "e" || Ascii.eqb c "E" then POutside
            else POk (JNum (if negative then - n else n)) rest
        | EmptyString => POk (JNum (if negative then - n else n)) rest
        end
  end.

Definition parse_number (s : string) : Parsed JsVal :=
  match s with
  | String c s' => if Ascii.eqb c "-" then parse_digits true s' else parse_digits false s
  | EmptyString => PSyntax
  end.

Definition parse_literal (s : string) : Parsed JsVal :=
  if String.prefix "true" s then POk (JBool true) (String.substring 4 (String.length s - 4) s)
  else if String.prefix "false" s then POk (JBool false) (String.substring 5 (String.length s - 5) s)
  else if String.prefix "null" s then POk JNull (String.substring 4 (String.length s - 4) s)
  else parse_number s.

(** Recursive descent; [fuel] bounds the number of nested calls. *)
Fixpoint parse_value (fuel : nat) (s : string) : Parsed JsVal :=
  match fuel with
  | O => POutside
  | S fuel' =>
      match skip_ws s with
      | EmptyString => PSyntax
      | String c s' =>
          if Ascii.eqb c "{" then
            match skip_ws s' with
            | String c' r => if Ascii.eqb c' "}" then POk (JObj []) r
                             else parse_members fuel' [] s'
            | EmptyString => PSyntax
            end
          else if Ascii.eqb c "[" then
            match skip_ws s' with
            | String c' r => if Ascii.eqb c' "]" then POk (JArr []) r
                             else parse_elements fuel' [] s'
            | EmptyString => PSyntax
            end
          else if Ascii.eqb c JsString.dquote then
            match parse_chars s' with
            | POk str rest => POk (JStr str) rest
            | PSyntax => PSyntax
            | POutside => POutside
            end
          else parse_literal (String c s')
      end
  end
with parse_elements (fuel : nat) (acc : list JsVal) (s : string) : Parsed JsVal :=
  match fuel with
  | O => POutside
  | S fuel' =>
      match parse_value fuel' s with
      | POk v rest =>
          match skip_ws rest with
          | String c r =>
              if Ascii.eqb c "," then parse_elements fuel' (acc ++ [v]) r
              else if Ascii.eqb c "]" then POk (JArr (acc ++ [v])) r
              else PSyntax
          | EmptyString => PSyntax
          end
      | PSyntax => PSyntax
      | POutside => POutside
      end
  end
with parse_members (fuel : nat) (acc : list (string * JsVal)) (s : string) : Parsed JsVal :=
  match fuel with
  | O => POutside
  | S fuel' =>
      match skip_ws s with
      | String q s1 =>
          if Ascii.eqb q JsString.dquote then
            match parse_chars s1 with
            | POk key rest =>
                match skip_ws rest with
                | String colon r =>
                    if Ascii.eqb colon ":" then
                      match parse_value fuel' r with
                      | POk v rest' =>
                          match skip_ws rest' with
                          | String c r' =>
                              if Ascii.eqb c ","
                              then parse_members fuel' (Js.set_prop key v acc) r'
                              else if Ascii.eqb c "}"
                              then POk (JObj (Js.set_prop key v acc)) r'
                              else PSyntax
                          | EmptyString => PSyntax
                          end
                      | PSyntax => PSyntax
                      | POutside => POutside
                      end
                    else PSyntax
                | EmptyString => PSyntax
                end
            | PSyntax => PSyntax
            | POutside => POutside
            end
          else PSyntax
      | EmptyString => PSyntax
      end
  end.

Definition SyntaxError : JsError :=
  mkError "SyntaxError" "Unexpected token in JSON" None false.

Definition OutsideFragment : JsError :=
  mkError "OutsideFragment" "document outside the reference parser" None false.

(** [JSON.parse(text)] *)
Definition parse_json (text : string) : JsError + JsVal :=
  match parse_value (2 * String.length text + 2) text with
  | POk v rest =>
      match skip_ws rest with
      | EmptyString => inr v
      | String _ _ => inl SyntaxError
      end
  | PSyntax => inl SyntaxError
  | POutside => inl OutsideFragment
  end.

(** *** Base64, as [Buffer] encodes and decodes it *)

Definition base64_char (n : nat) : ascii :=
  if (n <? 26)%nat then ascii_of_nat (65 + n)
  else if (n <? 52)%nat then ascii_of_nat (71 + n)
  else if (n <? 62)%nat then ascii_of_nat (n - 4)
  else if (n =? 62)%nat then "+" else "/".

(** The value of a character of the alphabet; the decoder reads [-] and [_]
    of the URL alphabet as [+] and [/]. *)
Definition base64_index (c : ascii) : option nat :=
  let n := nat_of_ascii c in
  if (65 <=? n)%nat && (n <=? 90)%nat then Some (n - 65)
  else if (97 <=? n)%nat && (n <=? 122)%nat then Some (n - 71)
  else if (48 <=? n)%nat && (n <=? 57)%nat then Some (n + 4)
  else if (n =? 43)%nat || (n =? 45)%nat then Some 62
  else if (n =? 47)%nat || (n =? 95)%nat then Some 63
  else None.

(** [buf.toString('base64')] *)
Fixpoint base64_encode (l : Buffer) : string :=
  match l with
  | [] => EmptyString
  | [a] =>
      let n := Byte.to_nat a in
      String (base64_char (n / 4)) (String (base64_char (n mod 4 * 16)) "==")
  | [a; b] =>
      let n := Byte.to_nat a in
      let m := Byte.to_nat b in
      String (base64_char (n / 4))
        (String (base64_char (n mod 4 * 16 + m / 16))
           (String (base64_char (m mod 16 * 4)) "="))
  | a :: b :: c :: rest =>
      let n := Byte.to_nat a in
      let m := Byte.to_nat b in
      let k := Byte.to_nat c in
      String (base64_char (n / 4))
        (String (base64_char (n mod 4 * 16 + m / 16))
           (String (base64_char (m mod 16 * 4 + k / 64))
              (String (base64_char (k mod 64)) (base64_encode rest))))
  end.

(** The sextets of a base64 text up to its padding; other characters are
    skipped. *)
Fixpoint sextets (s : string) : list nat :=
  match s with
  | EmptyString => []
  | String c s' =>
      if Ascii.eqb c "=" then []
      else match base64_index c with
           | Some n => n :: sextets s'
           | None => sextets s'
           end
  end.

Definition byte_of_nat (n : nat) : Byte.byte :=
  default Byte.x00 (Byte.of_nat (n mod 256)).

Fixpoint bytes_of_sextets (l : list nat) : Buffer :=
  match l with
  | a :: b :: c :: d :: rest =>
      byte_of_nat (a * 4 + b / 16)
        :: byte_of_nat (b mod 16 * 16 + c / 4)
        :: byte_of_nat (c mod 4 * 64 + d)
        :: bytes_of_sextets rest
  | [a; b; c] => [byte_of_nat (a * 4 + b / 16); byte_of_nat (b mod 16 * 16 + c / 4)]
  | [a; b] => [byte_of_nat (a * 4 + b / 16)]
  | _ => []
  end.

(** [Buffer.from(v, 'base64')]; of the values that are not strings only the
    rejected ones are covered. *)
Definition from_base64 (v : JsVal) : JsError + Buffer :=
  match v with
  | JStr s => inr (bytes_of_sextets (sextets s))
  | _ => inl (TypeError "The first argument must be of type string or an instance of Buffer")
  end.

(** *** A process whose collaborators all work

    The provider, the remote host and the pool answer as given; the disk
    takes every write and every deletion; the clock stands at [clock]. *)
Definition env
    (provider : list Event -> string -> JsVal -> JsError + Response)
    (host : list Event -> JsVal -> JsError + Buffer)
    (pool : list Event -> string -> list JsVal -> JsError + JsVal)
    (clock : Z) : Env :=
  {| OPENAI_API_KEY := Some "sk-openai";
     OPENROUTER_API_KEY := Some "sk-openrouter";
     UPLOADS_DIR := "/app/uploads";
     path_join := fun dir file => dir +:+ "/" +:+ file;
     axios_post := provider;
     axios_get := host;
     pool_execute := pool;
     fs_writeFile := fun _ _ _ => None;
     fs_unlink := fun _ _ => None;
     Date_now := fun _ => clock;
     Math_random_tag := fun _ => "k3x9q";
     JSON_parse := parse_json;
     Buffer_from_base64 := from_base64;
     Buffer_toString_base64 := base64_encode |}.

(** The error axios raises for a reply with a status outside 2xx. *)
Definition statusError (code : Z) (body : JsVal) : JsError :=
  mkError "AxiosError" ("Request failed with status code " +:+ JsString.of_Z code)
          (Some (mkResponse code body)) true.

(** The error axios raises when no reply came. *)
Definition networkError : JsError :=
  mkError "AxiosError" "Network Error" None true.

(** A pool that accepts every statement and numbers the inserted row [id]. *)
Definition pool_ok (id : Z) : list Event -> string -> list JsVal -> JsError + JsVal :=
  fun _ _ _ => inr (JArr [JObj [("insertId", JNum id); ("affectedRows", JNum 1)]; JUndefined]).

(** A pool that is down. *)
Definition pool_down : list Event -> string -> list JsVal -> JsError + JsVal :=
  fun _ _ _ => inl (mkError "Error" "connect ECONNREFUSED 127.0.0.1:3306" None false).

Definition host_down : list Event -> JsVal -> JsError + Buffer :=
  fun _ _ => inl networkError.

(** The [model] of a request body. *)
Definition model_of (body : JsVal) : string := Js.toString (Js.prop body "model").

End Reference.

(** * The vocabulary of the properties *)

Import OpenAIService OpenRouterService.

Section Vocabulary.

Variable env : Env.

(** A computation that leaves the object store and the module flag as it
    found them. *)
Definition keeps {A} (m : M A) : Prop :=
  forall w, managers (snd (m w)) = managers w /\
            apiKeyValidated (snd (m w)) = apiKeyValidated w.

(** What [validateInputs] accepts. *)
Definition validInputs (ideaId prompt : JsVal) : Prop :=
  Js.truthy ideaId = true /\
  exists s, prompt = JStr s /\ JsString.trim s <> EmptyString.

(** The key check passes: the key is set, or an earlier call found it set. *)
Definition keyAccepted (w : World) : Prop :=
  apiKeyValidated w = true \/ key_present (OPENAI_API_KEY env) = true.

(** What a run of the callbacks over [paths] from [w] to [w'] did: [evs] are
    its outside calls. *)
Record Swept (paths : list string) (w w' : World) (evs : list Event) : Prop := {
  swept_trace : trace w' = trace w ++ evs;
  swept_managers : managers w' = managers w;
  swept_flag : apiKeyValidated w' = apiKeyValidated w;
  swept_no_new_file : forall q, files w !! q = None -> files w' !! q = None;
  swept_untracked : forall q, q ∉ paths -> files w' !! q = files w !! q;
  swept_only_unlinks :
    forall ev, ev ∈ evs -> exists q res, ev = EvUnlink q res /\ q ∈ paths;
  swept_each :
    forall q, q ∈ paths ->
      files w' !! q = None \/ exists e, EvUnlink q (Some e) ∈ evs
}.

(** The world in which the [try] block starts: the flag is set and the
    manager of the call exists, tracking nothing. *)
Definition pipelineStart (w : World) : World :=
  set_managers (managers w ++ [[]]) (set_apiKeyValidated true w).

(** [try { ... } catch (error) { ... }] of [generateImage], without its
    [finally]. *)
Definition guarded (ideaId prompt : JsVal) (references : list JsVal) : M JsVal :=
  try_catch (generateImage_try env ideaId prompt references)
            (generateImage_catch env ideaId).

Definition sqlProcessing : string :=
  "UPDATE paintings SET status = ? WHERE idea_id = ?".
Definition sqlCompleted : string :=
  "UPDATE paintings SET status = ?, image_url = ?, image_data = ?, used_reference_ids = ? WHERE idea_id = ?".
Definition sqlFailed : string :=
  "UPDATE paintings SET status = ?, error_message = ? WHERE idea_id = ?".

(** The endpoint both tiers post to. *)
Definition imagesURL : string := "https://api.openai.com/v1/images/generations".

(** The request body of the primary tier for [prompt]. *)
Definition dalle3Body (prompt : string) : JsVal :=
  JObj [("model", JStr "dall-e-3");
        ("prompt", JStr (JsString.trim prompt));
        ("quality", JStr "hd");
        ("size", JStr "1024x1024");
        ("response_format", JStr "b64_json")].

(** The request body of the secondary tier for [prompt]. *)
Definition dalle2Body (prompt : string) : JsVal :=
  JObj [("model", JStr "dall-e-2");
        ("prompt", JStr (JsString.substring0 1000 (JsString.trim prompt)));
        ("size", JStr "1024x1024");
        ("response_format", JStr "b64_json")].

(** The prompt the ladder hands to a tier. *)
Definition promptSent (prompt : string) (references : list JsVal) : string :=
  if (0 <? length references)%nat
  then prompt +:+ " (inspired by provided reference images)"
  else prompt.

(** The note the ladder adds to the prompt when there are references. *)
Definition referenceNote : string := " (inspired by provided reference images)".

(** [error.message || 'Unknown error'], cut to 255 characters. *)
Definition recordedMessage (error : JsError) : string :=
  JsString.substring0 255
    (if String.eqb (message error) EmptyString then "Unknown error" else message error).

(** The values of the three updates. *)
Definition processingValues (ideaId : JsVal) : list JsVal :=
  [JStr "processing"; ideaId].
Definition failedValues (ideaId : JsVal) (error : JsError) : list JsVal :=
  [JStr "failed"; JStr (recordedMessage error); ideaId].
Definition completedValues (ideaId : JsVal) (fileName : string) (imageData usedIds : JsVal)
  : list JsVal :=
  [JStr "completed";
   JStr ("uploads/" +:+ fileName);
   JStr ("data:image/png;base64," +:+ Js.toString imageData);
   usedIds;
   ideaId].

(** The world after a statement was handed to the pool. *)
Definition executed (sql : string) (values : list JsVal) (w : World) : World :=
  log_event (EvExecute sql values (pool_execute env (trace w) sql values)) w.

(** The world after a request to the provider. *)
Definition posted (body : JsVal) (w : World) : World :=
  log_event (EvPost imagesURL body (axios_post env (trace w) imagesURL body)) w.

(** The error every failed extraction ends in. *)
Definition extractionError : JsError :=
  Error "Failed to extract image data from API response".

(** [response.data.data[0]] *)
Definition firstResult (response : Response) : Outcome JsVal :=
  match Js.get (data response) "data" with
  | Throw e => Throw e
  | Return results => Js.get_item results 0
  end.

(** The name [saveImageFile] gives the file, at the time of [w]. *)
Definition imageFileName (ideaId : JsVal) (w : World) : string :=
  "painting_" +:+ Js.toString ideaId +:+ "_" +:+ JsString.of_Z (Date_now env (trace w))
  +:+ ".png".

Definition imageFilePath (ideaId : JsVal) (w : World) : string :=
  path_join env (UPLOADS_DIR env) (imageFileName ideaId w).

(** The world after [fs.writeFile] took the file. *)
Definition written (path : string) (content : Buffer) (w : World) : World :=
  log_event (EvWriteFile path content None) (set_files (<[path := content]> (files w)) w).

(** The value a successful call returns. *)
Definition completedResult (ideaId : JsVal) (fileName : string) : JsVal :=
  JObj [("ideaId", ideaId);
        ("imageUrl", JStr ("uploads/" +:+ fileName));
        ("status", JStr "completed")].

(** The try block from the extraction on, under [generateImage]'s [catch]. *)
Definition afterLadder (ideaId : JsVal) (references : list JsVal) (response : Response)
  : M JsVal :=
  try_catch (generateImage_finish env ideaId references response)
            (generateImage_catch env ideaId).



(** The text with every newline and carriage return replaced by a space. *)
Definition spaced (str : string) : string :=
  JsString.replace_char JsString.CR " " (JsString.replace_char JsString.LF " " str).

(** The text holds a backslash followed by the quote [q]. *)
Definition hasEscaped (q : ascii) (str : string) : bool :=
  JsString.includes str (String JsString.backslash (String q EmptyString)).

(** [previousIdeasSummary] *)
Definition previousIdeasSummary (previousIdeas summaries : list JsVal) : string :=
  if (0 <? length (slice_last3 previousIdeas))%nat
  then "Previous painting ideas: " +:+ Js.join "; " summaries
  else EmptyString.

(** [generateIdeas] from the reply of the provider on: the tool call is read,
    its arguments are parsed, the idea is inserted and returned. *)
Definition ideaFromReply (titleId : JsVal) (response : Response) : M JsVal :=
  let toolCall := toolCallOf response in
  let arguments := Js.opt (Js.opt toolCall "function") "arguments" in
  if negb (Js.truthy arguments)
  then throw (Error "No function arguments returned from OpenRouter.")
  else
    ideaData <- lift (safeJSONParse env arguments) ;;
    summary <- lift (Js.get ideaData "summary") ;;
    fullPrompt <- (if negb (Js.truthy summary) then ret JUndefined
                   else lift (Js.get ideaData "fullPrompt")) ;;
    if negb (Js.truthy summary) || negb (Js.truthy fullPrompt)
    then throw (Error "Incomplete idea data received from AI")
    else
      let params := [titleId; summary; fullPrompt] in
      rows <- insertIdea env params ;;
      result <- lift (destructure_first rows) ;;
      id <- lift (Js.get result "insertId") ;;
      ret (JObj [("id", id);
                 ("titleId", titleId);
                 ("summary", summary);
                 ("fullPrompt", fullPrompt)]).

(** The arguments of the tool call in a reply. *)
Definition argumentsOf (response : Response) : JsVal :=
  Js.opt (Js.opt (toolCallOf response) "function") "arguments".

(** What [generateIdeas] makes of the rows the pool returned for the insert of
    [summary] and [fullPrompt]. *)
Definition ideaInserted (titleId summary fullPrompt rows : JsVal) : Outcome JsVal :=
  match destructure_first rows with
  | Throw e => Throw e
  | Return result =>
      match Js.get result "insertId" with
      | Throw e => Throw e
      | Return id =>
          Return (JObj [("id", id);
                        ("titleId", titleId);
                        ("summary", summary);
                        ("fullPrompt", fullPrompt)])
      end
  end.

(** The request [generateIdeas] sends for the ideas [previousIdeas], whose
    last three have the summaries [summaries]. *)
Definition ideasBody (titleText instructions : JsVal) (previousIdeas summaries : list JsVal)
  : JsVal :=
  requestBody titleText instructions (previousIdeasSummary previousIdeas summaries).

End Vocabulary.

(** ** Reading a trace *)

(** The events of [w'] that [w] did not have yet. *)
Definition newEvents (w w' : World) : list Event :=
  drop (length (trace w)) (trace w').

(** The [model] of every request to the image provider, in order. *)
Fixpoint requestedModels (evs : list Event) : list string :=
  match evs with
  | [] => []
  | EvPost _ body _ :: rest => Js.toString (Js.prop body "model") :: requestedModels rest
  | _ :: rest => requestedModels rest
  end.

(** The [status] written by every update of [paintings] that the pool
    accepted, in order.  All updates of one call are keyed on its [ideaId]. *)
Fixpoint statusWrites (evs : list Event) : list JsVal :=
  match evs with
  | [] => []
  | EvExecute sql (st :: _) (inr _) :: rest =>
      if String.prefix "UPDATE paintings SET status = ?" sql
      then st :: statusWrites rest
      else statusWrites rest
  | _ :: rest => statusWrites rest
  end.

(** The [status] the record ends in. *)
Definition recordStatus (evs : list Event) : option JsVal := last (statusWrites evs).

(** Every statement handed to the pool, accepted or not, in order. *)
Fixpoint statements (evs : list Event) : list (string * list JsVal) :=
  match evs with
  | [] => []
  | EvExecute sql values _ :: rest => (sql, values) :: statements rest
  | _ :: rest => statements rest
  end.

(** From [w] to [w'] the pool accepted updates that set the status to
    [statuses], in that order. *)
Definition Wrote (w w' : World) (statuses : list JsVal) : Prop :=
  exists evs, trace w' = trace w ++ evs /\ statusWrites evs = statuses.

(** The states of the process: the module has just been loaded, or a call
    of one of the two exported functions has ended. *)
Inductive Reachable (env : Env) : World -> Prop :=
| reach_initial disk : Reachable env (initial_world disk)
| reach_generateImage w ideaId prompt references r w' :
    Reachable env w ->
    OpenAIService.generateImage env ideaId prompt references w = (r, w') ->
    Reachable env w'
| reach_generateIdeas w titleId titleText instructions previousIdeas r w' :
    Reachable env w ->
    OpenRouterService.generateIdeas env titleId titleText instructions previousIdeas w
      = (r, w') ->
    Reachable env w'.

(** Whether the disk lets [path] be deleted does not depend on what happened
    before. *)
Definition steadyDisk (env : Env) : Prop :=
  forall tr tr' path, fs_unlink env tr path = fs_unlink env tr' path.

(** The disk lets [path] be deleted. *)
Definition deletable (env : Env) (path : string) : bool :=
  match fs_unlink env [] path with
  | None => true
  | Some _ => false
  end.

(** A field whose name is no array index: [Object.keys] lists such names in
    the order in which they were set, after the array indices. *)
Definition named (field : string * JsVal) : Prop := Js.array_index (fst field) = None.

(** A field whose name holds no question mark. *)
Definition plain (field : string * JsVal) : Prop := JsString.count "?" (fst field) = 0.

(** The values [updatePaintingStatus] hands to the pool. *)
Definition updateValues (ideaId status : JsVal) (additionalFields : list (string * JsVal))
  : list JsVal :=
  map snd (Js.spread [("status", status)] additionalFields) ++ [ideaId].

(** ** Temporary files and reference images *)

(** The path [createTempFile] gives the file it writes at the time of [w]. *)
Definition tempFilePath (env : Env) (prefix : string) (w : World) : string :=
  path_join env (UPLOADS_DIR env)
    (prefix +:+ "_" +:+ JsString.of_Z (Date_now env (trace w)) +:+ "_"
     +:+ Math_random_tag env (trace w) +:+ ".png").

(** The base64 part of a reference image: what stands between the first and
    the second comma of its [image_data], when that is a string and the part
    is not empty. *)
Definition payload (ref : JsVal) : option string :=
  match Js.get ref "image_data" with
  | Return (JStr s) =>
      match nth_error (JsString.split "," s) 1 with
      | Some b => if String.eqb b EmptyString then None else Some b
      | None => None
      end
  | _ => None
  end.

(** The reference image carries such a part. *)
Definition hasPayload (ref : JsVal) : bool :=
  match payload ref with
  | Some _ => true
  | None => false
  end.

(** A reference image [processReferenceImages] can make nothing of: it is
    [null] or [undefined], or its [image_data] is not a string, or that string
    holds no comma. *)
Definition unusable (ref : JsVal) : Prop :=
  Js.nullish ref = true \/
  (forall s, Js.prop ref "image_data" <> JStr s) \/
  (exists s, Js.prop ref "image_data" = JStr s /\ JsString.count "," s = 0).

(** The fields [processReferenceImages] appends for the files [paths]. *)
Definition imageFields (paths : list string) : FormData :=
  map (fun path => ("image[]", path)) paths.

(** What a run of the callbacks of [processReferenceImages] for the manager
    [this] did from [w] to [w']: [added] are the files it wrote, in order,
    and [evs] its outside calls. *)
Record Processed (this : nat) (w w' : World) (added : list string) (evs : list Event)
  : Prop := {
  processed_trace : trace w' = trace w ++ evs;
  processed_flag : apiKeyValidated w' = apiKeyValidated w;
  processed_tracked : tempFiles this w' = tempFiles this w ++ added;
  processed_others :
    forall other, other <> this -> managers w' !! other = managers w !! other;
  processed_length : length (managers w') = length (managers w);
  processed_only_writes :
    forall ev, ev ∈ evs -> exists path content res, ev = EvWriteFile path content res;
  processed_written_tracked :
    forall path content, EvWriteFile path content None ∈ evs -> path ∈ added;
  processed_tracked_written :
    forall path, path ∈ added -> exists content, EvWriteFile path content None ∈ evs;
  processed_on_disk : forall path, path ∈ added -> is_Some (files w' !! path);
  processed_rest : forall q, q ∉ added -> files w' !! q = files w !! q
}.

(** ** Counting the outside calls *)

Definition isPost (ev : Event) : bool :=
  match ev with EvPost _ _ _ => true | _ => false end.
Definition isGet (ev : Event) : bool :=
  match ev with EvGet _ _ => true | _ => false end.
Definition isExecute (ev : Event) : bool :=
  match ev with EvExecute _ _ _ => true | _ => false end.
Definition isWriteFile (ev : Event) : bool :=
  match ev with EvWriteFile _ _ _ => true | _ => false end.
Definition isUnlink (ev : Event) : bool :=
  match ev with EvUnlink _ _ => true | _ => false end.

(** How many of the calls [evs] are of the given kind. *)
Definition calls (kind : Event -> bool) (evs : list Event) : nat :=
  length (List.filter kind evs).

(** The writes the disk took, in order. *)
Fixpoint acceptedWrites (evs : list Event) : list (string * Buffer) :=
  match evs with
  | [] => []
  | EvWriteFile path content None :: rest => (path, content) :: acceptedWrites rest
  | _ :: rest => acceptedWrites rest
  end.

(** The disk after the writes [ws], oldest first. *)
Definition applyWrites (ws : list (string * Buffer)) (disk : gmap string Buffer)
  : gmap string Buffer :=
  fold_left (fun d pc => <[fst pc := snd pc]> d) ws disk.

(** The outside calls a call of [generateImage] for [ideaId] may make: a
    request to the image endpoint, a download, a write of an image file named
    after [ideaId] in the uploads directory, an update of the [paintings] row
    of [ideaId] that sets its status first -- no deletion. *)
Definition allowedCall (env : Env) (ideaId : JsVal) (ev : Event) : Prop :=
  match ev with
  | EvPost url _ _ => url = imagesURL
  | EvGet _ _ => True
  | EvExecute sql values _ =>
      String.prefix "UPDATE paintings SET status = ?" sql = true /\
      last values = Some ideaId
  | EvWriteFile path _ _ =>
      exists time,
        path = path_join env (UPLOADS_DIR env)
                 ("painting_" +:+ Js.toString ideaId +:+ "_" +:+ JsString.of_Z time
                  +:+ ".png")
  | EvUnlink _ _ => False
  end.

(** What a part of a call of [generateImage] for [ideaId] did outside, from
    [w] to [w']: [evs] are its outside calls, all of them allowed, and the disk
    changed by the writes it took and by nothing else. *)
Record Footprint (env : Env) (ideaId : JsVal) (w w' : World) (evs : list Event)
  : Prop := {
  footprint_trace : trace w' = trace w ++ evs;
  footprint_allowed : Forall (allowedCall env ideaId) evs;
  footprint_disk : files w' = applyWrites (acceptedWrites evs) (files w)
}.

(** The outside calls of one kind each that a call may make at most. *)
Record Budget := mkBudget {
  posts : nat; gets : nat; writes : nat; statementsRun : nat; deletions : nat
}.

Definition within (evs : list Event) (b : Budget) : Prop :=
  calls isPost evs <= posts b /\
  calls isGet evs <= gets b /\
  calls isWriteFile evs <= writes b /\
  calls isExecute evs <= statementsRun b /\
  calls isUnlink evs <= deletions b.

(** From [w] to [w'] a part of a call for [ideaId] left its footprint and
    stayed within the budget [b]. *)
Definition Spent (env : Env) (ideaId : JsVal) (w w' : World) (b : Budget) : Prop :=
  exists evs, Footprint env ideaId w w' evs /\ within evs b.

(** What one call of [generateImage] may spend: two requests, one download,
    one write, three statements, no deletion. *)
Definition generateImageBudget : Budget := mkBudget 2 1 1 3 0.

(** ** Concrete processes *)

Module Scenario.

(** The reply [{data: [{b64_json: x}]}]. *)
Definition imageReply (x : string) : Response :=
  mkResponse 200 (JObj [("data", JArr [JObj [("b64_json", JStr x)]])]).

(** The reply [{data: [{url: u}]}]. *)
Definition urlReply (u : string) : Response :=
  mkResponse 200 (JObj [("data", JArr [JObj [("url", JStr u)]])]).

(** A provider whose primary tier gives [primary] and whose secondary tier
    gives [secondary]. *)
Definition tiers (primary secondary : JsError + Response)
  : list Event -> string -> JsVal -> JsError + Response :=
  fun _ _ body =>
    if String.eqb (Reference.model_of body) "dall-e-3" then primary else secondary.

Definition clock : Z := 1700000000000.

(** A process whose pool and disk work, with the given provider. *)
Definition process (provider : list Event -> string -> JsVal -> JsError + Response) : Env :=
  Reference.env provider Reference.host_down (Reference.pool_ok 7) clock.

(** The first call of a process with an empty disk. *)
Definition firstCall (e : Env) (references : list JsVal) : Outcome JsVal * World :=
  OpenAIService.generateImage e (JNum 42) (JStr "a red barn at sunset") references
    (initial_world ∅).




(** dall-e-3 answers 429, dall-e-2 draws the image. *)
Definition rateLimited : Env :=
  process (tiers (inl (Reference.statusError 429 JNull)) (inr (imageReply "aGk="))).

(** Both tiers draw the image [aGVsbG8=]. *)
Definition healthy : Env :=
  process (fun _ _ _ => inr (imageReply "aGVsbG8=")).

End Scenario.

(** A pool that refuses the first statement it is handed with an error that
    carries no message, and accepts the later ones. *)
Definition silentRefusal : Env :=
  Reference.env (fun _ _ _ => inr (Scenario.imageReply "aGk=")) Reference.host_down
    (fun tr sql values =>
       match tr with
       | [] => inl (Error EmptyString)
       | _ => Reference.pool_ok 7 tr sql values
       end)
    Scenario.clock.

(** The provider draws the image, the disk takes it, and the pool refuses the
    statement that would complete the record. *)
Definition columnTooShort : Env :=
  Reference.env (fun _ _ _ => inr (Scenario.imageReply "aGk=")) Reference.host_down
    (fun tr sql values =>
       if String.eqb sql sqlCompleted
       then inl (Error "Data too long for column 'image_data' at row 1")
       else Reference.pool_ok 7 tr sql values)
    Scenario.clock.

(** A disk that refuses to delete [/app/uploads/stuck.png]. *)
Definition stuckDisk : Env :=
  {| OPENAI_API_KEY := Some "sk-openai";
     OPENROUTER_API_KEY := Some "sk-openrouter";
     UPLOADS_DIR := "/app/uploads";
     path_join := fun dir file => dir +:+ "/" +:+ file;
     axios_post := fun _ _ _ => inr (Scenario.imageReply "aGk=");
     axios_get := Reference.host_down;
     pool_execute := Reference.pool_ok 7;
     fs_writeFile := fun _ _ _ => None;
     fs_unlink := fun _ path =>
       if String.eqb path "/app/uploads/stuck.png"
       then Some (mkError "Error" "EBUSY: resource busy or locked, unlink" None false)
       else None;
     Date_now := fun _ => Scenario.clock;
     Math_random_tag := fun _ => "k3x9q";
     JSON_parse := Reference.parse_json;
     Buffer_from_base64 := Reference.from_base64;
     Buffer_toString_base64 := Reference.base64_encode |}.

(** A manager that tracks three files: one stuck, one deletable, one that is
    gone already. *)
Definition threeTracked : World :=
  mkWorld true
    (<["/app/uploads/stuck.png" := [Byte.x01]]>
       (<["/app/uploads/ref_1.png" := [Byte.x02]]> ∅))
    [["/app/uploads/stuck.png"; "/app/uploads/ref_1.png"; "/app/uploads/ref_2.png"]]
    [].

(** A manager that tracks one file twice. *)
Definition trackedTwice : World :=
  mkWorld true (<["/app/uploads/ref_1.png" := [Byte.x02]]> ∅)
    [["/app/uploads/ref_1.png"; "/app/uploads/ref_1.png"]] [].

(** Three reference images: a data URL, a text without a comma, and no
    image at all. *)
Definition mixedReferences : list JsVal :=
  [JObj [("id", JNum 1); ("image_data", JStr "data:image/png;base64,aGk=")];
   JObj [("id", JNum 2); ("image_data", JStr "aGk=")];
   JNull].

(** The reference image of [mixedReferences] that carries a payload, and the
    same reference without its image. *)
Definition pictured : list JsVal :=
  [JObj [("id", JNum 1); ("image_data", JStr "data:image/png;base64,aGk=")]].
Definition unpictured : list JsVal := [JObj [("id", JNum 1)]].


(** A process in which one manager has been made and tracks nothing. *)
Definition freshManager : World := mkWorld true ∅ [[]] [].

(** dall-e-3 replies with the address of the image; the host serves the two
    bytes [hi]. *)
Definition byAddress : Env :=
  Reference.env (fun _ _ _ => inr (Scenario.urlReply "https://images.example/a.png"))
    (fun _ _ => inr [Byte.x68; Byte.x69])
    (Reference.pool_ok 7) Scenario.clock.

(** dall-e-3 replies with the address of the image; the host cannot be
    reached. *)
Definition unreachableHost : Env :=
  Scenario.process (fun _ _ _ => inr (Scenario.urlReply "https://images.example/a.png")).

(** A process with no key for the image provider. *)
Definition keyless : Env :=
  {| OPENAI_API_KEY := None;
     OPENROUTER_API_KEY := Some "sk-openrouter";
     UPLOADS_DIR := "/app/uploads";
     path_join := fun dir file => dir +:+ "/" +:+ file;
     axios_post := fun _ _ _ => inr (Scenario.imageReply "aGk=");
     axios_get := Reference.host_down;
     pool_execute := Reference.pool_ok 7;
     fs_writeFile := fun _ _ _ => None;
     fs_unlink := fun _ _ => None;
     Date_now := fun _ => Scenario.clock;
     Math_random_tag := fun _ => "k3x9q";
     JSON_parse := Reference.parse_json;
     Buffer_from_base64 := Reference.from_base64;
     Buffer_toString_base64 := Reference.base64_encode |}.

(** A disk that takes no write. *)
Definition fullDisk : Env :=
  {| OPENAI_API_KEY := Some "sk-openai";
     OPENROUTER_API_KEY := Some "sk-openrouter";
     UPLOADS_DIR := "/app/uploads";
     path_join := fun dir file => dir +:+ "/" +:+ file;
     axios_post := fun _ _ _ => inr (Scenario.imageReply "aGk=");
     axios_get := Reference.host_down;
     pool_execute := Reference.pool_ok 7;
     fs_writeFile := fun _ _ _ =>
       Some (mkError "Error" "ENOSPC: no space left on device, write" None false);
     fs_unlink := fun _ _ => None;
     Date_now := fun _ => Scenario.clock;
     Math_random_tag := fun _ => "k3x9q";
     JSON_parse := Reference.parse_json;
     Buffer_from_base64 := Reference.from_base64;
     Buffer_toString_base64 := Reference.base64_encode |}.

(** A prompt of [n] letters. *)
Fixpoint letters (n : nat) : string :=
  match n with
  | O => EmptyString
  | S n' => String "a" (letters n')
  end.

(** A JSON text written with ['] for the double quote and [~] for a literal
    newline. *)
Fixpoint json (s : string) : string :=
  match s with
  | EmptyString => EmptyString
  | String c s' =>
      String (if Ascii.eqb c "'" then JsString.dquote
              else if Ascii.eqb c "~" then JsString.LF
              else c) (json s')
  end.

(** Arguments that end in a comma too many. *)
Definition trailingComma : string := json "{'summary':'a','fullPrompt':'b',}".

(** Arguments with a literal newline inside the summary, which also holds
    two escaped quotes: the summary reads [a], newline, backslash-quote, [b],
    backslash-quote. *)
Definition quotedAfterNewline : string := json "{'summary':'a~\'b\'','fullPrompt':'c'}".

(** Arguments with a literal newline inside the summary, which ends in an
    escaped backslash: the summary reads [a], newline, [b], backslash,
    backslash. *)
Definition backslashAfterNewline : string := json "{'summary':'a~b\\','fullPrompt':'c'}".

(** The reply of the chat provider that carries one tool call with the given
    arguments. *)
Definition toolCallReply (arguments : JsVal) : Response :=
  mkResponse 200
    (JObj [("choices",
            JArr [JObj [("message",
                         JObj [("role", JStr "assistant");
                               ("tool_calls",
                                JArr [JObj [("type", JStr "function");
                                            ("function",
                                             JObj [("name", JStr "savePaintingIdea");
                                                   ("arguments", arguments)])]])])]])]).

(** A chat provider that hands the arguments of its tool call over as an
    object, not as the text of one. *)
Definition parsedArguments : Env :=
  Scenario.process
    (fun _ _ _ =>
       inr (toolCallReply
              (JObj [("summary", JStr "A barn at dusk");
                     ("fullPrompt", JStr "Paint a red barn")]))).

(** The provider answers with a well-formed tool call; the pool is down. *)
Definition painterWithoutPool : Env :=
  Reference.env
    (fun _ _ _ =>
       inr (toolCallReply
              (JStr (json "{'summary':'A barn at dusk','fullPrompt':'Paint a red barn'}"))))
    Reference.host_down Reference.pool_down Scenario.clock.

(** The provider answers with a well-formed tool call; the pool takes the
    idea and returns no row header. *)
Definition painterWithoutHeader : Env :=
  Reference.env
    (fun _ _ _ =>
       inr (toolCallReply
              (JStr (json "{'summary':'A barn at dusk','fullPrompt':'Paint a red barn'}"))))
    Reference.host_down (fun _ _ _ => inr (JArr [])) Scenario.clock.

(** Five earlier ideas; the first is no idea at all. *)
Definition fiveIdeas : list JsVal :=
  [JNull;
   JObj [("summary", JStr "A storm at sea")];
   JObj [("summary", JStr "A barn at dusk")];
   JObj [("summary", JStr "A field in snow")];
   JObj [("summary", JStr "A bridge in fog")]].

(** A chat provider that answers every request with a well-formed tool
    call. *)
Definition painter : Env :=
  Scenario.process
    (fun _ _ _ =>
       inr (toolCallReply
              (JStr (json "{'summary':'A barn at dusk','fullPrompt':'Paint a red barn'}")))).

(** * Properties *)

(** ** Numbers and property names *)

(** How numbers print: in full up to [2^53]; above it by the shortest digits
    that tell the double from its neighbours, with zeros after them below
    [10^21] and an exponent from there on. *)
Example numbers_as_text :
  map JsString.of_Z
    [0; 42; -7; 2 ^ 53; 2 ^ 53 + 1; 2 ^ 60; 10 ^ 21; 10 ^ 21 + 131072; 2 ^ 70;
     123456789012345678901234567890; - 10 ^ 22; 2 ^ 1024]%Z
  = ["0"; "42"; "-7"; "9007199254740992"; "9007199254740992"; "1152921504606847000";
     "1e+21"; "1.0000000000000001e+21"; "1.1805916207174113e+21";
     "1.2345678901234568e+29"; "-1e+22"; "Infinity"].
Proof. vm_compute. reflexivity. Qed.

(** The order of the properties of [{...{status}, ...fields}]: the array
    indices first and in ascending order, then the other names as they were
    set; a name that is set again keeps its place. *)
Example properties_in_order :
  map fst (Js.spread [("status", JStr "failed")]
             [("b", JNum 1); ("2", JNum 2); ("1", JNum 3); ("status", JStr "completed");
              ("10", JNum 4); ("01", JNum 5); ("b", JNum 6)])
  = ["1"; "2"; "10"; "status"; "b"; "01"].
Proof. vm_compute. reflexivity. Qed.

(** ** The monad *)

Lemma bind_return {A B} (m : M A) (k : A -> M B) w a w' :
  m w = (Return a, w') -> bind m k w = k a w'.
Proof. intros H. unfold bind. now rewrite H. Qed.

Lemma bind_throw {A B} (m : M A) (k : A -> M B) w e w' :
  m w = (Throw e, w') -> bind m k w = (Throw e, w').
Proof. intros H. unfold bind. now rewrite H. Qed.

Lemma try_catch_return {A} (m : M A) h w a w' :
  m w = (Return a, w') -> try_catch m h w = (Return a, w').
Proof. intros H. unfold try_catch. now rewrite H. Qed.

Lemma try_catch_throw {A} (m : M A) h w e w' :
  m w = (Throw e, w') -> try_catch m h w = h e w'.
Proof. intros H. unfold try_catch. now rewrite H. Qed.

(** [finally] runs on both exits of the body. *)
Lemma try_finally_runs {A} (body : M A) (final : M unit) w r w' :
  body w = (r, w') ->
  try_finally body final w =
    match final w' with
    | (Return _, w'') => (r, w'')
    | (Throw e, w'') => (Throw e, w'')
    end.
Proof. intros H. unfold try_finally. now rewrite H. Qed.

Lemma world_eta w :
  mkWorld (apiKeyValidated w) (files w) (managers w) (trace w) = w.
Proof. now destruct w. Qed.

Lemma keeps_ret {A} (a : A) : keeps (ret a).
Proof. intros w. split; reflexivity. Qed.

Lemma keeps_throw {A} e : keeps (@throw A e).
Proof. intros w. split; reflexivity. Qed.

Lemma keeps_lift {A} (o : Outcome A) : keeps (lift o).
Proof. intros w. split; reflexivity. Qed.

Lemma keeps_bind {A B} (m : M A) (k : A -> M B) :
  keeps m -> (forall a, keeps (k a)) -> keeps (bind m k).
Proof.
  intros Hm Hk w. unfold bind. specialize (Hm w).
  destruct (m w) as [[a|e] w1]; simpl in *.
  - destruct (Hk a w1) as [H1 H2]. destruct Hm as [H3 H4]. split; congruence.
  - exact Hm.
Qed.

Lemma keeps_try_catch {A} (m : M A) h :
  keeps m -> (forall e, keeps (h e)) -> keeps (try_catch m h).
Proof.
  intros Hm Hh w. unfold try_catch. specialize (Hm w).
  destruct (m w) as [[a|e] w1]; simpl in *.
  - exact Hm.
  - destruct (Hh e w1) as [H1 H2]. destruct Hm as [H3 H4]. split; congruence.
Qed.

Section CollaboratorFacts.

Variable env : Env.

Lemma keeps_post url body : keeps (post env url body).
Proof. intros w. split; reflexivity. Qed.

Lemma keeps_get_bytes url : keeps (get_bytes env url).
Proof. intros w. split; reflexivity. Qed.

Lemma keeps_execute sql values : keeps (execute env sql values).
Proof. intros w. split; reflexivity. Qed.

Lemma keeps_writeFile path content : keeps (writeFile env path content).
Proof. intros w. unfold writeFile. now destruct (fs_writeFile env _ _ _). Qed.

Lemma keeps_unlink path : keeps (unlink env path).
Proof. intros w. unfold unlink. now destruct (fs_unlink env _ _). Qed.

Lemma keeps_now : keeps (now env).
Proof. intros w. split; reflexivity. Qed.

Lemma keeps_existsSync path : keeps (existsSync path).
Proof. intros w. split; reflexivity. Qed.

End CollaboratorFacts.

Create HintDb keeps.

#[export] Hint Resolve keeps_ret keeps_throw keeps_lift keeps_post keeps_get_bytes
  keeps_execute keeps_writeFile keeps_unlink keeps_now keeps_existsSync : keeps.

(** Splits a goal [keeps m] along the structure of [m]. *)
Ltac keeps_step :=
  match goal with
  | |- keeps (bind _ _) => apply keeps_bind; [ | intros ? ]
  | |- keeps (try_catch _ _) => apply keeps_try_catch; [ | intros ? ]
  | |- keeps (if ?b then _ else _) => destruct b
  | |- keeps (match ?x with _ => _ end) => destruct x
  | |- keeps _ => solve [ auto with keeps ]
  end.

Ltac keeps_all := repeat keeps_step.

(** ** openAIService: the object store and the module flag *)

Section ImageFacts.

Variable env : Env.

Lemma keeps_updatePaintingStatus ideaId status fields :
  keeps (updatePaintingStatus env ideaId status fields).
Proof. unfold updatePaintingStatus. keeps_all. Qed.

Lemma keeps_makeGenerationRequest prompt : keeps (makeGenerationRequest env prompt).
Proof. unfold makeGenerationRequest, openaiClient_post. keeps_all. Qed.

Lemma keeps_makeDalle2GenerationRequest prompt :
  keeps (makeDalle2GenerationRequest env prompt).
Proof. unfold makeDalle2GenerationRequest, openaiClient_post. keeps_all. Qed.

Lemma keeps_requestWith model hasReferences prompt :
  keeps (requestWith env model hasReferences prompt).
Proof.
  unfold requestWith.
  destruct hasReferences, (String.eqb model "dall-e-3");
    auto using keeps_makeGenerationRequest, keeps_makeDalle2GenerationRequest.
Qed.

Lemma keeps_tryModels models hasReferences prompt lastError :
  keeps (tryModels env models hasReferences prompt lastError).
Proof.
  revert lastError. induction models as [|model rest IH]; intros lastError w.
  - split; reflexivity.
  - simpl. pose proof (keeps_requestWith model hasReferences prompt w) as Hk.
    destruct (requestWith env model hasReferences prompt w) as [[r|e] w1]; simpl in *.
    + exact Hk.
    + destruct (isClientError e); simpl; [exact Hk|].
      destruct (IH (Some e) w1) as [H1 H2]. destruct Hk as [H3 H4]. split; congruence.
Qed.

Lemma keeps_extractImageData response hasReferences :
  keeps (extractImageData env response hasReferences).
Proof. unfold extractImageData. keeps_all. Qed.

Lemma keeps_saveImageFile ideaId imageData : keeps (saveImageFile env ideaId imageData).
Proof. unfold saveImageFile. keeps_all. Qed.

Lemma keeps_generateImage_finish ideaId references response :
  keeps (generateImage_finish env ideaId references response).
Proof.
  unfold generateImage_finish.
  apply keeps_bind; [apply keeps_extractImageData|intros imageData].
  apply keeps_bind; [apply keeps_saveImageFile|intros fileName].
  apply keeps_bind; [auto with keeps|intros ids].
  apply keeps_bind; [apply keeps_updatePaintingStatus|intros _].
  auto with keeps.
Qed.

Lemma keeps_generateImage_try ideaId prompt references :
  keeps (generateImage_try env ideaId prompt references).
Proof.
  unfold generateImage_try.
  apply keeps_bind; [apply keeps_updatePaintingStatus|intros _].
  apply keeps_bind; [apply keeps_tryModels|intros [response lastError]].
  apply keeps_bind; [simpl; destruct response; auto with keeps|intros r].
  apply keeps_generateImage_finish.
Qed.

Lemma keeps_generateImage_catch ideaId error :
  keeps (generateImage_catch env ideaId error).
Proof.
  unfold generateImage_catch.
  apply keeps_bind; [|intros _; auto with keeps].
  apply keeps_try_catch; [apply keeps_updatePaintingStatus|intros _; auto with keeps].
Qed.

(** *** validateInputs *)

Lemma length_zero_iff_empty s : (String.length s =? 0)%nat = true <-> s = EmptyString.
Proof. destruct s; simpl; split; intros H; congruence. Qed.

Lemma validateInputs_accepts ideaId prompt w :
  validInputs ideaId prompt -> keyAccepted env w ->
  validateInputs env ideaId prompt w = (Return tt, set_apiKeyValidated true w).
Proof.
  intros [Hid (s & -> & Hs)] Hkey.
  assert (Ht : Js.truthy (JStr s) = true).
  { simpl. destruct s; [now elim Hs|reflexivity]. }
  assert (Hlen : (String.length (JsString.trim s) =? 0)%nat = false).
  { destruct (JsString.trim s); [now elim Hs|reflexivity]. }
  unfold validateInputs, bind, lift, call_trim, ret, throw.
  rewrite Hid, Ht. cbn. rewrite Hlen.
  destruct Hkey as [Hk|Hk]; rewrite Hk; cbn; [reflexivity|].
  now rewrite andb_false_r.
Qed.

(** [validateInputs] either throws and changes nothing, or sets the flag and
    changes nothing else. *)
Lemma validateInputs_cases ideaId prompt w :
  (exists e, validateInputs env ideaId prompt w = (Throw e, w)) \/
  (validateInputs env ideaId prompt w = (Return tt, set_apiKeyValidated true w) /\
   validInputs ideaId prompt /\ keyAccepted env w).
Proof.
  unfold validateInputs, bind, lift, call_trim, ret, throw.
  destruct (Js.truthy ideaId) eqn:Hid; cbn; [|left; eexists; reflexivity].
  destruct (Js.truthy prompt) eqn:Hp; cbn.
  2:{ left. eexists. reflexivity. }
  destruct prompt as [| |b|n|s|l|ps]; try discriminate Hp;
    try (left; eexists; reflexivity).
  destruct (String.length (JsString.trim s) =? 0)%nat eqn:Hlen.
  { left. eexists. reflexivity. }
  assert (Hv : validInputs ideaId (JStr s)).
  { split; [exact Hid|]. exists s. split; [reflexivity|].
    intros Hs. rewrite Hs in Hlen. discriminate. }
  destruct (apiKeyValidated w) eqn:Hflag; cbn.
  - right. split; [reflexivity|]. split; [exact Hv|]. now left.
  - destruct (key_present (OPENAI_API_KEY env)) eqn:Hk; cbn.
    + right. split; [reflexivity|]. split; [exact Hv|]. now right.
    + left. eexists. reflexivity.
Qed.

End ImageFacts.

(** ** TempFileManager.cleanup *)

Section CleanupFacts.

Variable env : Env.

(** The files [cleanup] finds of those it tracks. *)
Lemma cleanup_found_run paths w :
  cleanup_found paths w =
    (Return (List.filter (fun p => bool_decide (is_Some (files w !! p))) paths), w).
Proof.
  induction paths as [|p rest IH]; [reflexivity|].
  cbn [cleanup_found List.filter]. unfold bind, existsSync, ret. rewrite IH.
  reflexivity.
Qed.

Lemma elem_of_found w paths q :
  q ∈ List.filter (fun p => bool_decide (is_Some (files w !! p))) paths <->
  q ∈ paths /\ is_Some (files w !! q).
Proof.
  induction paths as [|p rest IH]; cbn [List.filter].
  - split; [intros H; inversion H|intros [H _]; inversion H].
  - destruct (bool_decide (is_Some (files w !! p))) eqn:Hp.
    + apply bool_decide_eq_true in Hp. rewrite !elem_of_cons, IH.
      split; [intros [->|[? ?]]; auto|intros [[->|?] ?]; auto].
    + apply bool_decide_eq_false in Hp. rewrite elem_of_cons, IH.
      split; [intros [? ?]; auto|intros [[->|?] ?]; [contradiction|auto]].
Qed.

(** One deletion of [cleanup]: it returns, whatever [unlink] does. *)
Lemma cleanup_one_run filePath w :
  cleanup_one env filePath w =
    match fs_unlink env (trace w) filePath with
    | None =>
        (Return tt,
         log_event (EvUnlink filePath None) (set_files (delete filePath (files w)) w))
    | Some e => (Return tt, log_event (EvUnlink filePath (Some e)) w)
    end.
Proof.
  unfold cleanup_one, try_catch, unlink, ret.
  now destruct (fs_unlink env (trace w) filePath).
Qed.

Lemma cleanup_deletions_sweeps found w :
  exists w' evs, cleanup_deletions env found w = (Return tt, w') /\ Swept found w w' evs.
Proof.
  revert w. induction found as [|p rest IH]; intros w.
  - exists w, []. split; [reflexivity|].
    constructor; auto.
    + now rewrite app_nil_r.
    + intros ev Hev. inversion Hev.
    + intros q Hq. inversion Hq.
  - simpl. unfold bind at 1. rewrite cleanup_one_run.
    destruct (fs_unlink env (trace w) p) as [e|] eqn:Hu.
    + (* the deletion failed: the error is swallowed, the rest goes on *)
      destruct (IH (log_event (EvUnlink p (Some e)) w)) as (w' & evs & Hrun & S).
      exists w', (EvUnlink p (Some e) :: evs). split; [exact Hrun|].
      destruct S as [St Sm Sf Sn Su So Se]. simpl in *.
      constructor; auto.
      * rewrite St. now rewrite <- app_assoc.
      * intros q Hq. apply Su. intros Hin. apply Hq. now right.
      * intros ev Hev. apply elem_of_cons in Hev as [->|Hev].
        -- exists p, (Some e). split; [reflexivity|]. now left.
        -- destruct (So ev Hev) as (q & res & -> & Hq).
           exists q, res. split; [reflexivity|]. now right.
      * intros q Hq. apply elem_of_cons in Hq as [->|Hq].
        -- right. exists e. now left.
        -- destruct (Se q Hq) as [Hgone|[e' He']]; [now left|].
           right. exists e'. now right.
    + (* the file is deleted *)
      destruct (IH (log_event (EvUnlink p None) (set_files (delete p (files w)) w)))
        as (w' & evs & Hrun & S).
      exists w', (EvUnlink p None :: evs). split; [exact Hrun|].
      destruct S as [St Sm Sf Sn Su So Se]. simpl in *.
      constructor; auto.
      * rewrite St. now rewrite <- app_assoc.
      * intros q Hq. apply Sn.
        destruct (decide (p = q)) as [->|Hne];
          [apply lookup_delete_eq|now rewrite lookup_delete_ne].
      * intros q Hq. rewrite Su by (intros Hin; apply Hq; now right).
        apply lookup_delete_ne. intros ->. apply Hq. now left.
      * intros ev Hev. apply elem_of_cons in Hev as [->|Hev].
        -- exists p, None. split; [reflexivity|]. now left.
        -- destruct (So ev Hev) as (q & res & -> & Hq).
           exists q, res. split; [reflexivity|]. now right.
      * intros q Hq. apply elem_of_cons in Hq as [->|Hq].
        -- left. apply Sn. apply lookup_delete_eq.
        -- destruct (Se q Hq) as [Hgone|[e' He']]; [now left|].
           right. exists e'. now right.
Qed.

Lemma cleanup_all_run paths w :
  cleanup_all env paths w =
    cleanup_deletions env
      (List.filter (fun p => bool_decide (is_Some (files w !! p))) paths) w.
Proof. unfold cleanup_all, bind. now rewrite cleanup_found_run. Qed.

Lemma cleanup_all_sweeps paths w :
  exists w' evs, cleanup_all env paths w = (Return tt, w') /\ Swept paths w w' evs.
Proof.
  rewrite cleanup_all_run.
  destruct (cleanup_deletions_sweeps
              (List.filter (fun p => bool_decide (is_Some (files w !! p))) paths) w)
    as (w' & evs & Hrun & S).
  exists w', evs. split; [exact Hrun|].
  destruct S as [St Sm Sf Sn Su So Se].
  constructor; auto.
  - intros q Hq. apply Su. rewrite elem_of_found. intros [Hin _]. now apply Hq.
  - intros ev Hev. destruct (So ev Hev) as (q & res & -> & Hq).
    exists q, res. split; [reflexivity|]. now apply elem_of_found in Hq as [Hq _].
  - intros q Hq. destruct (files w !! q) as [content|] eqn:Hthere.
    + apply Se. apply elem_of_found. split; [exact Hq|]. rewrite Hthere. eauto.
    + left. now apply Sn.
Qed.

(** On a steady disk the files left by the deletions are known one by one:
    a path the disk lets go is gone, every other path is as it was. *)
Lemma cleanup_deletions_disk found w q :
  steadyDisk env ->
  files (snd (cleanup_deletions env found w)) !! q =
    if bool_decide (q ∈ found) && deletable env q then None else files w !! q.
Proof.
  intros Hsteady. revert w.
  induction found as [|p rest IH]; intros w; [reflexivity|].
  cbn [cleanup_deletions]. unfold bind at 1. rewrite cleanup_one_run.
  assert (Hdel : forall tr, fs_unlink env tr p =
                            if deletable env p then None else fs_unlink env tr p).
  { intros tr. unfold deletable. rewrite (Hsteady [] tr).
    now destruct (fs_unlink env tr p). }
  assert (Hstep : forall w1,
             (forall x, files w1 !! x =
                        if bool_decide (x = p) && deletable env p
                        then None else files w !! x) ->
             files (snd (cleanup_deletions env rest w1)) !! q =
               if bool_decide (q ∈ p :: rest) && deletable env q
               then None else files w !! q).
  { intros w1 Hw1. rewrite IH, Hw1.
    destruct (decide (q = p)) as [->|Hne].
    - rewrite (bool_decide_true (p = p)) by reflexivity.
      rewrite (bool_decide_true (p ∈ p :: rest)) by (now left).
      destruct (deletable env p); cbn [andb].
      + now destruct (bool_decide (p ∈ rest)).
      + now rewrite andb_false_r.
    - rewrite (bool_decide_false (q = p)) by exact Hne. cbn [andb].
      destruct (bool_decide (q ∈ rest)) eqn:Hin.
      + apply bool_decide_eq_true in Hin.
        rewrite (bool_decide_true (q ∈ p :: rest)) by (now right). reflexivity.
      + apply bool_decide_eq_false in Hin.
        rewrite (bool_decide_false (q ∈ p :: rest)); [reflexivity|].
        intros Hq. apply elem_of_cons in Hq as [?|?]; contradiction. }
  rewrite (Hdel (trace w)). destruct (deletable env p) eqn:Hd.
  - apply Hstep. intros x. cbn [files log_event set_files].
    destruct (decide (x = p)) as [->|Hne].
    + rewrite bool_decide_true by reflexivity. apply lookup_delete_eq.
    + rewrite bool_decide_false by exact Hne. now apply lookup_delete_ne.
  - destruct (fs_unlink env (trace w) p) as [e|] eqn:Hu.
    + apply Hstep. intros x. cbn [files log_event]. now rewrite andb_false_r.
    + exfalso. unfold deletable in Hd. rewrite (Hsteady [] (trace w)), Hu in Hd.
      discriminate.
Qed.

(** On a steady disk the files left by the callbacks are known one by one:
    a tracked path the disk lets go is gone, every other path is as it was. *)
Lemma cleanup_all_disk paths w q :
  steadyDisk env ->
  files (snd (cleanup_all env paths w)) !! q =
    if bool_decide (q ∈ paths) && deletable env q then None else files w !! q.
Proof.
  intros Hsteady. rewrite cleanup_all_run, cleanup_deletions_disk by exact Hsteady.
  destruct (bool_decide (q ∈ List.filter _ paths)) eqn:Hin.
  - apply bool_decide_eq_true in Hin. apply elem_of_found in Hin as [Hin _].
    now rewrite (bool_decide_true (q ∈ paths)) by exact Hin.
  - apply bool_decide_eq_false in Hin. cbn [andb].
    destruct (bool_decide (q ∈ paths)) eqn:Hq; [|reflexivity].
    apply bool_decide_eq_true in Hq.
    destruct (files w !! q) as [content|] eqn:Hthere.
    + exfalso. apply Hin. apply elem_of_found. split; [exact Hq|]. rewrite Hthere. eauto.
    + now destruct (deletable env q).
Qed.

(** So the order in which the deletions are taken does not matter. *)
Lemma cleanup_all_any_order paths paths' w :
  steadyDisk env -> paths ≡ₚ paths' ->
  files (snd (cleanup_all env paths' w)) = files (snd (cleanup_all env paths w)).
Proof.
  intros Hsteady Hperm. apply map_eq. intros q.
  rewrite !cleanup_all_disk by exact Hsteady.
  destruct (bool_decide (q ∈ paths)) eqn:Hin.
  - apply bool_decide_eq_true in Hin.
    rewrite bool_decide_true; [reflexivity|]. now rewrite <- Hperm.
  - apply bool_decide_eq_false in Hin.
    rewrite bool_decide_false; [reflexivity|]. now rewrite <- Hperm.
Qed.

(** A manager that tracks nothing: [cleanup] changes nothing. *)
Lemma cleanup_nothing this w :
  managers w !! this = Some [] -> cleanup env this w = (Return tt, w).
Proof.
  intros H. unfold cleanup, bind, tempFiles. rewrite H. simpl.
  unfold set_managers. rewrite list_insert_id by exact H.
  now rewrite world_eta.
Qed.

End CleanupFacts.

(** ** generateImage: validation, scope of the manager *)

Section GenerateImageFacts.

Variable env : Env.

Lemma keeps_guarded ideaId prompt references : keeps (guarded env ideaId prompt references).
Proof.
  apply keeps_try_catch;
    [apply keeps_generateImage_try|intros e; apply keeps_generateImage_catch].
Qed.

Lemma generateImage_rejected ideaId prompt references w e :
  validateInputs env ideaId prompt w = (Throw e, w) ->
  generateImage env ideaId prompt references w = (Throw e, w).
Proof. intros H. unfold generateImage. now rewrite (bind_throw _ _ _ _ _ H). Qed.

(** Past validation: the outcome of the call is the outcome of the guarded
    block, at the world where [cleanup] ran on it; and since nothing was
    tracked, that world is the one the guarded block ended in. *)
Lemma generateImage_accepted ideaId prompt references w :
  validInputs ideaId prompt -> keyAccepted env w ->
  generateImage env ideaId prompt references w =
    guarded env ideaId prompt references (pipelineStart w)
  /\ exists r wb,
       guarded env ideaId prompt references (pipelineStart w) = (r, wb) /\
       managers wb = managers w ++ [[]] /\
       cleanup env (length (managers w)) wb = (Return tt, wb).
Proof.
  intros Hv Hk. unfold generateImage.
  rewrite (bind_return _ _ _ _ _ (validateInputs_accepts env _ _ _ Hv Hk)).
  unfold bind, new_TempFileManager. cbn [managers set_apiKeyValidated].
  fold (pipelineStart w). fold (guarded env ideaId prompt references).
  destruct (guarded env ideaId prompt references (pipelineStart w)) as [r wb] eqn:Hg.
  destruct (keeps_guarded ideaId prompt references (pipelineStart w)) as [Hm _].
  rewrite Hg in Hm. cbn in Hm.
  assert (Hc : cleanup env (length (managers w)) wb = (Return tt, wb)).
  { apply cleanup_nothing. rewrite Hm. apply list_lookup_middle. reflexivity. }
  split.
  - rewrite (try_finally_runs _ _ _ _ _ Hg). now rewrite Hc.
  - exists r, wb. auto.
Qed.

End GenerateImageFacts.

(** ** C4: cleanup *)

(** C4.  [cleanup()] of a manager returns normally whatever the deletions do;
    afterwards the manager tracks nothing; the only outside calls it made are
    deletions of tracked paths; every tracked path is then either absent from
    the disk or had its deletion attempted and refused (a refusal that did not
    stop the others); untracked files are untouched.  And [generateImage]
    always ends through [cleanup]: a call that fails validation creates no
    manager, and every other call ends, on success and on failure alike, in the
    world where [cleanup] ran at the exit of its try/catch, with the manager it
    created tracking nothing -- at no point did it track a file. *)
Theorem C4_cleanup_leaves_nothing_tracked
    (env : Env) (this : nat) (w : World)
    (ideaId prompt : JsVal) (references : list JsVal) (w0 : World) :
  this < length (managers w) ->
  (exists w' evs,
      OpenAIService.cleanup env this w = (Return tt, w') /\
      managers w' = <[this := []]> (managers w) /\
      OpenAIService.tempFiles this w' = [] /\
      trace w' = trace w ++ evs /\
      (forall ev, ev ∈ evs ->
         exists q res, ev = EvUnlink q res /\ q ∈ OpenAIService.tempFiles this w) /\
      (forall q, q ∈ OpenAIService.tempFiles this w ->
         files w' !! q = None \/ exists e, EvUnlink q (Some e) ∈ evs) /\
      (forall q, q ∉ OpenAIService.tempFiles this w -> files w' !! q = files w !! q))
  /\
  (exists r w1,
      OpenAIService.generateImage env ideaId prompt references w0 = (r, w1) /\
      ((managers w1 = managers w0 /\ exists e, r = Throw e) \/
       (managers w1 = managers w0 ++ [[]] /\
        OpenAIService.tempFiles (length (managers w0)) w1 = [] /\
        exists wb,
          guarded env ideaId prompt references (pipelineStart w0) = (r, wb) /\
          managers wb = managers w0 ++ [[]] /\
          OpenAIService.cleanup env (length (managers w0)) wb = (Return tt, w1)))).
Proof.
  intros Hthis. split.
  - destruct (cleanup_all_sweeps env (OpenAIService.tempFiles this w) w)
      as (w1 & evs & Hrun & S).
    destruct S as [St Sm Sf Sn Su So Se].
    exists (set_managers (<[this := []]> (managers w1)) w1), evs.
    split; [|split; [|split; [|split; [|split; [|split]]]]]; cbn; auto.
    + unfold OpenAIService.cleanup, bind. cbn. now rewrite Hrun.
    + now rewrite Sm.
    + unfold OpenAIService.tempFiles. cbn.
      rewrite list_lookup_insert_eq by (rewrite Sm; exact Hthis). reflexivity.
  - destruct (validateInputs_cases env ideaId prompt w0) as [[e He]|(Hok & Hv & Hk)].
    + exists (Throw e), w0. split; [now apply generateImage_rejected|].
      left. split; [reflexivity|]. now exists e.
    + destruct (generateImage_accepted env ideaId prompt references w0 Hv Hk)
        as (Hrun & r & wb & Hg & Hm & Hc).
      exists r, wb. split; [now rewrite Hrun|].
      right. split; [exact Hm|]. split.
      * unfold OpenAIService.tempFiles. rewrite Hm.
        rewrite list_lookup_middle by reflexivity. reflexivity.
      * exists wb. auto.
Qed.

(** ** The steps of the pipeline, as equations *)

Section PipelineFacts.

Variable env : Env.

Lemma truthy_defined v : Js.truthy v = true -> Js.is_undefined v = false.
Proof. now destruct v. Qed.

Lemma set_prop_new key v props :
  Js.has_prop key props = false -> Js.array_index key = None ->
  Js.set_prop key v props = props ++ [(key, v)].
Proof. intros Hnew Hkey. unfold Js.set_prop. now rewrite Hnew, Hkey. Qed.

Lemma processing_run ideaId w :
  Js.truthy ideaId = true ->
  updatePaintingStatus env ideaId (JStr "processing") [] w =
    (match pool_execute env (trace w) sqlProcessing (processingValues ideaId) with
     | inl e => Throw e
     | inr _ => Return tt
     end, executed env sqlProcessing (processingValues ideaId) w).
Proof.
  intros Hid. unfold updatePaintingStatus. cbn [Js.spread fold_left map snd app existsb].
  rewrite (truthy_defined _ Hid). cbn [Js.is_undefined orb].
  unfold bind, execute, ret, executed.
  change (pool_execute env (trace w) _ _)
    with (pool_execute env (trace w) sqlProcessing (processingValues ideaId)).
  now destruct (pool_execute env (trace w) sqlProcessing (processingValues ideaId)).
Qed.

Lemma failed_run ideaId error w :
  Js.truthy ideaId = true ->
  generateImage_catch env ideaId error w =
    (Throw error, executed env sqlFailed (failedValues ideaId error) w).
Proof.
  intros Hid. unfold generateImage_catch, updatePaintingStatus.
  unfold Js.spread. cbn [fold_left fst snd]. rewrite set_prop_new by reflexivity.
  cbn [map fst snd app existsb].
  rewrite (truthy_defined _ Hid). cbn [Js.is_undefined orb].
  unfold bind, try_catch, execute, ret, throw, executed.
  change (pool_execute env (trace w) _ _)
    with (pool_execute env (trace w) sqlFailed (failedValues ideaId error)).
  now destruct (pool_execute env (trace w) sqlFailed (failedValues ideaId error)).
Qed.

Lemma makeGenerationRequest_run prompt w :
  makeGenerationRequest env (JStr prompt) w =
    (match axios_post env (trace w) imagesURL (dalle3Body prompt) with
     | inl e => Throw (generationError e)
     | inr r => Return r
     end, posted env (dalle3Body prompt) w).
Proof.
  unfold makeGenerationRequest, bind, lift, call_trim, try_catch, openaiClient_post,
    post, throw, posted.
  change (axios_post env (trace w) _ _)
    with (axios_post env (trace w) imagesURL (dalle3Body prompt)).
  now destruct (axios_post env (trace w) imagesURL (dalle3Body prompt)).
Qed.

Lemma makeDalle2GenerationRequest_run prompt w :
  makeDalle2GenerationRequest env (JStr prompt) w =
    (match axios_post env (trace w) imagesURL (dalle2Body prompt) with
     | inl e => Throw e
     | inr r => Return r
     end, posted env (dalle2Body prompt) w).
Proof.
  unfold makeDalle2GenerationRequest, bind, lift, call_trim, try_catch,
    openaiClient_post, post, throw, posted.
  change (axios_post env (trace w) _ _)
    with (axios_post env (trace w) imagesURL (dalle2Body prompt)).
  now destruct (axios_post env (trace w) imagesURL (dalle2Body prompt)).
Qed.

Lemma requestWith_primary prompt references :
  requestWith env "dall-e-3" (0 <? length references)%nat (JStr prompt)
  = makeGenerationRequest env (JStr (promptSent prompt references)).
Proof. unfold requestWith, promptSent. now destruct (0 <? length references)%nat. Qed.

Lemma requestWith_secondary prompt references :
  requestWith env "dall-e-2" (0 <? length references)%nat (JStr prompt)
  = makeDalle2GenerationRequest env (JStr (promptSent prompt references)).
Proof. unfold requestWith, promptSent. now destruct (0 <? length references)%nat. Qed.

(** The loop over the two tiers. *)
Lemma tryModels_run prompt references w :
  let sent := promptSent prompt references in
  let w1 := posted env (dalle3Body sent) w in
  let w2 := posted env (dalle2Body sent) w1 in
  tryModels env models (0 <? length references)%nat (JStr prompt) None w =
    match axios_post env (trace w) imagesURL (dalle3Body sent) with
    | inr r => (Return (Some r, None), w1)
    | inl e =>
        if isClientError (generationError e)
        then (Throw (generationError e), w1)
        else
          match axios_post env (trace w1) imagesURL (dalle2Body sent) with
          | inr r => (Return (Some r, Some (generationError e)), w2)
          | inl e2 =>
              if isClientError e2
              then (Throw e2, w2)
              else (Return (None, Some e2), w2)
          end
    end.
Proof.
  intros sent w1 w2. unfold models. cbn [tryModels].
  rewrite requestWith_primary, makeGenerationRequest_run. fold sent. fold w1.
  destruct (axios_post env (trace w) imagesURL (dalle3Body sent)) as [e|r]; [|reflexivity].
  destruct (isClientError (generationError e)); [reflexivity|].
  rewrite requestWith_secondary, makeDalle2GenerationRequest_run. fold sent. fold w2.
  destruct (axios_post env (trace w1) imagesURL (dalle2Body sent)) as [e2|r]; [|reflexivity].
  now destruct (isClientError e2).
Qed.

End PipelineFacts.

(** ** Extraction and the rest of the try block *)

Section FinishFacts.

Variable env : Env.

Lemma truthy_not_nullish v : Js.truthy v = true -> Js.nullish v = false.
Proof. now destruct v. Qed.

Lemma extractImageData_run response hasReferences w :
  extractImageData env response hasReferences w =
    match firstResult response with
    | Throw _ => (Throw extractionError, w)
    | Return imageResult =>
        if Js.truthy imageResult then
          if Js.truthy (Js.prop imageResult "b64_json")
          then (Return (Js.prop imageResult "b64_json"), w)
          else if Js.truthy (Js.prop imageResult "url") then
            match axios_get env (trace w) (Js.prop imageResult "url") with
            | inr bytes =>
                (Return (JStr (Buffer_toString_base64 env bytes)),
                 log_event (EvGet (Js.prop imageResult "url") (inr bytes)) w)
            | inl e =>
                (Throw extractionError,
                 log_event (EvGet (Js.prop imageResult "url") (inl e)) w)
            end
          else (Throw extractionError, w)
        else (Throw extractionError, w)
    end.
Proof.
  unfold extractImageData, firstResult, try_catch, bind, lift, throw, ret, extractionError.
  destruct (Js.get (data response) "data") as [results|e]; [|reflexivity].
  destruct (Js.get_item results 0) as [imageResult|e]; [|reflexivity].
  destruct (Js.truthy imageResult) eqn:Ht; cbn [negb]; [|reflexivity].
  unfold Js.get. rewrite (truthy_not_nullish _ Ht).
  destruct (Js.truthy (Js.prop imageResult "b64_json")); [reflexivity|].
  destruct (Js.truthy (Js.prop imageResult "url")); [|reflexivity].
  unfold get_bytes.
  now destruct (axios_get env (trace w) (Js.prop imageResult "url")).
Qed.

(** Whatever goes wrong in the extraction, one error comes out. *)
Lemma extractImageData_throws response hasReferences w e w' :
  extractImageData env response hasReferences w = (Throw e, w') ->
  e = extractionError.
Proof.
  rewrite extractImageData_run.
  destruct (firstResult response) as [imageResult|e0]; [|congruence].
  destruct (Js.truthy imageResult); [|congruence].
  destruct (Js.truthy (Js.prop imageResult "b64_json")); [congruence|].
  destruct (Js.truthy (Js.prop imageResult "url")); [|congruence].
  destruct (axios_get env (trace w) (Js.prop imageResult "url")); congruence.
Qed.

Lemma saveImageFile_run ideaId imageData w :
  saveImageFile env ideaId imageData w =
    match Buffer_from_base64 env imageData with
    | inl e => (Throw e, w)
    | inr buffer =>
        match fs_writeFile env (trace w) (imageFilePath env ideaId w) buffer with
        | Some e =>
            (Throw e, log_event (EvWriteFile (imageFilePath env ideaId w) buffer (Some e)) w)
        | None =>
            (Return (imageFileName env ideaId w), written (imageFilePath env ideaId w) buffer w)
        end
    end.
Proof.
  unfold saveImageFile, bind, now, lift, of_sum, writeFile, ret, written.
  fold (imageFileName env ideaId w). fold (imageFilePath env ideaId w).
  destruct (Buffer_from_base64 env imageData) as [e|buffer]; [reflexivity|].
  now destruct (fs_writeFile env (trace w) (imageFilePath env ideaId w) buffer).
Qed.

Lemma usedReferenceIdsJSON_defined ids : Js.is_undefined (usedReferenceIdsJSON ids) = false.
Proof.
  unfold usedReferenceIdsJSON.
  destruct (0 <? length (List.filter _ ids))%nat; reflexivity.
Qed.

Lemma completed_run ideaId fileName imageData ids w :
  Js.truthy ideaId = true ->
  updatePaintingStatus env ideaId (JStr "completed")
    [("image_url", JStr ("uploads/" +:+ fileName));
     ("image_data", JStr ("data:image/png;base64," +:+ Js.toString imageData));
     ("used_reference_ids", usedReferenceIdsJSON ids)] w =
    let values := completedValues ideaId fileName imageData (usedReferenceIdsJSON ids) in
    (match pool_execute env (trace w) sqlCompleted values with
     | inl e => Throw e
     | inr _ => Return tt
     end, executed env sqlCompleted values w).
Proof.
  intros Hid. unfold updatePaintingStatus.
  unfold Js.spread. cbn [fold_left fst snd]. rewrite !set_prop_new by reflexivity.
  cbn [map fst snd app existsb].
  rewrite (truthy_defined _ Hid), usedReferenceIdsJSON_defined.
  cbn [Js.is_undefined orb].
  unfold bind, execute, ret, executed. cbv zeta.
  change (pool_execute env (trace w) _ _)
    with (pool_execute env (trace w) sqlCompleted
            (completedValues ideaId fileName imageData (usedReferenceIdsJSON ids))).
  now destruct (pool_execute env (trace w) sqlCompleted _).
Qed.

(** A response that the ladder accepted leads to a returned value in one way
    only: every later step worked. *)
Lemma afterLadder_returns ideaId references response w v w' :
  Js.truthy ideaId = true ->
  afterLadder env ideaId references response w = (Return v, w') ->
  exists imageData wx buffer ids r,
    extractImageData env response (0 <? length references)%nat w = (Return imageData, wx) /\
    Buffer_from_base64 env imageData = inr buffer /\
    fs_writeFile env (trace wx) (imageFilePath env ideaId wx) buffer = None /\
    referenceIdsOf references = Return ids /\
    let wy := written (imageFilePath env ideaId wx) buffer wx in
    let values := completedValues ideaId (imageFileName env ideaId wx) imageData
                    (usedReferenceIdsJSON ids) in
    pool_execute env (trace wy) sqlCompleted values = inr r /\
    v = completedResult ideaId (imageFileName env ideaId wx) /\
    w' = executed env sqlCompleted values wy.
Proof.
  intros Hid. unfold afterLadder, try_catch, generateImage_finish.
  unfold bind at 1.
  destruct (extractImageData env response (0 <? length references)%nat w)
    as [[imageData|e] wx] eqn:Hx.
  2:{ rewrite failed_run by exact Hid. discriminate. }
  unfold bind at 1. rewrite saveImageFile_run.
  destruct (Buffer_from_base64 env imageData) as [e|buffer] eqn:Hb.
  { rewrite failed_run by exact Hid. discriminate. }
  destruct (fs_writeFile env (trace wx) (imageFilePath env ideaId wx) buffer) as [e|] eqn:Hw.
  { rewrite failed_run by exact Hid. discriminate. }
  unfold bind at 1. unfold lift.
  destruct (referenceIdsOf references) as [ids|e] eqn:Hr.
  2:{ rewrite failed_run by exact Hid. discriminate. }
  unfold bind at 1. rewrite completed_run by exact Hid. cbv zeta.
  destruct (pool_execute env _ sqlCompleted _) as [e|r] eqn:Hp.
  { rewrite failed_run by exact Hid. discriminate. }
  unfold ret. intros H. injection H as <- <-.
  exists imageData, wx, buffer, ids, r. cbv zeta. repeat split; auto.
Qed.

(** The same, read forwards. *)
Lemma afterLadder_run ideaId references response w imageData wx buffer ids r :
  Js.truthy ideaId = true ->
  extractImageData env response (0 <? length references)%nat w = (Return imageData, wx) ->
  Buffer_from_base64 env imageData = inr buffer ->
  fs_writeFile env (trace wx) (imageFilePath env ideaId wx) buffer = None ->
  referenceIdsOf references = Return ids ->
  let wy := written (imageFilePath env ideaId wx) buffer wx in
  let values := completedValues ideaId (imageFileName env ideaId wx) imageData
                  (usedReferenceIdsJSON ids) in
  pool_execute env (trace wy) sqlCompleted values = inr r ->
  afterLadder env ideaId references response w =
    (Return (completedResult ideaId (imageFileName env ideaId wx)),
     executed env sqlCompleted values wy).
Proof.
  intros Hid Hx Hb Hw Hr wy values Hp.
  unfold afterLadder, try_catch, generateImage_finish.
  unfold bind at 1. rewrite Hx.
  unfold bind at 1. rewrite saveImageFile_run, Hb, Hw.
  unfold bind at 1. unfold lift. rewrite Hr.
  unfold bind at 1. rewrite completed_run by exact Hid. cbv zeta.
  fold wy. fold values. rewrite Hp. reflexivity.
Qed.

(** A failed extraction: the caller of [generateImage] gets the one error. *)
Lemma afterLadder_extraction_fails ideaId references response w e wx :
  Js.truthy ideaId = true ->
  extractImageData env response (0 <? length references)%nat w = (Throw e, wx) ->
  afterLadder env ideaId references response w =
    (Throw extractionError, executed env sqlFailed (failedValues ideaId extractionError) wx).
Proof.
  intros Hid Hx. pose proof (extractImageData_throws _ _ _ _ _ Hx) as ->.
  unfold afterLadder, try_catch, generateImage_finish.
  unfold bind at 1. rewrite Hx. now apply failed_run.
Qed.

End FinishFacts.

(** ** generateImage, step by step *)

Section LadderFacts.

Variable env : Env.

(** The guarded block: the processing update, then the ladder, then the
    rest; every error ends in the [catch]. *)
Lemma guarded_run ideaId prompt references w :
  Js.truthy ideaId = true ->
  let w1 := executed env sqlProcessing (processingValues ideaId) w in
  let sent := promptSent prompt references in
  let w2 := posted env (dalle3Body sent) w1 in
  let w3 := posted env (dalle2Body sent) w2 in
  guarded env ideaId (JStr prompt) references w =
    match pool_execute env (trace w) sqlProcessing (processingValues ideaId) with
    | inl e => (Throw e, executed env sqlFailed (failedValues ideaId e) w1)
    | inr _ =>
        match axios_post env (trace w1) imagesURL (dalle3Body sent) with
        | inr response => afterLadder env ideaId references response w2
        | inl error =>
            if isClientError (generationError error)
            then (Throw (generationError error),
                  executed env sqlFailed (failedValues ideaId (generationError error)) w2)
            else
              match axios_post env (trace w2) imagesURL (dalle2Body sent) with
              | inr response => afterLadder env ideaId references response w3
              | inl error2 =>
                  (Throw error2, executed env sqlFailed (failedValues ideaId error2) w3)
              end
        end
    end.
Proof.
  intros Hid w1 sent w2 w3.
  unfold guarded, try_catch, generateImage_try.
  unfold bind at 1. rewrite processing_run by exact Hid. fold w1.
  destruct (pool_execute env (trace w) sqlProcessing (processingValues ideaId)) as [e|r0].
  { now apply failed_run. }
  unfold bind at 1. rewrite tryModels_run. fold sent. fold w2. fold w3.
  destruct (axios_post env (trace w1) imagesURL (dalle3Body sent)) as [error|response].
  - destruct (isClientError (generationError error)).
    { now apply failed_run. }
    destruct (axios_post env (trace w2) imagesURL (dalle2Body sent)) as [error2|response].
    + destruct (isClientError error2); [now apply failed_run|].
      cbn [fst snd default]. unfold bind at 1, throw. now apply failed_run.
    + reflexivity.
  - reflexivity.
Qed.

(** A call that passes validation is its guarded block. *)
Lemma generateImage_run ideaId prompt references w :
  validInputs ideaId prompt -> keyAccepted env w ->
  generateImage env ideaId prompt references w =
    guarded env ideaId prompt references (pipelineStart w).
Proof. intros Hv Hk. now apply generateImage_accepted. Qed.

(** *** How the [catch] of [makeGenerationRequest] words the failures *)






End LadderFacts.

Lemma newEvents_app w w' evs : trace w' = trace w ++ evs -> newEvents w w' = evs.
Proof. intros H. unfold newEvents. rewrite H. apply drop_app_length. Qed.

Lemma statusWrites_app evs1 evs2 :
  statusWrites (evs1 ++ evs2) = statusWrites evs1 ++ statusWrites evs2.
Proof.
  induction evs1 as [|ev evs1 IH]; [reflexivity|].
  destruct ev as [url body res|url res|sql values res|path content res|path res];
    simpl; auto.
  destruct values as [|st values]; auto.
  destruct res as [e|r]; auto.
  destruct (String.prefix _ sql); simpl; now rewrite IH.
Qed.

Lemma requestedModels_app evs1 evs2 :
  requestedModels (evs1 ++ evs2) = requestedModels evs1 ++ requestedModels evs2.
Proof.
  induction evs1 as [|ev evs1 IH]; [reflexivity|].
  destruct ev; simpl; now rewrite ?IH.
Qed.

(** The extraction leaves the disk and the store alone; its only outside call
    is the download, when there is one. *)
Lemma extractImageData_trace env response hasReferences w r wx :
  OpenAIService.extractImageData env response hasReferences w = (r, wx) ->
  files wx = files w /\
  exists evs, trace wx = trace w ++ evs /\ statusWrites evs = [] /\
              requestedModels evs = [] /\
              (evs = [] \/ exists url res, evs = [EvGet url res]).
Proof.
  rewrite extractImageData_run. intros H.
  assert (Hsame : (r, wx) = (r, w) -> files wx = files w /\
            exists evs, trace wx = trace w ++ evs /\ statusWrites evs = [] /\
              requestedModels evs = [] /\
              (evs = [] \/ exists url res, evs = [EvGet url res])).
  { intros E. injection E as ->. split; [reflexivity|].
    exists []. rewrite app_nil_r. auto. }
  destruct (firstResult response) as [imageResult|e0];
    [|injection H as <- <-; now apply Hsame].
  destruct (Js.truthy imageResult); [|injection H as <- <-; now apply Hsame].
  destruct (Js.truthy (Js.prop imageResult "b64_json"));
    [injection H as <- <-; now apply Hsame|].
  destruct (Js.truthy (Js.prop imageResult "url"));
    [|injection H as <- <-; now apply Hsame].
  destruct (axios_get env (trace w) (Js.prop imageResult "url")) as [e|bytes];
    injection H as <- <-; (split; [reflexivity|]);
    eexists; (split; [reflexivity|]); repeat split; eauto.
Qed.

(** A returned value means a completed record: the last outside call is the
    accepted update that sets it. *)
Lemma afterLadder_completes env ideaId references response wl v w' :
  Js.truthy ideaId = true ->
  afterLadder env ideaId references response wl = (Return v, w') ->
  exists imageData wx usedIds r evs,
    OpenAIService.extractImageData env response (0 <? length references)%nat wl
      = (Return imageData, wx) /\
    v = completedResult ideaId (imageFileName env ideaId wx) /\
    trace w' = trace wl ++ evs /\
    statusWrites evs = [JStr "completed"] /\
    requestedModels evs = [] /\
    last evs = Some (EvExecute sqlCompleted
                       (completedValues ideaId (imageFileName env ideaId wx)
                          imageData usedIds) (inr r)).
Proof.
  intros Hid H.
  destruct (afterLadder_returns env _ _ _ _ _ _ Hid H)
    as (imageData & wx & buffer & ids & r & Hx & Hb & Hw & Hr & Hp & -> & ->).
  cbv zeta in Hp.
  destruct (extractImageData_trace env _ _ _ _ _ Hx)
    as (_ & evs & Ht & Hs & Hm & _).
  exists imageData, wx, (OpenAIService.usedReferenceIdsJSON ids), r.
  eexists (evs ++ [EvWriteFile _ _ None; EvExecute sqlCompleted _ (inr r)]).
  split; [exact Hx|]. split; [reflexivity|].
  split; [|split; [|split]].
  - unfold executed. rewrite Hp. unfold written.
    cbn [trace log_event set_files]. rewrite Ht.
    rewrite <- !app_assoc. reflexivity.
  - rewrite statusWrites_app, Hs. reflexivity.
  - rewrite requestedModels_app, Hm. reflexivity.
  - rewrite last_app. reflexivity.
Qed.

(** ** C1: the fallback ladder *)

Section Ladder.

Variable env : Env.


End Ladder.



(** ** C2: a successful call *)


Section SuccessfulCall.

Variable env : Env.







End SuccessfulCall.

(** The scenario of the specification: idea 42, "a red barn at sunset", no
    references, a provider that replies [{data: [{b64_json: "aGVsbG8="}]}]. *)
Example red_barn_scenario :
  let run := Scenario.firstCall Scenario.healthy [] in
  fst run = Return (JObj [("ideaId", JNum 42);
                          ("imageUrl", JStr "uploads/painting_42_1700000000000.png");
                          ("status", JStr "completed")]) /\
  statements (trace (snd run)) =
    [("UPDATE paintings SET status = ? WHERE idea_id = ?",
      [JStr "processing"; JNum 42]);
     ("UPDATE paintings SET status = ?, image_url = ?, image_data = ?, used_reference_ids = ? WHERE idea_id = ?",
      [JStr "completed"; JStr "uploads/painting_42_1700000000000.png";
       JStr "data:image/png;base64,aGVsbG8="; JNull; JNum 42])] /\
  map_to_list (files (snd run)) =
    [("/app/uploads/painting_42_1700000000000.png",
      [Byte.x68; Byte.x65; Byte.x6c; Byte.x6c; Byte.x6f])] /\
  managers (snd run) = [[]].
Proof. vm_compute. repeat split. Qed.



(** ** C3: the failure path *)

Lemma length_substring0 n s :
  String.length (JsString.substring0 n s) = Nat.min n (String.length s).
Proof.
  unfold JsString.substring0. revert s.
  induction n as [|n IH]; intros s.
  - now destruct s.
  - destruct s as [|c s]; [reflexivity|]. simpl. now rewrite IH.
Qed.

Section FailurePath.

Variable env : Env.

(** C3 (as the code has it).  Past validation, whatever error the try block
    of [generateImage] throws, the call hands the pool the update of the row
    to failed, with [error_message] the first 255 characters of the error's
    message -- of [Unknown error] when the message is empty --, and throws that
    same error, whether the pool accepts the update or refuses it: the pool's
    own error goes nowhere. *)
Theorem C3_failure_is_recorded_and_rethrown
    (ideaId prompt : JsVal) (references : list JsVal) (w : World)
    (error : JsError) (wt : World) :
  validInputs ideaId prompt ->
  keyAccepted env w ->
  generateImage_try env ideaId prompt references (pipelineStart w) = (Throw error, wt) ->
  let values := [JStr "failed"; JStr (recordedMessage error); ideaId] in
  let outcome := pool_execute env (trace wt) sqlFailed values in
  generateImage env ideaId prompt references w =
    (Throw error, log_event (EvExecute sqlFailed values outcome) wt) /\
  String.length (recordedMessage error) <= 255 /\
  (message error <> EmptyString ->
   recordedMessage error = JsString.substring0 255 (message error)) /\
  (message error = EmptyString -> recordedMessage error = "Unknown error").
Proof.
  intros Hv Hk Htry values outcome.
  split; [|split; [|split]].
  - rewrite (generateImage_run env _ _ _ _ Hv Hk).
    unfold guarded, try_catch. rewrite Htry.
    now rewrite failed_run by apply Hv.
  - unfold recordedMessage. rewrite length_substring0. apply Nat.le_min_l.
  - intros Hm. unfold recordedMessage.
    destruct (String.eqb_spec (message error) EmptyString) as [He|_]; [contradiction|].
    reflexivity.
  - intros Hm. unfold recordedMessage. rewrite Hm. reflexivity.
Qed.

End FailurePath.

(** C3, as stated, fails: the error thrown has the empty message, and the
    message recorded is not that message cut to 255 characters, but
    [Unknown error]. *)
Lemma C3_counterexample :
  let run := Scenario.firstCall silentRefusal [] in
  fst run = Throw (Error EmptyString) /\
  JsString.substring0 255 (message (Error EmptyString)) = EmptyString /\
  statements (trace (snd run)) =
    [(sqlProcessing, [JStr "processing"; JNum 42]);
     (sqlFailed, [JStr "failed"; JStr "Unknown error"; JNum 42])].
Proof. vm_compute. repeat split. Qed.

(** C3 on a process whose primary tier answers 401 and whose pool refuses
    every statement: the 401 error is thrown, not the pool's. *)
Lemma C3_failure_witness :
  let e := Reference.env (Scenario.tiers (inl (Reference.statusError 401 JNull))
                                         (inr (Scenario.imageReply "aGk=")))
             Reference.host_down
             (fun tr sql values =>
                match tr with
                | [] => Reference.pool_ok 7 tr sql values
                | _ => Reference.pool_down tr sql values
                end)
             Scenario.clock in
  let run := Scenario.firstCall e [] in
  fst run = Throw (Error "Invalid OpenAI API key") /\
  statements (trace (snd run)) =
    [(sqlProcessing, [JStr "processing"; JNum 42]);
     (sqlFailed, [JStr "failed"; JStr "Invalid OpenAI API key"; JNum 42])] /\
  statusWrites (trace (snd run)) = [JStr "processing"].
Proof.
  intros e run.
  assert (Hv : validInputs (JNum 42) (JStr "a red barn at sunset")).
  { split; [reflexivity|]. eexists. split; [reflexivity|]. vm_compute. discriminate. }
  assert (Htry : OpenAIService.generateImage_try e (JNum 42) (JStr "a red barn at sunset") []
                   (pipelineStart (initial_world ∅))
                 = (Throw (Error "Invalid OpenAI API key"),
                    snd (OpenAIService.generateImage_try e (JNum 42)
                           (JStr "a red barn at sunset") []
                           (pipelineStart (initial_world ∅))))).
  { vm_compute. reflexivity. }
  destruct (C3_failure_is_recorded_and_rethrown e (JNum 42) (JStr "a red barn at sunset")
              [] (initial_world ∅) _ _ Hv (or_intror eq_refl) Htry) as (Hcall & _).
  unfold run, Scenario.firstCall. rewrite Hcall. cbn [fst snd].
  split; [reflexivity|]. vm_compute. split; reflexivity.
Defined.

(** C4 on the stuck disk: [cleanup] returns, the refusal for the first file
    does not keep the second from being deleted, and nothing stays tracked;
    and a call of [generateImage] ends with the manager it made tracking
    nothing. *)
Lemma C4_cleanup_witness :
  let after := snd (OpenAIService.cleanup stuckDisk 0 threeTracked) in
  fst (OpenAIService.cleanup stuckDisk 0 threeTracked) = Return tt /\
  OpenAIService.tempFiles 0 after = [] /\
  files after !! "/app/uploads/ref_1.png" = None /\
  (exists r w1,
      Scenario.firstCall stuckDisk [] = (r, w1) /\
      managers w1 = [[]]).
Proof.
  cbv zeta.
  destruct (C4_cleanup_leaves_nothing_tracked stuckDisk 0 threeTracked
              (JNum 42) (JStr "a red barn at sunset") [] (initial_world ∅))
    as [(w' & evs & Hrun & Hm & Ht & Htr & Honly & Heach & Hrest) (r & w1 & Hcall & Hends)].
  { vm_compute. lia. }
  rewrite Hrun. cbn [fst snd].
  split; [reflexivity|]. split; [exact Ht|]. split.
  - destruct (Heach "/app/uploads/ref_1.png") as [Hgone|(e & He)].
    + vm_compute. right. now left.
    + exact Hgone.
    + exfalso. destruct (Honly _ He) as (q & res & Heq & _).
      injection Heq as <- <-.
      assert (Hevs : evs = newEvents threeTracked w') by (symmetry; now apply newEvents_app).
      assert (Hw' : w' = snd (OpenAIService.cleanup stuckDisk 0 threeTracked))
        by now rewrite Hrun.
      rewrite Hevs, Hw' in He. vm_compute in He.
      repeat (apply elem_of_cons in He as [He|He]; [discriminate He|]).
      inversion He.
  - exists r, w1. split; [exact Hcall|].
    destruct Hends as [[_ (e & ->)]|(Hm1 & _)].
    + exfalso. unfold Scenario.firstCall in Hcall.
      apply (f_equal fst) in Hcall. vm_compute in Hcall. discriminate Hcall.
    + exact Hm1.
Defined.

(** ** C5 and C10: the extraction *)

Section Extraction.

Variable env : Env.

(** C5 (as the code has it).  Let the first result item of the reply be
    [imageResult].  (1) When its [b64_json] is set (truthy), the extraction
    returns that value unchanged, with no outside call.  (2) Otherwise, when
    its [url] is set and the download gives [bytes], the extraction returns
    the base64 text of [bytes], and whenever the rest of the pipeline then
    returns, the last statement the pool accepted carries, as [image_data],
    the data URL made of [data:image/png;base64,] and exactly that text.
    (3) When neither is set, or when there is no result item (reading it
    throws, or it is falsy), the extraction throws. *)
Theorem C5_inline_payload_first_then_url
    (response : Response) (references : list JsVal) (ideaId : JsVal) (w : World) :
  Js.truthy ideaId = true ->
  let hasReferences := (0 <? length references)%nat in
  let run := extractImageData env response hasReferences w in
  (forall imageResult,
      firstResult response = Return imageResult ->
      Js.truthy imageResult = true ->
      Js.truthy (Js.prop imageResult "b64_json") = true ->
      run = (Return (Js.prop imageResult "b64_json"), w)) /\
  (forall imageResult bytes,
      firstResult response = Return imageResult ->
      Js.truthy imageResult = true ->
      Js.truthy (Js.prop imageResult "b64_json") = false ->
      Js.truthy (Js.prop imageResult "url") = true ->
      axios_get env (trace w) (Js.prop imageResult "url") = inr bytes ->
      let encoded := Buffer_toString_base64 env bytes in
      run = (Return (JStr encoded),
             log_event (EvGet (Js.prop imageResult "url") (inr bytes)) w) /\
      forall v w',
        afterLadder env ideaId references response w = (Return v, w') ->
        exists fileName usedIds r,
          last (trace w') =
            Some (EvExecute sqlCompleted
                    [JStr "completed";
                     JStr ("uploads/" +:+ fileName);
                     JStr ("data:image/png;base64," +:+ encoded);
                     usedIds;
                     ideaId] (inr r))) /\
  (forall imageResult,
      firstResult response = Return imageResult ->
      Js.truthy imageResult = true ->
      Js.truthy (Js.prop imageResult "b64_json") = false ->
      Js.truthy (Js.prop imageResult "url") = false ->
      exists e, run = (Throw e, w)) /\
  ((exists e, firstResult response = Throw e) \/
   (exists imageResult, firstResult response = Return imageResult /\
                        Js.truthy imageResult = false) ->
   exists e, run = (Throw e, w)).
Proof.
  intros Hid hasReferences run. unfold run. rewrite extractImageData_run.
  split; [|split; [|split]].
  - intros imageResult -> -> ->. reflexivity.
  - intros imageResult bytes Hfirst Ht Hb Hu Hget.
    rewrite Hfirst, Ht, Hb, Hu, Hget. split; [reflexivity|].
    intros v w' Hrun.
    destruct (afterLadder_completes env _ _ _ _ _ _ Hid Hrun)
      as (imageData & wx & usedIds & r & evs & Hx & _ & Htr & _ & _ & Hl).
    fold hasReferences in Hx. rewrite extractImageData_run in Hx.
    rewrite Hfirst, Ht, Hb, Hu, Hget in Hx. injection Hx as <- <-.
    exists (imageFileName env ideaId
              (log_event (EvGet (Js.prop imageResult "url") (inr bytes)) w)),
           usedIds, r.
    rewrite Htr. destruct evs as [|ev evs]; [discriminate Hl|].
    rewrite last_app, Hl. reflexivity.
  - intros imageResult -> -> -> ->. eexists. reflexivity.
  - intros [(e & ->)|(imageResult & -> & ->)]; eexists; reflexivity.
Qed.

(** C10.  An extraction that throws, throws the one error with the message
    [Failed to extract image data from API response], whatever went wrong: a
    reply from which no result item can be read, a falsy item, an item with
    neither form, a download that failed (its error is dropped).  Under
    [generateImage] that error is the one recorded and the one its caller
    gets. *)
Theorem C10_extraction_errors_are_replaced
    (response : Response) (references : list JsVal) (ideaId : JsVal)
    (w : World) (e : JsError) (w' : World) :
  Js.truthy ideaId = true ->
  extractImageData env response (0 <? length references)%nat w = (Throw e, w') ->
  e = Error "Failed to extract image data from API response" /\
  afterLadder env ideaId references response w =
    (Throw (Error "Failed to extract image data from API response"),
     executed env sqlFailed
       [JStr "failed"; JStr "Failed to extract image data from API response"; ideaId] w') /\
  (forall cause imageResult,
      firstResult response = Return imageResult ->
      Js.truthy imageResult = true ->
      Js.truthy (Js.prop imageResult "b64_json") = false ->
      Js.truthy (Js.prop imageResult "url") = true ->
      axios_get env (trace w) (Js.prop imageResult "url") = inl cause ->
      w' = log_event (EvGet (Js.prop imageResult "url") (inl cause)) w) /\
  ((exists cause, firstResult response = Throw cause) \/
   (exists imageResult,
       firstResult response = Return imageResult /\
       (Js.truthy imageResult = false \/
        (Js.truthy (Js.prop imageResult "b64_json") = false /\
         Js.truthy (Js.prop imageResult "url") = false))) ->
   w' = w).
Proof.
  intros Hid Hx.
  pose proof (extractImageData_throws env _ _ _ _ _ Hx) as ->.
  split; [reflexivity|]. split; [|split].
  - now rewrite (afterLadder_extraction_fails env _ _ _ _ _ _ Hid Hx).
  - intros cause imageResult Hfirst Ht Hb Hu Hget.
    rewrite extractImageData_run, Hfirst, Ht, Hb, Hu, Hget in Hx. congruence.
  - intros [(cause & Hfirst)|(imageResult & Hfirst & [Ht|[Hb Hu]])];
      rewrite extractImageData_run, Hfirst in Hx.
    + congruence.
    + rewrite Ht in Hx. congruence.
    + destruct (Js.truthy imageResult); [rewrite Hb, Hu in Hx|]; congruence.
Qed.

End Extraction.

(** C5, as stated, fails: for a reply that carries only a URL, the persisted
    [image_data] is not the base64 text of the fetched bytes, it is the data
    URL that embeds it. *)
Lemma C5_counterexample :
  let run := Scenario.firstCall byAddress [] in
  Reference.base64_encode [Byte.x68; Byte.x69] = "aGk=" /\
  statements (trace (snd run)) =
    [(sqlProcessing, [JStr "processing"; JNum 42]);
     (sqlCompleted,
      [JStr "completed"; JStr "uploads/painting_42_1700000000000.png";
       JStr "data:image/png;base64,aGk="; JNull; JNum 42])] /\
  JStr "data:image/png;base64,aGk=" <> JStr (Reference.base64_encode [Byte.x68; Byte.x69]).
Proof. vm_compute. repeat split. discriminate. Qed.

(** C5 on that process: the extraction downloads and encodes, and the
    completed update carries the data URL of the encoded bytes. *)
Lemma C5_extraction_witness :
  let response := Scenario.urlReply "https://images.example/a.png" in
  extractImageData byAddress response false (initial_world ∅) =
    (Return (JStr "aGk="),
     log_event (EvGet (JStr "https://images.example/a.png") (inr [Byte.x68; Byte.x69]))
       (initial_world ∅)) /\
  exists fileName usedIds r,
    last (trace (snd (Scenario.firstCall byAddress []))) =
      Some (EvExecute sqlCompleted
              [JStr "completed";
               JStr ("uploads/" +:+ fileName);
               JStr ("data:image/png;base64," +:+ "aGk=");
               usedIds;
               JNum 42] (inr r)).
Proof.
  intros response. split.
  - destruct (C5_inline_payload_first_then_url byAddress response [] (JNum 42)
                (initial_world ∅) eq_refl) as (_ & Hurl & _).
    destruct (Hurl (JObj [("url", JStr "https://images.example/a.png")])
                [Byte.x68; Byte.x69] eq_refl eq_refl eq_refl eq_refl eq_refl) as (Hrun & _).
    exact Hrun.
  - assert (Hv : validInputs (JNum 42) (JStr "a red barn at sunset")).
    { split; [reflexivity|]. eexists. split; [reflexivity|]. vm_compute. discriminate. }
    set (w2 := posted byAddress (dalle3Body (promptSent "a red barn at sunset" []))
                 (executed byAddress sqlProcessing (processingValues (JNum 42))
                    (pipelineStart (initial_world ∅)))).
    assert (Hcall : Scenario.firstCall byAddress []
                    = afterLadder byAddress (JNum 42) [] response w2).
    { unfold Scenario.firstCall.
      rewrite (generateImage_run byAddress _ _ _ _ Hv (or_intror eq_refl)).
      rewrite (guarded_run byAddress (JNum 42) _ _ _ eq_refl). reflexivity. }
    destruct (C5_inline_payload_first_then_url byAddress response [] (JNum 42)
                w2 eq_refl) as (_ & Hurl & _).
    destruct (Hurl (JObj [("url", JStr "https://images.example/a.png")])
                [Byte.x68; Byte.x69] eq_refl eq_refl eq_refl eq_refl eq_refl)
      as (_ & Hpersisted).
    rewrite Hcall.
    destruct (afterLadder byAddress (JNum 42) [] response w2) as [out w'] eqn:Hrun.
    assert (Hout : out = Return (completedResult (JNum 42) "painting_42_1700000000000.png")).
    { apply (f_equal fst) in Hrun. cbn [fst] in Hrun. rewrite <- Hrun.
      vm_compute. reflexivity. }
    subst out. cbn [snd]. exact (Hpersisted _ _ eq_refl).
Defined.

(** C10 on a process whose host is down: the caller gets the one error, not
    [Network Error]. *)
Lemma C10_extraction_witness :
  let run := Scenario.firstCall unreachableHost [] in
  fst run = Throw (Error "Failed to extract image data from API response") /\
  statements (trace (snd run)) =
    [(sqlProcessing, [JStr "processing"; JNum 42]);
     (sqlFailed,
      [JStr "failed"; JStr "Failed to extract image data from API response"; JNum 42])].
Proof.
  intros run.
  assert (Hv : validInputs (JNum 42) (JStr "a red barn at sunset")).
  { split; [reflexivity|]. eexists. split; [reflexivity|]. vm_compute. discriminate. }
  assert (Tprimary :
            OpenAIService.generateImage unreachableHost (JNum 42)
              (JStr "a red barn at sunset") [] (initial_world ∅)
            = afterLadder unreachableHost (JNum 42) []
                (Scenario.urlReply "https://images.example/a.png")
                (posted unreachableHost (dalle3Body (promptSent "a red barn at sunset" []))
                   (executed unreachableHost sqlProcessing (processingValues (JNum 42))
                      (pipelineStart (initial_world ∅))))).
  { rewrite (generateImage_run unreachableHost _ _ _ _ Hv (or_intror eq_refl)).
    rewrite (guarded_run unreachableHost (JNum 42) _ _ _ eq_refl). reflexivity. }
  match type of Tprimary with
  | _ = afterLadder ?e ?i ?r ?resp ?wl =>
      destruct (OpenAIService.extractImageData e resp (0 <? length r)%nat wl)
        as [out wx] eqn:Hx
  end.
  assert (Hout : out = Throw (Error "Failed to extract image data from API response")).
  { apply (f_equal fst) in Hx. cbn [fst] in Hx. rewrite <- Hx. vm_compute. reflexivity. }
  subst out.
  destruct (C10_extraction_errors_are_replaced unreachableHost _ _ (JNum 42) _ _ _
              eq_refl Hx) as (_ & Hafter & _).
  unfold run, Scenario.firstCall. rewrite Tprimary, Hafter. cbn [fst snd].
  split; [reflexivity|].
  apply (f_equal snd) in Hx. cbn [snd] in Hx. rewrite <- Hx.
  vm_compute. reflexivity.
Defined.

(** ** C9: the prompt of the secondary tier *)

Lemma length_trimStart s : String.length (JsString.trimStart s) <= String.length s.
Proof.
  induction s as [|c s IH]; simpl; [lia|].
  destruct (JsString.is_whitespace c); simpl; lia.
Qed.

Lemma length_trimEnd s : String.length (JsString.trimEnd s) <= String.length s.
Proof.
  induction s as [|c s IH]; simpl; [lia|].
  destruct (JsString.trimEnd s) as [|c' t]; simpl in *.
  - destruct (JsString.is_whitespace c); simpl; lia.
  - lia.
Qed.

Lemma length_trim s : String.length (JsString.trim s) <= String.length s.
Proof.
  unfold JsString.trim.
  pose proof (length_trimEnd (JsString.trimStart s)). pose proof (length_trimStart s). lia.
Qed.

Lemma prefix_substring0 n s : String.prefix (JsString.substring0 n s) s = true.
Proof.
  unfold JsString.substring0. revert s.
  induction n as [|n IH]; intros s.
  - now destruct s.
  - destruct s as [|c s]; [reflexivity|]. simpl.
    destruct (ascii_dec c c); [apply IH|congruence].
Qed.

Section SecondaryPrompt.

Variable env : Env.

(** C9.  For the prompt [sent] that the ladder hands to a tier (the prompt of
    the call, with the notice about references appended when there are any):
    the primary tier posts [sent.trim()], in full; the secondary tier posts
    the first 1000 characters of [sent.trim()], so at most 1000 characters, a
    prefix of what the primary tier posts; whenever [sent] has more than 1000
    characters the secondary tier's prompt is shorter than [sent], and whenever
    [sent.trim()] has more than 1000 it is exactly 1000 characters long,
    shorter than the primary tier's.  In the ladder, after a primary failure
    that is not worded as a client error, the two requests made are these
    two. *)
Theorem C9_secondary_tier_sends_the_first_1000_characters
    (prompt : string) (references : list JsVal) (w : World) :
  let sent := promptSent prompt references in
  let primaryPrompt := JsString.trim sent in
  let secondaryPrompt := JsString.substring0 1000 (JsString.trim sent) in
  snd (makeGenerationRequest env (JStr sent) w) = posted env (dalle3Body sent) w /\
  snd (makeDalle2GenerationRequest env (JStr sent) w) = posted env (dalle2Body sent) w /\
  Js.prop (dalle3Body sent) "prompt" = JStr primaryPrompt /\
  Js.prop (dalle2Body sent) "prompt" = JStr secondaryPrompt /\
  String.length secondaryPrompt = Nat.min 1000 (String.length primaryPrompt) /\
  String.prefix secondaryPrompt primaryPrompt = true /\
  (1000 < String.length sent -> String.length secondaryPrompt < String.length sent) /\
  (1000 < String.length primaryPrompt ->
   String.length secondaryPrompt = 1000 /\
   String.length secondaryPrompt < String.length primaryPrompt) /\
  (forall error,
      axios_post env (trace w) imagesURL (dalle3Body sent) = inl error ->
      isClientError (generationError error) = false ->
      let w1 := posted env (dalle3Body sent) w in
      newEvents w
        (snd (tryModels env models (0 <? length references)%nat (JStr prompt) None w)) =
        [EvPost imagesURL (dalle3Body sent) (inl error);
         EvPost imagesURL (dalle2Body sent)
           (axios_post env (trace w1) imagesURL (dalle2Body sent))]).
Proof.
  intros sent primaryPrompt secondaryPrompt.
  assert (Hlen : String.length secondaryPrompt = Nat.min 1000 (String.length primaryPrompt))
    by apply length_substring0.
  pose proof (length_trim sent) as Htrim. fold primaryPrompt in Htrim.
  split; [now rewrite makeGenerationRequest_run|].
  split; [now rewrite makeDalle2GenerationRequest_run|].
  split; [reflexivity|]. split; [reflexivity|]. split; [exact Hlen|].
  split; [apply prefix_substring0|].
  split; [intros H; lia|]. split; [intros H; lia|].
  intros error H1 Hother w1.
  rewrite tryModels_run. fold sent. rewrite H1, Hother. fold w1.
  apply newEvents_app.
  destruct (axios_post env (trace w1) imagesURL (dalle2Body sent)) as [e2|r] eqn:H2.
  - destruct (isClientError e2); cbn [snd]; unfold posted; cbn [trace log_event];
      fold w1; rewrite H2; unfold w1, posted; cbn [trace log_event]; rewrite H1;
      now rewrite <- app_assoc.
  - cbn [snd]. unfold posted. cbn [trace log_event]. fold w1. rewrite H2.
    unfold w1, posted. cbn [trace log_event]. rewrite H1. now rewrite <- app_assoc.
Qed.

End SecondaryPrompt.

(** C9 on a prompt of 1200 letters: the secondary tier posts 1000 of them. *)
Lemma C9_long_prompt_witness :
  String.length (JsString.substring0 1000 (JsString.trim (promptSent (letters 1200) []))) = 1000 /\
  Js.prop (dalle2Body (letters 1200)) "prompt" = JStr (letters 1000) /\
  Js.prop (dalle3Body (letters 1200)) "prompt" = JStr (letters 1200).
Proof.
  destruct (C9_secondary_tier_sends_the_first_1000_characters Scenario.rateLimited
              (letters 1200) [] (initial_world ∅))
    as (_ & _ & H3 & H2 & _ & _ & _ & Hlong & _).
  split; [|split].
  - apply Hlong. vm_compute. lia.
  - cbv zeta in H2. unfold promptSent in H2. cbn [length Nat.ltb Nat.leb] in H2.
    rewrite H2. vm_compute. reflexivity.
  - cbv zeta in H3. unfold promptSent in H3. cbn [length Nat.ltb Nat.leb] in H3.
    rewrite H3. vm_compute. reflexivity.
Defined.

(** ** C8: calls that are refused *)

Lemma keeps_insertIdea env params : keeps (OpenRouterService.insertIdea env params).
Proof. unfold OpenRouterService.insertIdea. keeps_all. Qed.

Lemma keeps_generateIdeas env titleId titleText instructions previousIdeas :
  keeps (OpenRouterService.generateIdeas env titleId titleText instructions previousIdeas).
Proof.
  unfold OpenRouterService.generateIdeas.
  apply keeps_try_catch; [|intros e; apply keeps_throw].
  repeat match goal with
         | |- keeps (if ?b then _ else _) => destruct b
         | |- keeps (throw _) => apply keeps_throw
         end.
  apply keeps_bind; [apply keeps_lift|intros summaries].
  apply keeps_bind; [apply keeps_post|intros response].
  destruct (negb _); [apply keeps_throw|].
  apply keeps_bind; [apply keeps_lift|intros ideaData].
  apply keeps_bind; [apply keeps_lift|intros summary].
  apply keeps_bind; [destruct (negb _); auto with keeps|intros fullPrompt].
  destruct (_ || _); [apply keeps_throw|].
  apply keeps_bind; [apply keeps_insertIdea|intros rows].
  apply keeps_bind; [apply keeps_lift|intros result].
  apply keeps_bind; [apply keeps_lift|intros id].
  apply keeps_ret.
Qed.

Lemma existsb_undefined l : In JUndefined l -> existsb Js.is_undefined l = true.
Proof. intros H. apply existsb_exists. exists JUndefined. now split. Qed.

Section Refusals.

Variable env : Env.

(** The flag is only ever set when the key is there. *)
Lemma flag_implies_key w :
  Reachable env w -> apiKeyValidated w = true -> key_present (OPENAI_API_KEY env) = true.
Proof.
  induction 1 as [disk|w ideaId prompt references r w' Hreach IH Hcall
                 |w titleId titleText instructions previousIdeas r w' Hreach IH Hcall].
  - discriminate.
  - destruct (validateInputs_cases env ideaId prompt w) as [[e He]|(Hok & Hv & Hk)].
    + rewrite (generateImage_rejected env _ _ _ _ _ He) in Hcall.
      injection Hcall as _ <-. exact IH.
    + intros _. destruct Hk as [Hflag|Hkey]; [now apply IH|exact Hkey].
  - destruct (keeps_generateIdeas env titleId titleText instructions previousIdeas w)
      as [_ Hflag].
    rewrite Hcall in Hflag. cbn [snd] in Hflag. now rewrite Hflag.
Qed.

(** C8.  In any state of the process: [generateImage] with a falsy [ideaId]
    throws [Idea ID is required ...]; with a prompt that is falsy or blank it
    throws [Prompt is required ...]; with no API key configured it throws
    whatever its arguments are (the key error itself when the arguments are
    valid); each time the world is left exactly as it was -- no statement
    handed to the pool, no request, no file written, no manager made.  And in
    any world at all, [updatePaintingStatus] and the insert of [generateIdeas]
    throw [Invalid query parameter detected], leaving the world as it was,
    when one of the values they would hand to the pool is [undefined]. *)
Theorem C8_refused_calls_leave_the_world_alone
    (w : World) (ideaId prompt : JsVal) (references : list JsVal) :
  Reachable env w ->
  let call := generateImage env ideaId prompt references w in
  (Js.truthy ideaId = false ->
   call = (Throw (Error "Idea ID is required for image generation"), w)) /\
  (Js.truthy ideaId = true ->
   Js.truthy prompt = false \/ (exists s, prompt = JStr s /\ JsString.trim s = EmptyString) ->
   call = (Throw (Error "Prompt is required for image generation"), w)) /\
  (key_present (OPENAI_API_KEY env) = false ->
   (exists e, call = (Throw e, w)) /\
   (validInputs ideaId prompt ->
    call = (Throw (Error "OpenAI API key is missing. Please check your .env file."), w))) /\
  (forall w0 id status additionalFields,
      In JUndefined (updateValues id status additionalFields) ->
      updatePaintingStatus env id status additionalFields w0
        = (Throw (Error "Invalid query parameter detected"), w0)) /\
  (forall w0 params,
      In JUndefined params ->
      OpenRouterService.insertIdea env params w0
        = (Throw (Error "Invalid query parameter detected"), w0)).
Proof.
  intros Hreach call. unfold call.
  split; [|split; [|split; [|split]]].
  - intros Hid. apply generateImage_rejected.
    unfold validateInputs. now rewrite Hid.
  - intros Hid Hblank. apply generateImage_rejected.
    unfold validateInputs, bind, lift, call_trim, ret, throw. rewrite Hid. cbn [negb].
    destruct Hblank as [Hp|(s & -> & Hs)].
    + now rewrite Hp.
    + destruct (Js.truthy (JStr s)); cbn [negb]; [|reflexivity].
      now rewrite Hs.
  - intros Hkey.
    assert (Hflag : apiKeyValidated w = false).
    { destruct (apiKeyValidated w) eqn:Hf; [|reflexivity].
      pose proof (flag_implies_key w Hreach Hf). congruence. }
    split.
    + destruct (validateInputs_cases env ideaId prompt w) as [[e He]|(_ & _ & [Hk|Hk])].
      * exists e. now apply generateImage_rejected.
      * congruence.
      * congruence.
    + intros [Hid (s & -> & Hs)]. apply generateImage_rejected.
      assert (Hlen : (String.length (JsString.trim s) =? 0)%nat = false).
      { destruct (JsString.trim s); [now elim Hs|reflexivity]. }
      assert (Ht : Js.truthy (JStr s) = true).
      { simpl. destruct s; [now elim Hs|reflexivity]. }
      unfold validateInputs, bind, lift, call_trim, ret, throw.
      rewrite Hid, Ht. cbn [negb]. rewrite Hlen, Hflag, Hkey. reflexivity.
  - intros w0 id status additionalFields Hin.
    unfold updatePaintingStatus. fold (updateValues id status additionalFields).
    now rewrite (existsb_undefined _ Hin).
  - intros w0 params Hin. unfold OpenRouterService.insertIdea.
    now rewrite (existsb_undefined _ Hin).
Qed.

End Refusals.

(** C8 on the keyless process, after one refused call: a valid call is
    refused for the key, a call without [ideaId] for the id, a blank prompt
    for the prompt; an update with an [undefined] field is refused. *)
Lemma C8_refusals_witness :
  let w := snd (OpenAIService.generateImage keyless JNull (JStr "x") [] (initial_world ∅)) in
  OpenAIService.generateImage keyless (JNum 42) (JStr "a red barn at sunset") [] w
    = (Throw (Error "OpenAI API key is missing. Please check your .env file."), w) /\
  OpenAIService.generateImage keyless JUndefined (JStr "a red barn at sunset") [] w
    = (Throw (Error "Idea ID is required for image generation"), w) /\
  OpenAIService.generateImage keyless (JNum 42) (JStr "   ") [] w
    = (Throw (Error "Prompt is required for image generation"), w) /\
  OpenAIService.updatePaintingStatus keyless (JNum 42) (JStr "failed")
      [("error_message", JUndefined)] w
    = (Throw (Error "Invalid query parameter detected"), w).
Proof.
  intros w.
  assert (Hreach : Reachable keyless w).
  { eapply reach_generateImage; [apply (reach_initial keyless ∅)|].
    unfold w. apply surjective_pairing. }
  assert (Hv : validInputs (JNum 42) (JStr "a red barn at sunset")).
  { split; [reflexivity|]. eexists. split; [reflexivity|]. vm_compute. discriminate. }
  split; [|split; [|split]].
  - destruct (C8_refused_calls_leave_the_world_alone keyless w
                (JNum 42) (JStr "a red barn at sunset") [] Hreach)
      as (_ & _ & Hkey & _).
    destruct (Hkey eq_refl) as [_ Hvalid]. exact (Hvalid Hv).
  - destruct (C8_refused_calls_leave_the_world_alone keyless w
                JUndefined (JStr "a red barn at sunset") [] Hreach)
      as (Hid & _).
    exact (Hid eq_refl).
  - destruct (C8_refused_calls_leave_the_world_alone keyless w
                (JNum 42) (JStr "   ") [] Hreach)
      as (_ & Hprompt & _).
    apply (Hprompt eq_refl). right. exists "   ". split; reflexivity.
  - destruct (C8_refused_calls_leave_the_world_alone keyless w
                (JNum 42) (JStr "   ") [] Hreach)
      as (_ & _ & _ & Hupdate & _).
    apply Hupdate. vm_compute. right. now left.
Defined.

(** ** openRouterService *)

Section IdeaFacts.

Variable env : Env.

Lemma safeJSONParse_strict str v :
  JSON_parse env str = inr v -> safeJSONParse env (JStr str) = Return v.
Proof. intros H. unfold safeJSONParse. cbn [Js.toString]. now rewrite H. Qed.

Lemma safeJSONParse_repair str e :
  JSON_parse env str = inl e ->
  safeJSONParse env (JStr str) = of_sum (JSON_parse env (cleaned str)).
Proof.
  intros H. unfold safeJSONParse. cbn [Js.toString]. rewrite H.
  now destruct (JSON_parse env (cleaned str)).
Qed.

Lemma replace_escaped_absent q s :
  hasEscaped q s = false ->
  JsString.replace_escaped q (String q EmptyString) s = s.
Proof.
  unfold hasEscaped. induction s as [|a s IH]; [reflexivity|].
  intros H. cbn [JsString.includes] in H. apply orb_false_elim in H as [Hhere Hrest].
  cbn [JsString.replace_escaped]. destruct s as [|b s']; [reflexivity|].
  destruct (Ascii.eqb a JsString.backslash && Ascii.eqb b q) eqn:Hab.
  - exfalso. apply andb_prop in Hab as [Ha Hb].
    apply Ascii.eqb_eq in Ha, Hb. subst a b.
    cbn [String.prefix] in Hhere.
    destruct (ascii_dec JsString.backslash JsString.backslash); [|congruence].
    destruct (ascii_dec q q); [|congruence].
    destruct s'; discriminate.
  - now rewrite (IH Hrest).
Qed.

(** Replacing a character that is neither the backslash nor the quote by a
    space neither makes nor breaks an escaped quote. *)
Lemma hasEscaped_replace_char c q s :
  c <> JsString.backslash -> c <> q -> q <> " "%char ->
  hasEscaped q (JsString.replace_char c " " s) = hasEscaped q s.
Proof.
  intros Hc1 Hc2 Hq. unfold hasEscaped.
  assert (Hbs : JsString.backslash <> " "%char) by discriminate.
  induction s as [|a s IH]; [reflexivity|].
  cbn [JsString.replace_char].
  destruct (Ascii.eqb_spec a c) as [->|Hac].
  - change (" " +:+ ?t) with (String " " t).
    cbn [JsString.includes]. rewrite IH. f_equal.
    cbn [String.prefix].
    destruct (ascii_dec JsString.backslash " "); [congruence|].
    destruct (ascii_dec JsString.backslash c); [congruence|reflexivity].
  - cbn [JsString.includes]. rewrite IH. f_equal.
    cbn [String.prefix].
    destruct (ascii_dec JsString.backslash a) as [<-|_]; [|reflexivity].
    destruct s as [|b s']; [reflexivity|].
    cbn [JsString.replace_char].
    destruct (Ascii.eqb_spec b c) as [->|Hbc].
    + change (" " +:+ ?t) with (String " " t). cbn [String.prefix].
      destruct (ascii_dec q " "); [congruence|].
      destruct (ascii_dec q c); [congruence|reflexivity].
    + cbn [String.prefix]. destruct (ascii_dec q b); [|reflexivity].
      destruct (JsString.replace_char c " " s'), s'; reflexivity.
Qed.

(** Without escaped quotes the repair is the replacement of the newlines. *)
Lemma cleaned_spaced str :
  hasEscaped JsString.squote str = false ->
  hasEscaped JsString.dquote str = false ->
  cleaned str = spaced str.
Proof.
  intros Hs Hd. unfold cleaned. fold (spaced str).
  assert (Hs' : hasEscaped JsString.squote (spaced str) = false).
  { unfold spaced. now rewrite !hasEscaped_replace_char by discriminate. }
  assert (Hd' : hasEscaped JsString.dquote (spaced str) = false).
  { unfold spaced. now rewrite !hasEscaped_replace_char by discriminate. }
  rewrite (replace_escaped_absent _ _ Hs'). now apply replace_escaped_absent.
Qed.

Lemma length_replace_char c d s :
  String.length (JsString.replace_char c (String d EmptyString) s) = String.length s.
Proof.
  induction s as [|a s IH]; [reflexivity|].
  cbn [JsString.replace_char]. destruct (Ascii.eqb a c).
  - change (String d EmptyString +:+ ?t) with (String d t).
    cbn [String.length]. now rewrite IH.
  - cbn [String.length]. now rewrite IH.
Qed.

Lemma length_spaced str : String.length (spaced str) = String.length str.
Proof. unfold spaced. now rewrite !length_replace_char. Qed.

Lemma replace_escaped_two q by_ a b s :
  JsString.replace_escaped q by_ (String a (String b s)) =
    if Ascii.eqb a JsString.backslash && Ascii.eqb b q
    then by_ +:+ JsString.replace_escaped q by_ s
    else String a (JsString.replace_escaped q by_ (String b s)).
Proof. reflexivity. Qed.

(** Unescaping never makes a text longer, and makes it shorter when there is
    a quote to unescape. *)
Lemma length_replace_escaped q s :
  String.length (JsString.replace_escaped q (String q EmptyString) s) <= String.length s /\
  (hasEscaped q s = true ->
   String.length (JsString.replace_escaped q (String q EmptyString) s) < String.length s).
Proof.
  assert (H : forall n s, String.length s <= n ->
            String.length (JsString.replace_escaped q (String q EmptyString) s)
              <= String.length s /\
            (hasEscaped q s = true ->
             String.length (JsString.replace_escaped q (String q EmptyString) s)
               < String.length s)).
  { clear s. unfold hasEscaped. induction n as [|n IH]; intros s Hlen.
    - destruct s; [|cbn in Hlen; lia]. split; [reflexivity|discriminate].
    - destruct s as [|a [|b s'']].
      + split; [reflexivity|discriminate].
      + split; [reflexivity|]. cbn [JsString.includes String.prefix].
        destruct (ascii_dec JsString.backslash a); cbn [orb]; discriminate.
      + rewrite replace_escaped_two.
        destruct (Ascii.eqb a JsString.backslash && Ascii.eqb b q) eqn:Hab.
        * change (String q EmptyString +:+ ?t) with (String q t).
          cbn [String.length] in *.
          destruct (IH s'' ltac:(lia)) as [Hle _]. split; [lia|intros _; lia].
        * cbn [String.length] in Hlen.
          destruct (IH (String b s'') ltac:(cbn [String.length]; lia)) as [Hle Hlt].
          set (rest := JsString.replace_escaped q (String q EmptyString) (String b s'')) in *.
          cbn [String.length] in *. split; [lia|].
          intros Hhas. cbn [JsString.includes] in Hhas.
          apply orb_prop in Hhas as [Hhere|Hrest].
          -- exfalso. cbn [String.prefix] in Hhere.
             destruct (ascii_dec JsString.backslash a) as [<-|]; [|discriminate].
             destruct (ascii_dec q b) as [<-|]; [|discriminate].
             rewrite !Ascii.eqb_refl in Hab. discriminate.
          -- specialize (Hlt Hrest). lia. }
  exact (H (String.length s) s (le_n _)).
Qed.

(** With a quote to unescape the repair is not the replacement of the
    newlines only: it is shorter. *)
Lemma cleaned_shorter str :
  hasEscaped JsString.squote str = true \/ hasEscaped JsString.dquote str = true ->
  String.length (cleaned str) < String.length str.
Proof.
  intros H. rewrite <- (length_spaced str). unfold cleaned. fold (spaced str).
  assert (Hs : hasEscaped JsString.squote (spaced str) = hasEscaped JsString.squote str).
  { unfold spaced. now rewrite !hasEscaped_replace_char by discriminate. }
  assert (Hd : hasEscaped JsString.dquote (spaced str) = hasEscaped JsString.dquote str).
  { unfold spaced. now rewrite !hasEscaped_replace_char by discriminate. }
  destruct (hasEscaped JsString.squote str) eqn:Hsq.
  - destruct (length_replace_escaped JsString.squote (spaced str)) as [_ Hlt].
    destruct (length_replace_escaped JsString.dquote
                (JsString.replace_escaped JsString.squote
                   (String JsString.squote EmptyString) (spaced str))) as [Hle _].
    specialize (Hlt Hs). lia.
  - destruct H as [H|H]; [discriminate H|].
    rewrite (replace_escaped_absent _ _ Hs).
    destruct (length_replace_escaped JsString.dquote (spaced str)) as [_ Hlt].
    apply Hlt. now rewrite Hd.
Qed.

End IdeaFacts.

(** ** C7: safeJSONParse *)

Section SafeParse.

Variable env : Env.

(** C7 (as the code has it).  For every string [str]: when the strict parse
    succeeds its value is returned; when it fails, the repair pass [cleaned]
    is applied once and the result parsed once, and the outcome of that
    second parse, value or error, is the outcome -- there is no third
    attempt.  The repair replaces every newline and carriage return by a
    space and then drops every backslash that stands directly before a
    single or a double quote.  When [str] holds no backslash directly
    followed by a quote, the repaired text is [str] with its newlines and
    carriage returns replaced by spaces, and a call whose strict parse fails
    ends as the strict parse of that text does: with its value when it
    parses.  When [str] holds a backslash directly followed by a quote, the
    repaired text is shorter than that. *)
Theorem C7_safeJSONParse_strict_then_one_repair (str : string) :
  (forall v, JSON_parse env str = inr v -> safeJSONParse env (JStr str) = Return v) /\
  (forall e, JSON_parse env str = inl e ->
             safeJSONParse env (JStr str) = of_sum (JSON_parse env (cleaned str))) /\
  (forall e err, JSON_parse env str = inl e -> JSON_parse env (cleaned str) = inl err ->
                 safeJSONParse env (JStr str) = Throw err) /\
  cleaned str =
    JsString.replace_escaped JsString.dquote (String JsString.dquote EmptyString)
      (JsString.replace_escaped JsString.squote (String JsString.squote EmptyString)
         (spaced str)) /\
  (hasEscaped JsString.squote str = false -> hasEscaped JsString.dquote str = false ->
   cleaned str = spaced str /\
   (forall e, JSON_parse env str = inl e ->
              safeJSONParse env (JStr str) = of_sum (JSON_parse env (spaced str))) /\
   (forall e v, JSON_parse env str = inl e -> JSON_parse env (spaced str) = inr v ->
                safeJSONParse env (JStr str) = Return v)) /\
  (hasEscaped JsString.squote str = true \/ hasEscaped JsString.dquote str = true ->
   String.length (cleaned str) < String.length (spaced str)).
Proof.
  split; [|split; [|split; [|split; [|split]]]].
  - apply safeJSONParse_strict.
  - apply safeJSONParse_repair.
  - intros e err H1 H2. rewrite (safeJSONParse_repair env _ _ H1), H2. reflexivity.
  - reflexivity.
  - intros Hs Hd. split; [now apply cleaned_spaced|]. split.
    + intros e H1. now rewrite (safeJSONParse_repair env _ _ H1), (cleaned_spaced _ Hs Hd).
    + intros e v H1 H2.
      rewrite (safeJSONParse_repair env _ _ H1), (cleaned_spaced _ Hs Hd), H2. reflexivity.
  - intros H. rewrite length_spaced. now apply cleaned_shorter.
Qed.

End SafeParse.

(** C7, as stated, fails.  Each of the two texts is malformed only by the
    literal newline in a string value: with that newline escaped it parses.
    In the first the summary is [a], a newline, and [b] in escaped quotes; in
    the second it is [a], a newline, [b] and an escaped backslash, so that
    the text holds no escaped quote, and a backslash stands before the quote
    that closes the summary.  The strict parse fails; the repair also drops
    the backslash before each of those quotes, and the second parse fails
    too: the fields are not returned. *)
Lemma C7_counterexample :
  (Reference.parse_json (JsString.replace_char JsString.LF "\n" quotedAfterNewline)
     = inr (JObj [("summary", JStr (json "a~'b'")); ("fullPrompt", JStr "c")]) /\
   Reference.parse_json quotedAfterNewline = inl Reference.SyntaxError /\
   OpenRouterService.cleaned quotedAfterNewline
     = json "{'summary':'a 'b'','fullPrompt':'c'}" /\
   OpenRouterService.safeJSONParse Scenario.healthy (JStr quotedAfterNewline)
     = Throw Reference.SyntaxError) /\
  (Reference.parse_json (JsString.replace_char JsString.LF "\n" backslashAfterNewline)
     = inr (JObj [("summary", JStr (json "a~b\")); ("fullPrompt", JStr "c")]) /\
   Reference.parse_json backslashAfterNewline = inl Reference.SyntaxError /\
   Reference.parse_json (spaced backslashAfterNewline)
     = inr (JObj [("summary", JStr "a b\"); ("fullPrompt", JStr "c")]) /\
   OpenRouterService.cleaned backslashAfterNewline
     = json "{'summary':'a b\','fullPrompt':'c'}" /\
   OpenRouterService.safeJSONParse Scenario.healthy (JStr backslashAfterNewline)
     = Throw Reference.SyntaxError).
Proof. vm_compute. repeat split. Qed.

(** C7 on the example of the specification, a summary [a], newline, [b] and
    a full prompt [c]: both fields come out, the newline as a space. *)
Lemma C7_repair_witness :
  OpenRouterService.safeJSONParse Scenario.healthy
    (JStr (json "{'summary':'a~b','fullPrompt':'c'}"))
  = Return (JObj [("summary", JStr "a b"); ("fullPrompt", JStr "c")]).
Proof.
  destruct (C7_safeJSONParse_strict_then_one_repair Scenario.healthy
              (json "{'summary':'a~b','fullPrompt':'c'}"))
    as (_ & _ & _ & _ & Hrepair & _).
  destruct (Hrepair eq_refl eq_refl) as (_ & _ & Hvalue).
  apply (Hvalue Reference.SyntaxError); vm_compute; reflexivity.
Defined.

(** ** C6: generateIdeas *)

Section Ideas.

Variable env : Env.

Lemma truthy_prop_not_nullish v key :
  Js.truthy (Js.prop v key) = true -> Js.nullish v = false.
Proof. now destruct v. Qed.


End Ideas.


(** * Further properties of the two files *)

(** ** updatePaintingStatus: the statement it builds *)

Section StatementFacts.

Variable env : Env.

Lemma count_append c s t :
  JsString.count c (s +:+ t) = JsString.count c s + JsString.count c t.
Proof.
  induction s as [|a s IH]; [reflexivity|].
  simpl. rewrite IH. lia.
Qed.

Lemma replace_prop_plain key v props :
  Forall plain props -> Forall plain (Js.replace_prop key v props).
Proof.
  intros H. induction H as [|[k v0] rest Hk Hrest IH]; cbn [Js.replace_prop].
  - constructor.
  - destruct (String.eqb k key); constructor; assumption.
Qed.

Lemma insert_index_plain i key v props :
  JsString.count "?" key = 0 -> Forall plain props ->
  Forall plain (Js.insert_index i key v props).
Proof.
  intros Hkey H. induction H as [|[k v0] rest Hk Hrest IH]; cbn [Js.insert_index].
  - constructor; [exact Hkey|constructor].
  - destruct (Js.array_index k) as [j|]; [destruct (j <? i)%Z|];
      repeat (constructor; try assumption).
Qed.

Lemma set_prop_plain key v props :
  JsString.count "?" key = 0 -> Forall plain props -> Forall plain (Js.set_prop key v props).
Proof.
  intros Hkey H. unfold Js.set_prop.
  destruct (Js.has_prop key props); [now apply replace_prop_plain|].
  destruct (Js.array_index key) as [i|]; [now apply insert_index_plain|].
  apply Forall_app. split; [exact H|]. constructor; [exact Hkey|constructor].
Qed.

Lemma spread_plain base additionalFields :
  Forall plain base -> Forall plain additionalFields ->
  Forall plain (Js.spread base additionalFields).
Proof.
  unfold Js.spread. intros Hbase H. revert base Hbase.
  induction H as [|[key val] more Hkey _ IH]; intros base Hbase; cbn [fold_left].
  - exact Hbase.
  - apply IH. now apply set_prop_plain.
Qed.

(** A name that is no array index leaves the first property where it is. *)
Lemma set_prop_keeps_the_first key v k0 v0 rest :
  Js.array_index key = None ->
  exists v1 rest1, Js.set_prop key v ((k0, v0) :: rest) = (k0, v1) :: rest1.
Proof.
  intros Hkey. unfold Js.set_prop. rewrite Hkey.
  destruct (Js.has_prop key ((k0, v0) :: rest)).
  - cbn [Js.replace_prop]. destruct (String.eqb k0 key); eauto.
  - cbn [app]. eauto.
Qed.

Lemma spread_status status additionalFields :
  Forall named additionalFields ->
  exists v rest, Js.spread [("status", status)] additionalFields = ("status", v) :: rest.
Proof.
  unfold Js.spread. generalize status. generalize (@nil (string * JsVal)).
  intros rest0 v0 H. revert rest0 v0.
  induction H as [|[key val] more Hkey _ IH]; intros rest0 v0; cbn [fold_left].
  - eauto.
  - cbn [fst snd]. unfold named in Hkey. cbn [fst] in Hkey.
    destruct (set_prop_keeps_the_first key val "status" v0 rest0 Hkey) as (v1 & rest1 & ->).
    apply IH.
Qed.

Lemma count_setClause fields :
  Forall plain fields ->
  JsString.count "?"
    (JsString.join ", " (map (fun kv : string * JsVal => fst kv +:+ " = ?") fields))
  = length fields.
Proof.
  intros H. induction H as [|kv rest Hk Hrest IH]; [reflexivity|].
  cbn [map length]. destruct rest as [|kv' rest'].
  - cbn [map JsString.join]. rewrite count_append, Hk. reflexivity.
  - cbn [map JsString.join] in *. rewrite !count_append, Hk, IH. reflexivity.
Qed.

End StatementFacts.

(** The statement [updatePaintingStatus] builds and the values it passes line
    up.  For field names that hold no question mark and values none of which
    is [undefined], the call hands the pool one statement: it has exactly as
    many placeholders as there are values, and the last value, the one for
    its [WHERE], is [ideaId].  When no field is named by an array index, the
    statement begins by setting the status; a field named by an array index
    is listed before it.  The call returns when the pool takes the statement
    and throws the pool's error when it does not. *)
Theorem updatePaintingStatus_statement_and_values_line_up
    (env : Env) (ideaId status : JsVal) (additionalFields : list (string * JsVal))
    (w : World) :
  Forall plain additionalFields ->
  existsb Js.is_undefined (updateValues ideaId status additionalFields) = false ->
  exists sql,
    let values := updateValues ideaId status additionalFields in
    let res := pool_execute env (trace w) sql values in
    OpenAIService.updatePaintingStatus env ideaId status additionalFields w =
      (match res with
       | inl e => Throw e
       | inr _ => Return tt
       end, log_event (EvExecute sql values res) w) /\
    sql = "UPDATE paintings SET "
          +:+ JsString.join ", "
                (map (fun field => fst field +:+ " = ?")
                   (Js.spread [("status", status)] additionalFields))
          +:+ " WHERE idea_id = ?" /\
    JsString.count "?" sql = length values /\
    last values = Some ideaId /\
    (Forall named additionalFields ->
     String.prefix "UPDATE paintings SET status = ?" sql = true) /\
    (forall v, additionalFields = [("1", v)] ->
               sql = "UPDATE paintings SET 1 = ?, status = ? WHERE idea_id = ?" /\
               values = [v; status; ideaId]).
Proof.
  intros Hplain Hdefined.
  unfold OpenAIService.updatePaintingStatus. cbv zeta.
  fold (updateValues ideaId status additionalFields). rewrite Hdefined.
  exists ("UPDATE paintings SET "
          +:+ JsString.join ", "
                (map (fun kv : string * JsVal => fst kv +:+ " = ?")
                   (Js.spread [("status", status)] additionalFields))
          +:+ " WHERE idea_id = ?").
  cbv zeta. split; [|split; [|split; [|split; [|split]]]].
  - unfold bind, execute, ret.
    now destruct (pool_execute env (trace w) _ (updateValues ideaId status additionalFields)).
  - reflexivity.
  - assert (Hall : Forall plain (Js.spread [("status", status)] additionalFields)).
    { apply spread_plain; [|exact Hplain]. constructor; [reflexivity|constructor]. }
    rewrite !count_append. unfold updateValues.
    rewrite (count_setClause _ Hall), length_app, length_map. reflexivity.
  - unfold updateValues. apply last_snoc.
  - intros Hnamed. destruct (spread_status status additionalFields Hnamed) as (v & rest & ->).
    cbn [map fst]. destruct (map _ rest); reflexivity.
  - intros v ->. split; reflexivity.
Qed.

(** The update that records a failure: two fields, three values, three
    placeholders, the status first.  A field named [1] comes before the
    status, in the statement and among the values. *)
Lemma updatePaintingStatus_witness :
  (exists sql,
     statements (trace (snd (OpenAIService.updatePaintingStatus Scenario.healthy (JNum 42)
                               (JStr "failed") [("error_message", JStr "No luck")]
                               (initial_world ∅))))
       = [(sql, [JStr "failed"; JStr "No luck"; JNum 42])] /\
     JsString.count "?" sql = 3 /\
     String.prefix "UPDATE paintings SET status = ?" sql = true) /\
  statements (trace (snd (OpenAIService.updatePaintingStatus Scenario.healthy (JNum 42)
                            (JStr "failed") [("1", JStr "one")] (initial_world ∅))))
    = [("UPDATE paintings SET 1 = ?, status = ? WHERE idea_id = ?",
        [JStr "one"; JStr "failed"; JNum 42])].
Proof.
  split.
  - destruct (updatePaintingStatus_statement_and_values_line_up Scenario.healthy (JNum 42)
                (JStr "failed") [("error_message", JStr "No luck")] (initial_world ∅))
      as (sql & Hrun & _ & Hcount & _ & Hfirst & _).
    + constructor; [reflexivity|constructor].
    + reflexivity.
    + exists sql. cbv zeta in Hrun. rewrite Hrun. cbn [snd].
      split; [reflexivity|split; [exact Hcount|]].
      apply Hfirst. constructor; [reflexivity|constructor].
  - destruct (updatePaintingStatus_statement_and_values_line_up Scenario.healthy (JNum 42)
                (JStr "failed") [("1", JStr "one")] (initial_world ∅))
      as (sql & Hrun & _ & _ & _ & _ & Hone).
    + constructor; [reflexivity|constructor].
    + reflexivity.
    + destruct (Hone (JStr "one") eq_refl) as (-> & Hvalues).
      cbv zeta in Hrun. rewrite Hrun. reflexivity.
Defined.

(** ** TempFileManager.createTempFile *)

Section TempFileFacts.

Variable env : Env.

Lemma createTempFile_run this base64Data prefix w :
  createTempFile env this base64Data prefix w =
    match Buffer_from_base64 env base64Data with
    | inl e => (Throw e, w)
    | inr buffer =>
        let path := tempFilePath env prefix w in
        match fs_writeFile env (trace w) path buffer with
        | Some e => (Throw e, log_event (EvWriteFile path buffer (Some e)) w)
        | None =>
            (Return path,
             set_managers (<[this := tempFiles this w ++ [path]]> (managers w))
               (written path buffer w))
        end
    end.
Proof.
  unfold createTempFile, try_catch, bind, lift, of_sum, now, writeFile, tempFiles_push,
    ret, throw, written.
  fold (tempFilePath env prefix w).
  destruct (Buffer_from_base64 env base64Data) as [e|buffer]; [reflexivity|].
  cbv zeta.
  now destruct (fs_writeFile env (trace w) (tempFilePath env prefix w) buffer).
Qed.

Lemma tempFiles_after_push this path w0 w :
  this < length (managers w) ->
  tempFiles this (set_managers (<[this := tempFiles this w ++ [path]]> (managers w)) w0)
    = tempFiles this w ++ [path].
Proof.
  intros Hthis. unfold tempFiles at 1. cbn [managers set_managers].
  now rewrite list_lookup_insert_eq by exact Hthis.
Qed.

End TempFileFacts.

(** [createTempFile] of an existing manager either returns the path of a file
    it has just written and now tracks last -- the file holds the decoded
    bytes, no other manager and no other file changed, and the write is its
    only outside call -- or it throws the error of the decoder or of the disk
    as it got it, and then nothing is tracked that was not and every file is
    as it was. *)
Theorem createTempFile_tracks_what_it_writes
    (env : Env) (this : nat) (base64Data : JsVal) (prefix : string) (w : World) :
  this < length (managers w) ->
  let call := OpenAIService.createTempFile env this base64Data prefix w in
  let path := tempFilePath env prefix w in
  (forall p w', call = (Return p, w') ->
     p = path /\
     exists buffer,
       Buffer_from_base64 env base64Data = inr buffer /\
       files w' = <[path := buffer]> (files w) /\
       OpenAIService.tempFiles this w' = OpenAIService.tempFiles this w ++ [path] /\
       (forall other, other <> this -> managers w' !! other = managers w !! other) /\
       trace w' = trace w ++ [EvWriteFile path buffer None]) /\
  (forall e w', call = (Throw e, w') ->
     files w' = files w /\
     managers w' = managers w /\
     ((Buffer_from_base64 env base64Data = inl e /\ w' = w) \/
      (exists buffer,
         Buffer_from_base64 env base64Data = inr buffer /\
         fs_writeFile env (trace w) path buffer = Some e /\
         trace w' = trace w ++ [EvWriteFile path buffer (Some e)]))).
Proof.
  intros Hthis call path. subst call. rewrite createTempFile_run. fold path.
  destruct (Buffer_from_base64 env base64Data) as [e0|buffer].
  { split; [discriminate|]. intros e w' H. injection H as <- <-. auto. }
  cbv zeta.
  destruct (fs_writeFile env (trace w) path buffer) as [e0|] eqn:Hw.
  - split; [discriminate|]. intros e w' H. injection H as <- <-.
    split; [reflexivity|]. split; [reflexivity|].
    right. exists buffer. auto.
  - split; [|discriminate]. intros p w' H. injection H as <- <-.
    split; [reflexivity|]. exists buffer.
    split; [reflexivity|]. split; [reflexivity|].
    split; [now apply tempFiles_after_push|].
    split; [|reflexivity].
    intros other Hne. cbn [managers set_managers].
    apply list_lookup_insert_ne. congruence.
Qed.

(** On the working disk the file is made and tracked; on the full disk the
    error of the disk comes out and nothing is tracked. *)
Lemma createTempFile_witness :
  (let made := OpenAIService.createTempFile Scenario.healthy 0 (JStr "aGk=") "ref_0"
                 freshManager in
   fst made = Return "/app/uploads/ref_0_1700000000000_k3x9q.png" /\
   OpenAIService.tempFiles 0 (snd made) = ["/app/uploads/ref_0_1700000000000_k3x9q.png"] /\
   files (snd made) = <["/app/uploads/ref_0_1700000000000_k3x9q.png" := [Byte.x68; Byte.x69]]> ∅) /\
  (let failed := OpenAIService.createTempFile fullDisk 0 (JStr "aGk=") "ref_0" freshManager in
   fst failed = Throw (mkError "Error" "ENOSPC: no space left on device, write" None false) /\
   managers (snd failed) = managers freshManager /\
   files (snd failed) = files freshManager).
Proof.
  split.
  - cbv zeta.
    destruct (createTempFile_tracks_what_it_writes Scenario.healthy 0 (JStr "aGk=") "ref_0"
                freshManager) as [Hmade _]; [vm_compute; lia|].
    destruct (Hmade "/app/uploads/ref_0_1700000000000_k3x9q.png"
                (snd (OpenAIService.createTempFile Scenario.healthy 0 (JStr "aGk=") "ref_0"
                        freshManager)) eq_refl)
      as (_ & buffer & Hbuffer & Hfiles & Htracked & _).
    injection Hbuffer as <-.
    split; [reflexivity|]. split; [exact Htracked|exact Hfiles].
  - cbv zeta.
    destruct (createTempFile_tracks_what_it_writes fullDisk 0 (JStr "aGk=") "ref_0"
                freshManager) as [_ Hfailed]; [vm_compute; lia|].
    destruct (Hfailed (mkError "Error" "ENOSPC: no space left on device, write" None false)
                (snd (OpenAIService.createTempFile fullDisk 0 (JStr "aGk=") "ref_0"
                        freshManager)) eq_refl)
      as (Hfiles & Hmanagers & _).
    split; [reflexivity|]. split; [exact Hmanagers|exact Hfiles].
Defined.

(** ** createTempFile and cleanup together *)

Section RoundTrip.

Variable env : Env.

Lemma cleanup_result this w w1 :
  cleanup_all env (tempFiles this w) w = (Return tt, w1) ->
  cleanup env this w = (Return tt, set_managers (<[this := []]> (managers w1)) w1).
Proof. intros H. unfold cleanup, bind. now rewrite H. Qed.

Lemma cleanup_returns this w :
  exists w1 evs,
    cleanup_all env (tempFiles this w) w = (Return tt, w1) /\
    Swept (tempFiles this w) w w1 evs /\
    cleanup env this w = (Return tt, set_managers (<[this := []]> (managers w1)) w1).
Proof.
  destruct (cleanup_all_sweeps env (tempFiles this w) w) as (w1 & evs & Hrun & S).
  exists w1, evs. split; [exact Hrun|]. split; [exact S|]. now apply cleanup_result.
Qed.

End RoundTrip.

(** A file made by [createTempFile] for a manager that tracked nothing is
    taken away again by [cleanup], when the disk lets it go: the deletion is
    the only outside call, the manager tracks nothing again, and the disk is
    the one before the file was made, less whatever file stood at that path
    before -- so it is exactly the old disk when the name was free. *)
Theorem createTempFile_then_cleanup
    (env : Env) (this : nat) (base64Data : JsVal) (prefix : string)
    (w : World) (path : string) (w1 : World) :
  managers w !! this = Some [] ->
  OpenAIService.createTempFile env this base64Data prefix w = (Return path, w1) ->
  fs_unlink env (trace w1) path = None ->
  exists w2,
    OpenAIService.cleanup env this w1 = (Return tt, w2) /\
    trace w2 = trace w1 ++ [EvUnlink path None] /\
    managers w2 = managers w /\
    files w2 = delete path (files w) /\
    (files w !! path = None -> files w2 = files w).
Proof.
  intros Hfresh Hmade Hgo.
  assert (Hthis : this < length (managers w)) by (eapply lookup_lt_Some; exact Hfresh).
  assert (Hnone : tempFiles this w = []) by (unfold tempFiles; now rewrite Hfresh).
  rewrite createTempFile_run in Hmade.
  destruct (Buffer_from_base64 env base64Data) as [e|buffer]; [discriminate|].
  cbv zeta in Hmade.
  destruct (fs_writeFile env (trace w) (tempFilePath env prefix w) buffer) as [e|];
    [discriminate|].
  injection Hmade as <- <-.
  set (path := tempFilePath env prefix w) in *.
  set (w1 := set_managers _ _) in *.
  assert (Htracked : tempFiles this w1 = [path]).
  { unfold w1. rewrite tempFiles_after_push by exact Hthis. now rewrite Hnone. }
  assert (Hrun : cleanup_all env (tempFiles this w1) w1 =
                 (Return tt, log_event (EvUnlink path None)
                               (set_files (delete path (files w1)) w1))).
  { rewrite Htracked, cleanup_all_run. cbn [List.filter].
    assert (Hthere : files w1 !! path = Some buffer) by apply lookup_insert_eq.
    rewrite Hthere, bool_decide_true by eauto.
    cbn [cleanup_deletions]. unfold bind. rewrite cleanup_one_run, Hgo. reflexivity. }
  eexists. split; [exact (cleanup_result env this w1 _ Hrun)|].
  assert (Hdisk : delete path (files w1) = delete path (files w)).
  { unfold w1. cbn [files set_managers written log_event set_files].
    apply delete_insert_eq. }
  split; [reflexivity|]. split; [|split].
  - cbn [managers set_managers log_event set_files]. unfold w1.
    cbn [managers set_managers]. rewrite list_insert_insert_eq.
    now apply list_insert_id.
  - cbn [files set_managers log_event set_files]. exact Hdisk.
  - intros Hfree. cbn [files set_managers log_event set_files]. rewrite Hdisk.
    now apply delete_id.
Qed.

(** On the working disk: a file is made for the fresh manager and cleaned up,
    and the process is where it was, but for the two calls in its trace. *)
Lemma createTempFile_then_cleanup_witness :
  let made := OpenAIService.createTempFile Scenario.healthy 0 (JStr "aGk=") "temp"
                freshManager in
  fst made = Return "/app/uploads/temp_1700000000000_k3x9q.png" /\
  exists w2,
    OpenAIService.cleanup Scenario.healthy 0 (snd made) = (Return tt, w2) /\
    managers w2 = managers freshManager /\
    files w2 = files freshManager.
Proof.
  cbv zeta. split; [reflexivity|].
  destruct (createTempFile_then_cleanup Scenario.healthy 0 (JStr "aGk=") "temp"
              freshManager "/app/uploads/temp_1700000000000_k3x9q.png"
              (snd (OpenAIService.createTempFile Scenario.healthy 0 (JStr "aGk=") "temp"
                      freshManager)))
    as (w2 & Hrun & _ & Hm & _ & Hfree).
  - reflexivity.
  - reflexivity.
  - reflexivity.
  - exists w2. split; [exact Hrun|]. split; [exact Hm|]. apply Hfree. reflexivity.
Defined.

(** [cleanup] twice is [cleanup] once: after a [cleanup] the manager tracks
    nothing, and a second [cleanup] returns with no outside call and no
    change. *)
Theorem cleanup_twice_is_cleanup_once (env : Env) (this : nat) (w : World) :
  this < length (managers w) ->
  let w1 := snd (OpenAIService.cleanup env this w) in
  OpenAIService.cleanup env this w = (Return tt, w1) /\
  OpenAIService.cleanup env this w1 = (Return tt, w1).
Proof.
  intros Hthis w1. subst w1.
  destruct (cleanup_returns env this w) as (w1 & evs & _ & S & Hrun).
  rewrite Hrun. cbn [snd]. split; [reflexivity|].
  apply cleanup_nothing. cbn [managers set_managers].
  apply list_lookup_insert_eq. rewrite (swept_managers _ _ _ _ S). exact Hthis.
Qed.

(** On the disk that holds on to [stuck.png]: the second [cleanup] changes
    nothing, and does not try the stuck file again. *)
Lemma cleanup_twice_witness :
  let w1 := snd (OpenAIService.cleanup stuckDisk 0 threeTracked) in
  OpenAIService.cleanup stuckDisk 0 w1 = (Return tt, w1) /\
  is_Some (files w1 !! "/app/uploads/stuck.png").
Proof.
  cbv zeta. split.
  - apply (cleanup_twice_is_cleanup_once stuckDisk 0 threeTracked). vm_compute. lia.
  - vm_compute. eauto.
Defined.

(** ** cleanup and the order of its deletions *)

(** The deletions of [cleanup] are started together and end in an order the
    code does not fix.  On a disk whose answer to a deletion does not depend
    on what happened before, that order does not matter: whatever the order
    in which the tracked files are taken, the disk left behind is the same --
    every tracked file the disk lets go is gone, and every other file is as it
    was. *)
Theorem cleanup_leaves_the_same_disk_in_any_order
    (env : Env) (this : nat) (w : World) (paths paths' : list string) :
  steadyDisk env ->
  this < length (managers w) ->
  paths ≡ₚ paths' ->
  let tracking := fun tracked => set_managers (<[this := tracked]> (managers w)) w in
  files (snd (OpenAIService.cleanup env this (tracking paths')))
    = files (snd (OpenAIService.cleanup env this (tracking paths))) /\
  (forall q,
      files (snd (OpenAIService.cleanup env this (tracking paths))) !! q
        = if bool_decide (q ∈ paths) && deletable env q then None else files w !! q).
Proof.
  intros Hsteady Hthis Hperm tracking.
  assert (Hrun : forall l,
             files (snd (OpenAIService.cleanup env this (tracking l)))
               = files (snd (cleanup_all env l (tracking l)))).
  { intros l.
    assert (Hl : tempFiles this (tracking l) = l).
    { unfold tempFiles, tracking. cbn [managers set_managers].
      now rewrite list_lookup_insert_eq by exact Hthis. }
    destruct (cleanup_returns env this (tracking l)) as (w1 & evs & Hall & _ & Hclean).
    rewrite Hclean. rewrite Hl in Hall. rewrite Hall. reflexivity. }
  split.
  - rewrite !Hrun. apply map_eq. intros q.
    rewrite !cleanup_all_disk by exact Hsteady.
    unfold tracking. cbn [files set_managers].
    destruct (bool_decide (q ∈ paths)) eqn:Hin.
    + apply bool_decide_eq_true in Hin.
      rewrite bool_decide_true; [reflexivity|]. now rewrite <- Hperm.
    + apply bool_decide_eq_false in Hin.
      rewrite bool_decide_false; [reflexivity|]. now rewrite <- Hperm.
  - intros q. rewrite Hrun. now rewrite cleanup_all_disk by exact Hsteady.
Qed.

(** The stuck file first or last: the other tracked file is deleted, the
    stuck one stays. *)
Lemma cleanup_order_witness :
  let tracking := fun tracked => set_managers (<[0 := tracked]> (managers threeTracked))
                                   threeTracked in
  let stuckFirst := ["/app/uploads/stuck.png"; "/app/uploads/ref_1.png"] in
  let stuckLast := ["/app/uploads/ref_1.png"; "/app/uploads/stuck.png"] in
  files (snd (OpenAIService.cleanup stuckDisk 0 (tracking stuckLast)))
    = files (snd (OpenAIService.cleanup stuckDisk 0 (tracking stuckFirst))) /\
  files (snd (OpenAIService.cleanup stuckDisk 0 (tracking stuckFirst)))
    !! "/app/uploads/ref_1.png" = None.
Proof.
  cbv zeta.
  destruct (cleanup_leaves_the_same_disk_in_any_order stuckDisk 0 threeTracked
              ["/app/uploads/stuck.png"; "/app/uploads/ref_1.png"]
              ["/app/uploads/ref_1.png"; "/app/uploads/stuck.png"])
    as [Hsame Heach].
  - intros tr tr' path. reflexivity.
  - vm_compute. lia.
  - apply perm_swap.
  - split; [exact Hsame|]. rewrite Heach. reflexivity.
Defined.

(** A file that is tracked twice is found twice, before either deletion
    ends, and deleted twice. *)
Example cleanup_of_a_file_tracked_twice :
  let w1 := snd (OpenAIService.cleanup Scenario.healthy 0 trackedTwice) in
  trace w1 = [EvUnlink "/app/uploads/ref_1.png" None;
              EvUnlink "/app/uploads/ref_1.png" None] /\
  files w1 = ∅ /\
  managers w1 = [[]].
Proof. vm_compute. repeat split. Qed.

(** ** processReferenceImages *)

Section ReferenceFacts.

Variable env : Env.

(** One callback: a reference without payload is passed over; for one with a
    payload the file is made, and a failure of that is swallowed. *)
Lemma reference_callback_run this formData ref index w :
  reference_callback env this formData ref index w =
    match payload ref with
    | None => (Return formData, w)
    | Some b =>
        match createTempFile env this (JStr b)
                ("ref_" +:+ JsString.of_Z (Z.of_nat index)) w with
        | (Return path, w') => (Return (formData ++ [("image[]", path)]), w')
        | (Throw _, w') => (Return formData, w')
        end
    end.
Proof.
  unfold reference_callback, payload, try_catch, bind, lift, ret.
  destruct (Js.get ref "image_data") as [image_data|e]; [|reflexivity].
  destruct image_data as [| |b|n|s|l|ps]; try reflexivity.
  cbn [call_split]. unfold part.
  destruct (nth_error (JsString.split "," s) 1) as [b|]; [|reflexivity].
  cbn [Js.truthy]. destruct (String.eqb b EmptyString); cbn [negb]; [reflexivity|].
  now destruct (createTempFile env this (JStr b) _ w) as [[path|e] w'].
Qed.

Lemma processReferenceImages_process_all references formData this w :
  processReferenceImages env references formData this w =
    process_all env this references 0 formData w.
Proof. unfold processReferenceImages. now destruct references. Qed.

Lemma Processed_nothing this w : Processed this w w [] [].
Proof.
  constructor; auto.
  - now rewrite app_nil_r.
  - now rewrite app_nil_r.
  - intros ev Hev. inversion Hev.
  - intros path content Hev. inversion Hev.
  - intros path Hp. inversion Hp.
  - intros path Hp. inversion Hp.
Qed.

(** A callback whose write the disk refused, followed by the rest. *)
Lemma Processed_refused this w w' added evs path content e :
  Processed this (log_event (EvWriteFile path content (Some e)) w) w' added evs ->
  Processed this w w' added (EvWriteFile path content (Some e) :: evs).
Proof.
  intros [Pt Pf Pk Po Pl Pw Pa Pb Pd Pr]. cbn in *.
  constructor; auto.
  - rewrite Pt. now rewrite <- app_assoc.
  - intros ev Hev. apply elem_of_cons in Hev as [->|Hev]; eauto.
  - intros p c Hev. apply elem_of_cons in Hev as [Hev|Hev]; [discriminate Hev|eauto].
  - intros p Hp. destruct (Pb p Hp) as [c Hc]. exists c. now right.
Qed.

(** A callback whose file was made, followed by the rest. *)
Lemma Processed_made this w w' added evs path content :
  this < length (managers w) ->
  Processed this
    (set_managers (<[this := tempFiles this w ++ [path]]> (managers w))
       (written path content w)) w' added evs ->
  Processed this w w' (path :: added) (EvWriteFile path content None :: evs).
Proof.
  intros Hthis [Pt Pf Pk Po Pl Pw Pa Pb Pd Pr].
  rewrite tempFiles_after_push in Pk by exact Hthis.
  cbn [trace apiKeyValidated managers files set_managers written log_event set_files] in *.
  constructor.
  - rewrite Pt. now rewrite <- app_assoc.
  - exact Pf.
  - rewrite Pk. now rewrite <- app_assoc.
  - intros other Hne. rewrite (Po other Hne).
    apply list_lookup_insert_ne. congruence.
  - rewrite Pl. apply length_insert.
  - intros ev Hev. apply elem_of_cons in Hev as [->|Hev]; eauto.
  - intros p c Hev. apply elem_of_cons in Hev as [Hev|Hev].
    + injection Hev as -> _. now left.
    + right. eauto.
  - intros p Hp. apply elem_of_cons in Hp as [->|Hp].
    + exists content. now left.
    + destruct (Pb p Hp) as [c Hc]. exists c. now right.
  - intros p Hp. destruct (decide (p ∈ added)) as [Hin|Hout]; [now apply Pd|].
    apply elem_of_cons in Hp as [->|Hp]; [|contradiction].
    rewrite (Pr path Hout). rewrite lookup_insert_eq. eauto.
  - intros q Hq. rewrite Pr by (intros Hin; apply Hq; now right).
    apply lookup_insert_ne. intros ->. apply Hq. now left.
Qed.

(** The callbacks over [references]: they return, whatever happens to the
    single files. *)
Lemma process_all_run this references index formData w :
  this < length (managers w) ->
  exists added w' evs,
    process_all env this references index formData w
      = (Return (formData ++ imageFields added), w') /\
    Processed this w w' added evs /\
    length added <= length (List.filter hasPayload references).
Proof.
  revert index formData w.
  induction references as [|ref rest IH]; intros index formData w Hthis.
  - exists [], w, []. split; [|split; [apply Processed_nothing|reflexivity]].
    cbn. unfold ret, imageFields. cbn. now rewrite app_nil_r.
  - cbn [process_all]. unfold bind at 1. rewrite reference_callback_run.
    cbn [List.filter]. unfold hasPayload at 1.
    destruct (payload ref) as [b|].
    2:{ destruct (IH (S index) formData w Hthis) as (added & w' & evs & Hrun & P & Hn).
        exists added, w', evs. auto. }
    rewrite createTempFile_run.
    destruct (Buffer_from_base64 env (JStr b)) as [e|content].
    { destruct (IH (S index) formData w Hthis) as (added & w' & evs & Hrun & P & Hn).
      exists added, w', evs. split; [exact Hrun|]. split; [exact P|]. cbn. lia. }
    cbv zeta.
    set (path := tempFilePath env ("ref_" +:+ JsString.of_Z (Z.of_nat index)) w).
    destruct (fs_writeFile env (trace w) path content) as [e|].
    + destruct (IH (S index) formData (log_event (EvWriteFile path content (Some e)) w) Hthis)
        as (added & w' & evs & Hrun & P & Hn).
      exists added, w', (EvWriteFile path content (Some e) :: evs).
      split; [exact Hrun|]. split; [now apply Processed_refused|]. cbn. lia.
    + set (w1 := set_managers _ _).
      assert (Hthis1 : this < length (managers w1)).
      { unfold w1. cbn [managers set_managers]. now rewrite length_insert. }
      destruct (IH (S index) (formData ++ [("image[]", path)]) w1 Hthis1)
        as (added & w' & evs & Hrun & P & Hn).
      exists (path :: added), w', (EvWriteFile path content None :: evs).
      split; [|split; [now apply Processed_made|cbn; lia]].
      rewrite Hrun. unfold imageFields. cbn [map]. now rewrite <- app_assoc.
Qed.

(** A reference without payload leaves no trace. *)
Lemma process_all_skips this references index formData w :
  Forall (fun ref => payload ref = None) references ->
  process_all env this references index formData w = (Return formData, w).
Proof.
  intros H. revert index. induction H as [|ref rest Href _ IH]; intros index.
  - reflexivity.
  - cbn [process_all]. unfold bind at 1. rewrite reference_callback_run, Href. apply IH.
Qed.

End ReferenceFacts.

Lemma split_without_separator c s :
  JsString.count c s = 0 -> JsString.split c s = [s].
Proof.
  induction s as [|a s IH]; cbn; [reflexivity|].
  destruct (Ascii.eqb a c); [discriminate|].
  intros H. now rewrite (IH H).
Qed.

Lemma unusable_no_payload ref : unusable ref -> payload ref = None.
Proof.
  unfold unusable, payload, Js.get.
  intros [Hnull|[Hother|(s & Hs & Hcount)]].
  - now rewrite Hnull.
  - destruct (Js.nullish ref); [reflexivity|].
    destruct (Js.prop ref "image_data") as [| |b|n|s|l|ps] eqn:Hp; try reflexivity.
    now elim (Hother s).
  - destruct (Js.nullish ref); [reflexivity|].
    rewrite Hs, (split_without_separator _ _ Hcount). reflexivity.
Qed.

(** [processReferenceImages] never throws.  For a manager that exists it
    returns the form data with one [image[]] field appended for each file it
    made, in the order it made them; the manager tracks exactly those files
    more; its outside calls are writes only; every write the disk took is of a
    file now tracked, and every file now tracked is on disk; no other file
    and no other manager changed; and it made at most one file for each
    reference that carries a payload. *)
Theorem processReferenceImages_tracks_every_file_it_writes
    (env : Env) (references : list JsVal) (formData : FormData) (this : nat) (w : World) :
  this < length (managers w) ->
  exists added w' evs,
    OpenAIService.processReferenceImages env references formData this w
      = (Return (formData ++ imageFields added), w') /\
    trace w' = trace w ++ evs /\
    (forall ev, ev ∈ evs -> exists path content res, ev = EvWriteFile path content res) /\
    OpenAIService.tempFiles this w' = OpenAIService.tempFiles this w ++ added /\
    (forall other, other <> this -> managers w' !! other = managers w !! other) /\
    (forall path content, EvWriteFile path content None ∈ evs -> path ∈ added) /\
    (forall path, path ∈ added -> exists content, EvWriteFile path content None ∈ evs) /\
    (forall path, path ∈ added -> is_Some (files w' !! path)) /\
    (forall q, q ∉ added -> files w' !! q = files w !! q) /\
    length added <= length (List.filter hasPayload references).
Proof.
  intros Hthis. rewrite processReferenceImages_process_all.
  destruct (process_all_run env this references 0 formData w Hthis)
    as (added & w' & evs & Hrun & [Pt Pf Pk Po Pl Pw Pa Pb Pd Pr] & Hn).
  exists added, w', evs. repeat (split; [assumption|]). exact Hn.
Qed.

(** Of the three references only the first carries a payload: one file is
    made for it, tracked and announced in the form data. *)
Lemma processReferenceImages_witness :
  let run := OpenAIService.processReferenceImages Scenario.healthy mixedReferences [] 0
               freshManager in
  fst run = Return [("image[]", "/app/uploads/ref_0_1700000000000_k3x9q.png")] /\
  exists added,
    OpenAIService.tempFiles 0 (snd run) = added /\
    forall path, path ∈ added -> is_Some (files (snd run) !! path).
Proof.
  cbv zeta. split; [reflexivity|].
  destruct (processReferenceImages_tracks_every_file_it_writes Scenario.healthy
              mixedReferences [] 0 freshManager)
    as (added & w' & evs & Hrun & _ & _ & Hk & _ & _ & _ & Hd & _); [vm_compute; lia|].
  exists added. rewrite Hrun. cbn [snd]. split; [exact Hk|exact Hd].
Defined.

(** References that are [null], that carry no string as [image_data], or
    whose [image_data] holds no comma are passed over: when all are of that
    kind the call returns the form data as it got it and changes nothing, with
    no outside call.  An empty list is such a case. *)
Theorem processReferenceImages_passes_over_unusable_references
    (env : Env) (references : list JsVal) (formData : FormData) (this : nat) (w : World) :
  Forall unusable references ->
  OpenAIService.processReferenceImages env references formData this w = (Return formData, w).
Proof.
  intros H. rewrite processReferenceImages_process_all.
  apply process_all_skips.
  eapply Forall_impl; [exact H|]. intros ref Href. now apply unusable_no_payload.
Qed.

Lemma processReferenceImages_unusable_witness :
  let references :=
    [JNull; JObj [("id", JNum 2)]; JObj [("image_data", JNum 7)];
     JObj [("image_data", JStr "aGk=")]] in
  OpenAIService.processReferenceImages Scenario.healthy references [] 0 freshManager
    = (Return [], freshManager).
Proof.
  cbv zeta.
  apply processReferenceImages_passes_over_unusable_references.
  constructor; [now left|].
  constructor; [right; left; intros s; discriminate|].
  constructor; [right; left; intros s; discriminate|].
  constructor; [|constructor].
  right. right. exists "aGk=". split; reflexivity.
Defined.

(** No temporary file outlives the [cleanup] that follows: after
    [processReferenceImages] and then [cleanup] of the same manager, the
    manager tracks nothing, and every file the first call wrote is gone from
    the disk, or its deletion was tried and refused. *)
Theorem processReferenceImages_then_cleanup_leaves_no_file
    (env : Env) (references : list JsVal) (formData : FormData) (this : nat) (w : World) :
  this < length (managers w) ->
  let w1 := snd (OpenAIService.processReferenceImages env references formData this w) in
  let w2 := snd (OpenAIService.cleanup env this w1) in
  OpenAIService.cleanup env this w1 = (Return tt, w2) /\
  OpenAIService.tempFiles this w2 = [] /\
  (forall path content,
      EvWriteFile path content None ∈ newEvents w w1 ->
      files w2 !! path = None \/ exists e, EvUnlink path (Some e) ∈ newEvents w1 w2).
Proof.
  intros Hthis w1 w2. subst w2 w1. rewrite processReferenceImages_process_all.
  destruct (process_all_run env this references 0 formData w Hthis)
    as (added & w1 & evs & Hrun & [Pt Pf Pk Po Pl Pw Pa Pb Pd Pr] & _).
  rewrite Hrun. cbn [snd].
  destruct (cleanup_returns env this w1) as (w1' & evs' & _ & S & Hclean).
  rewrite Hclean. cbn [snd].
  destruct S as [St Sm Sf Sn Su So Se].
  split; [reflexivity|]. split.
  - unfold OpenAIService.tempFiles. cbn [managers set_managers].
    rewrite list_lookup_insert_eq by (rewrite Sm, Pl; exact Hthis). reflexivity.
  - intros path content Hev.
    rewrite (newEvents_app _ _ _ Pt) in Hev.
    assert (Htracked : path ∈ tempFiles this w1).
    { rewrite Pk. apply elem_of_app. right. now apply (Pa path content). }
    rewrite (newEvents_app w1 (set_managers _ w1') evs') by exact St.
    cbn [files set_managers]. now apply Se.
Qed.

(** On the disk that holds on to [stuck.png]: the file made for the first
    reference is gone after the [cleanup]. *)
Lemma processReferenceImages_then_cleanup_witness :
  let w1 := snd (OpenAIService.processReferenceImages stuckDisk mixedReferences [] 0
                   freshManager) in
  let w2 := snd (OpenAIService.cleanup stuckDisk 0 w1) in
  is_Some (files w1 !! "/app/uploads/ref_0_1700000000000_k3x9q.png") /\
  OpenAIService.tempFiles 0 w2 = [] /\
  files w2 !! "/app/uploads/ref_0_1700000000000_k3x9q.png" = None.
Proof.
  cbv zeta. split; [vm_compute; eauto|].
  destruct (processReferenceImages_then_cleanup_leaves_no_file stuckDisk mixedReferences
              [] 0 freshManager) as (_ & Hnone & Hgone); [vm_compute; lia|].
  split; [exact Hnone|]. reflexivity.
Defined.

(** ** The two request functions of the primary tier *)

Section RequestFacts.

Variable env : Env.

Lemma generationError_is_plain error : exists msg, generationError error = Error msg.
Proof.
  unfold generationError.
  destruct (response error) as [r|].
  - destruct (status r =? 401)%Z; [eauto|].
    destruct (status r =? 403)%Z; [eauto|].
    destruct (status r =? 429)%Z; [eauto|].
    destruct (status r =? 400)%Z; [eauto|].
    destruct (status r =? 500)%Z; eauto.
  - destruct (request error); eauto.
Qed.

Lemma call_trim_other v :
  (forall s, v <> JStr s) -> exists msg, call_trim v = Throw (TypeError msg).
Proof. destruct v; intros H; cbn; eauto. now elim (H s). Qed.

End RequestFacts.

(** [makeGenerationRequest] with a string for prompt makes one request, to the
    image endpoint, for dall-e-3 with the trimmed prompt, and
    [makeEditsRequest] does the very same whatever form data it is handed.  A
    reply is returned as it came; a failure of the client never reaches the
    caller as it is: what is thrown is a new plain [Error], without the
    response and the request the cause carried.  A prompt that is not a string
    makes both throw a [TypeError] before any request.  The secondary tier,
    in contrast, hands the client's error on unchanged. *)
Theorem makeGenerationRequest_asks_once_and_rewords_every_failure
    (env : Env) (prompt : string) (formData : FormData) (w : World) :
  let body := dalle3Body prompt in
  let reply := axios_post env (trace w) imagesURL body in
  let call := OpenAIService.makeGenerationRequest env (JStr prompt) w in
  OpenAIService.makeEditsRequest env (JStr prompt) formData w = call /\
  snd call = log_event (EvPost imagesURL body reply) w /\
  (forall r, reply = inr r -> fst call = Return r) /\
  (forall cause, reply = inl cause ->
     fst call = Throw (generationError cause) /\
     exists msg, generationError cause = Error msg) /\
  (forall v, (forall s, v <> JStr s) ->
     exists msg,
       OpenAIService.makeGenerationRequest env v w = (Throw (TypeError msg), w) /\
       OpenAIService.makeEditsRequest env v formData w = (Throw (TypeError msg), w)) /\
  (forall cause,
     axios_post env (trace w) imagesURL (dalle2Body prompt) = inl cause ->
     fst (OpenAIService.makeDalle2GenerationRequest env (JStr prompt) w) = Throw cause).
Proof.
  intros body reply call. subst call. unfold OpenAIService.makeEditsRequest.
  rewrite makeGenerationRequest_run. fold body. fold reply.
  split; [reflexivity|]. split; [reflexivity|].
  split; [intros r ->; reflexivity|].
  split; [intros cause ->; split; [reflexivity|apply generationError_is_plain]|].
  split.
  - intros v Hv. destruct (call_trim_other v Hv) as [msg Hmsg]. exists msg.
    unfold OpenAIService.makeGenerationRequest, bind, lift. now rewrite Hmsg.
  - intros cause Hc. rewrite makeDalle2GenerationRequest_run, Hc. reflexivity.
Qed.

(** ** A prompt that is no text *)

(** A prompt that is set but is not a string -- a number, [true], an array,
    an object -- is not reported as missing: [generateImage] throws a
    [TypeError], before any outside call and with the world unchanged. *)
Theorem generateImage_prompt_that_is_no_text
    (env : Env) (ideaId prompt : JsVal) (references : list JsVal) (w : World) :
  Js.truthy ideaId = true ->
  Js.truthy prompt = true ->
  (forall s, prompt <> JStr s) ->
  exists msg,
    OpenAIService.generateImage env ideaId prompt references w = (Throw (TypeError msg), w).
Proof.
  intros Hid Hp Hno.
  destruct (call_trim_other prompt Hno) as [msg Hmsg]. exists msg.
  apply generateImage_rejected.
  unfold validateInputs. rewrite Hid, Hp. cbn [negb].
  unfold bind, lift. now rewrite Hmsg.
Qed.

Lemma generateImage_prompt_witness :
  exists msg,
    OpenAIService.generateImage Scenario.healthy (JNum 42) (JNum 7) [] (initial_world ∅)
      = (Throw (TypeError msg), initial_world ∅).
Proof.
  apply generateImage_prompt_that_is_no_text; [reflexivity|reflexivity|].
  intros s. discriminate.
Defined.

(** ** saveImageFile *)

(** [saveImageFile] writes one file and touches no other.  When it returns,
    it returns the name of the file, not its path; the file stands in the
    uploads directory under that name and holds the decoded image, whatever
    stood there before.  When it throws, it throws the error of the decoder or
    of the disk as it got it, and the disk is as it was. *)
Theorem saveImageFile_writes_the_one_file_it_names
    (env : Env) (ideaId imageData : JsVal) (w : World) :
  let call := OpenAIService.saveImageFile env ideaId imageData w in
  let name := imageFileName env ideaId w in
  let path := path_join env (UPLOADS_DIR env) name in
  managers (snd call) = managers w /\
  (forall q, q <> path -> files (snd call) !! q = files w !! q) /\
  (forall fileName, fst call = Return fileName ->
     fileName = name /\
     exists buffer,
       Buffer_from_base64 env imageData = inr buffer /\
       files (snd call) !! path = Some buffer /\
       trace (snd call) = trace w ++ [EvWriteFile path buffer None]) /\
  (forall e, fst call = Throw e ->
     files (snd call) = files w /\
     (Buffer_from_base64 env imageData = inl e \/
      exists buffer,
        Buffer_from_base64 env imageData = inr buffer /\
        fs_writeFile env (trace w) path buffer = Some e)).
Proof.
  intros call name path. subst call. rewrite saveImageFile_run.
  fold name. unfold imageFilePath. fold name. fold path.
  destruct (Buffer_from_base64 env imageData) as [e|buffer].
  { cbn [fst snd]. split; [reflexivity|]. split; [reflexivity|].
    split; [discriminate|]. intros e0 H. injection H as <-. auto. }
  destruct (fs_writeFile env (trace w) path buffer) as [e|] eqn:Hw; cbn [fst snd].
  - split; [reflexivity|]. split; [reflexivity|]. split; [discriminate|].
    intros e0 H. injection H as <-. split; [reflexivity|]. right. eauto.
  - split; [reflexivity|]. split.
    + intros q Hq. cbn [files written log_event set_files]. now apply lookup_insert_ne.
    + split; [|discriminate]. intros fileName H. injection H as <-.
      split; [reflexivity|]. exists buffer. split; [reflexivity|].
      split; [apply lookup_insert_eq|reflexivity].
Qed.

(** The file of idea 42, and the file of an idea whose number is [10^21],
    which a template literal prints as [1e+21]. *)
Lemma saveImageFile_witness :
  (let call := OpenAIService.saveImageFile Scenario.healthy (JNum 42) (JStr "aGk=")
                 (initial_world ∅) in
   fst call = Return "painting_42_1700000000000.png" /\
   files (snd call) !! "/app/uploads/painting_42_1700000000000.png"
     = Some [Byte.x68; Byte.x69]) /\
  (let call := OpenAIService.saveImageFile Scenario.healthy (JNum (10 ^ 21)) (JStr "aGk=")
                 (initial_world ∅) in
   fst call = Return "painting_1e+21_1700000000000.png" /\
   files (snd call) !! "/app/uploads/painting_1e+21_1700000000000.png"
     = Some [Byte.x68; Byte.x69]).
Proof.
  split; cbv zeta.
  - destruct (saveImageFile_writes_the_one_file_it_names Scenario.healthy (JNum 42)
                (JStr "aGk=") (initial_world ∅)) as (_ & _ & Hreturned & _).
    destruct (Hreturned "painting_42_1700000000000.png" ltac:(vm_compute; reflexivity))
      as (_ & buffer & Hbuffer & Hfile & _).
    split; [vm_compute; reflexivity|].
    vm_compute in Hbuffer. injection Hbuffer as <-. exact Hfile.
  - destruct (saveImageFile_writes_the_one_file_it_names Scenario.healthy (JNum (10 ^ 21))
                (JStr "aGk=") (initial_world ∅)) as (_ & _ & Hreturned & _).
    destruct (Hreturned "painting_1e+21_1700000000000.png" ltac:(vm_compute; reflexivity))
      as (_ & buffer & Hbuffer & Hfile & _).
    split; [vm_compute; reflexivity|].
    vm_compute in Hbuffer. injection Hbuffer as <-. exact Hfile.
Defined.

(** ** What a call of generateImage does outside *)

Lemma calls_app kind evs1 evs2 :
  calls kind (evs1 ++ evs2) = calls kind evs1 + calls kind evs2.
Proof. unfold calls. now rewrite List.filter_app, length_app. Qed.

Lemma acceptedWrites_app evs1 evs2 :
  acceptedWrites (evs1 ++ evs2) = acceptedWrites evs1 ++ acceptedWrites evs2.
Proof.
  induction evs1 as [|ev evs1 IH]; [reflexivity|].
  destruct ev as [url body res|url res|sql values res|path content res|path res];
    cbn; auto.
  destruct res; cbn; now rewrite ?IH.
Qed.

Lemma applyWrites_app ws1 ws2 disk :
  applyWrites (ws1 ++ ws2) disk = applyWrites ws2 (applyWrites ws1 disk).
Proof. unfold applyWrites. apply fold_left_app. Qed.

Lemma acceptedWrites_elem evs path content :
  EvWriteFile path content None ∈ evs <-> (path, content) ∈ acceptedWrites evs.
Proof.
  induction evs as [|ev evs IH]; [split; intros H; inversion H|].
  destruct ev as [url body res|url res|sql values res|p c res|p res]; cbn;
    try (rewrite <- IH; rewrite elem_of_cons; split; [intros [H|H]; [discriminate H|exact H]|auto]).
  destruct res as [e|]; rewrite !elem_of_cons, <- IH.
  - split; [intros [H|H]; [discriminate H|exact H]|auto].
  - split; (intros [H|H]; [left; congruence|now right]).
Qed.

Lemma acceptedWrites_length evs : length (acceptedWrites evs) <= calls isWriteFile evs.
Proof.
  unfold calls. induction evs as [|ev evs IH]; [reflexivity|].
  destruct ev as [url body res|url res|sql values res|p c res|p res]; cbn; auto.
  destruct res; cbn; lia.
Qed.

Lemma Footprint_app env ideaId w w1 w2 evs1 evs2 :
  Footprint env ideaId w w1 evs1 -> Footprint env ideaId w1 w2 evs2 ->
  Footprint env ideaId w w2 (evs1 ++ evs2).
Proof.
  intros [T1 A1 D1] [T2 A2 D2]. constructor.
  - rewrite T2, T1. now rewrite <- app_assoc.
  - apply Forall_app. auto.
  - rewrite D2, D1, acceptedWrites_app. now rewrite applyWrites_app.
Qed.

Lemma within_app evs1 evs2 b1 b2 :
  within evs1 b1 -> within evs2 b2 ->
  within (evs1 ++ evs2)
    (mkBudget (posts b1 + posts b2) (gets b1 + gets b2) (writes b1 + writes b2)
       (statementsRun b1 + statementsRun b2) (deletions b1 + deletions b2)).
Proof.
  unfold within. intros (P1 & G1 & W1 & S1 & D1) (P2 & G2 & W2 & S2 & D2).
  rewrite !calls_app. cbn. lia.
Qed.

Lemma within_le evs b b' :
  within evs b ->
  posts b <= posts b' -> gets b <= gets b' -> writes b <= writes b' ->
  statementsRun b <= statementsRun b' -> deletions b <= deletions b' ->
  within evs b'.
Proof. unfold within. intros (P & G & W & S & D) ? ? ? ? ?. repeat split; lia. Qed.

Section FootprintFacts.

Variable env : Env.

(** Closes a goal [exists evs, Footprint ... /\ within evs b] when the worlds
    are spelled out; [Htrace] and [Hfiles] give the trace and the files of the
    world the steps start from. *)
Ltac footprint_known Htrace Hfiles :=
  eexists; split;
  [ constructor;
    [ cbn [trace files log_event set_files executed posted written pipelineStart
           set_managers set_apiKeyValidated];
      rewrite ?Htrace; rewrite <- ?app_assoc; cbn [app]; reflexivity
    | repeat (constructor; cbn [allowedCall]); try reflexivity;
      try (eexists; reflexivity)
    | cbn [trace files log_event set_files executed posted written pipelineStart
           set_managers set_apiKeyValidated acceptedWrites applyWrites fold_left fst snd
           app];
      rewrite ?Hfiles; reflexivity ]
  | unfold within, calls; cbn; repeat split; lia ].

(** The same, for steps that start from the world of the goal. *)
Ltac footprint_explicit :=
  eexists; split;
  [ constructor;
    [ cbn [trace files log_event set_files executed posted written pipelineStart
           set_managers set_apiKeyValidated];
      rewrite <- ?app_assoc; cbn [app]; reflexivity
    | repeat (constructor; cbn [allowedCall]); try reflexivity
    | cbn [trace files log_event set_files executed posted written pipelineStart
           set_managers set_apiKeyValidated acceptedWrites applyWrites fold_left fst snd
           app];
      reflexivity ]
  | unfold within, calls; cbn; repeat split; lia ].

Lemma Spent_then ideaId w w1 w2 b1 b2 b :
  Spent env ideaId w w1 b1 -> Spent env ideaId w1 w2 b2 ->
  posts b1 + posts b2 <= posts b -> gets b1 + gets b2 <= gets b ->
  writes b1 + writes b2 <= writes b ->
  statementsRun b1 + statementsRun b2 <= statementsRun b ->
  deletions b1 + deletions b2 <= deletions b ->
  Spent env ideaId w w2 b.
Proof.
  intros (evs1 & F1 & B1) (evs2 & F2 & B2) ? ? ? ? ?.
  exists (evs1 ++ evs2). split; [now apply (Footprint_app _ _ _ w1)|].
  eapply within_le; [exact (within_app _ _ _ _ B1 B2)|cbn; lia..].
Qed.

Lemma Spent_nothing ideaId w b : Spent env ideaId w w b.
Proof.
  exists []. split.
  - constructor; [now rewrite app_nil_r|constructor|reflexivity].
  - unfold within, calls. cbn. repeat split; lia.
Qed.

Lemma Spent_executed ideaId sql values w :
  String.prefix "UPDATE paintings SET status = ?" sql = true ->
  last values = Some ideaId ->
  Spent env ideaId w (executed env sql values w) (mkBudget 0 0 0 1 0).
Proof.
  intros Hsql Hlast. eexists. split.
  - constructor; [reflexivity| |reflexivity].
    constructor; [split; assumption|constructor].
  - unfold within, calls. cbn. repeat split; lia.
Qed.

Lemma Spent_posted ideaId body w :
  Spent env ideaId w (posted env body w) (mkBudget 1 0 0 0 0).
Proof. unfold Spent. footprint_explicit. Qed.

Lemma afterLadder_footprint ideaId references response w :
  Js.truthy ideaId = true ->
  exists evs,
    Footprint env ideaId w (snd (afterLadder env ideaId references response w)) evs /\
    within evs (mkBudget 0 1 1 2 0).
Proof.
  intros Hid. unfold afterLadder, try_catch, generateImage_finish.
  unfold bind at 1.
  destruct (extractImageData env response (0 <? length references)%nat w)
    as [[imageData|e] wx] eqn:Hx.
  all: destruct (extractImageData_trace env _ _ _ _ _ Hx) as (Hfx & evsX & Htx & _ & _ & HevsX).
  2:{ rewrite failed_run by exact Hid. cbn [snd].
      destruct HevsX as [->|(url & res & ->)]; footprint_known Htx Hfx. }
  unfold bind at 1. rewrite saveImageFile_run.
  destruct (Buffer_from_base64 env imageData) as [e|buffer].
  { rewrite failed_run by exact Hid. cbn [snd].
    destruct HevsX as [->|(url & res & ->)]; footprint_known Htx Hfx. }
  destruct (fs_writeFile env (trace wx) (imageFilePath env ideaId wx) buffer) as [e|].
  { rewrite failed_run by exact Hid. cbn [snd].
    destruct HevsX as [->|(url & res & ->)]; footprint_known Htx Hfx. }
  unfold bind at 1. unfold lift.
  destruct (referenceIdsOf references) as [ids|e].
  2:{ rewrite failed_run by exact Hid. cbn [snd].
      destruct HevsX as [->|(url & res & ->)]; footprint_known Htx Hfx. }
  unfold bind at 1. rewrite completed_run by exact Hid. cbv zeta.
  destruct (pool_execute env _ sqlCompleted _) as [e|r] eqn:Hp.
  - rewrite failed_run by exact Hid. cbn [snd].
    destruct HevsX as [->|(url & res & ->)]; footprint_known Htx Hfx.
  - unfold ret. cbn [snd].
    destruct HevsX as [->|(url & res & ->)]; footprint_known Htx Hfx.
Qed.

Lemma guarded_spent ideaId prompt references w :
  Js.truthy ideaId = true ->
  Spent env ideaId w (snd (guarded env ideaId (JStr prompt) references w))
    generateImageBudget.
Proof.
  intros Hid.
  pose proof (guarded_run env ideaId prompt references w Hid) as Hrun.
  cbv zeta in Hrun. rewrite Hrun. clear Hrun.
  set (w1 := executed env sqlProcessing (processingValues ideaId) w).
  set (sent := promptSent prompt references).
  set (w2 := posted env (dalle3Body sent) w1).
  set (w3 := posted env (dalle2Body sent) w2).
  assert (S1 : Spent env ideaId w w1 (mkBudget 0 0 0 1 0))
    by (apply Spent_executed; reflexivity).
  assert (S2 : Spent env ideaId w w2 (mkBudget 1 0 0 1 0))
    by (eapply Spent_then; [exact S1|apply Spent_posted|cbn; lia..]).
  assert (S3 : Spent env ideaId w w3 (mkBudget 2 0 0 1 0))
    by (eapply Spent_then; [exact S2|apply Spent_posted|cbn; lia..]).
  assert (Sfail : forall wk error bk,
             Spent env ideaId w wk bk ->
             posts bk <= 2 -> gets bk <= 1 -> writes bk <= 1 -> statementsRun bk <= 2 ->
             deletions bk <= 0 ->
             Spent env ideaId w (executed env sqlFailed (failedValues ideaId error) wk)
               generateImageBudget).
  { intros wk error bk Sk ? ? ? ? ?.
    eapply Spent_then; [exact Sk|apply Spent_executed; reflexivity|cbn; lia..]. }
  assert (Safter : forall wk response bk,
             Spent env ideaId w wk bk ->
             posts bk <= 2 -> gets bk <= 0 -> writes bk <= 0 -> statementsRun bk <= 1 ->
             deletions bk <= 0 ->
             Spent env ideaId w (snd (afterLadder env ideaId references response wk))
               generateImageBudget).
  { intros wk response bk Sk ? ? ? ? ?.
    eapply Spent_then;
      [exact Sk|exact (afterLadder_footprint ideaId references response wk Hid)|cbn; lia..]. }
  destruct (pool_execute env (trace w) sqlProcessing (processingValues ideaId)) as [e|r0].
  { cbn [snd]. eapply Sfail; [exact S1|cbn; lia..]. }
  destruct (axios_post env (trace w1) imagesURL (dalle3Body sent)) as [error|response].
  2:{ eapply Safter; [exact S2|cbn; lia..]. }
  destruct (isClientError (generationError error)).
  { cbn [snd]. eapply Sfail; [exact S2|cbn; lia..]. }
  destruct (axios_post env (trace w2) imagesURL (dalle2Body sent)) as [error2|response].
  - cbn [snd]. eapply Sfail; [exact S3|cbn; lia..].
  - eapply Safter; [exact S3|cbn; lia..].
Qed.

(** Every call, accepted or refused. *)
Lemma generateImage_spent ideaId prompt references w :
  Spent env ideaId w (snd (generateImage env ideaId prompt references w))
    generateImageBudget.
Proof.
  destruct (validateInputs_cases env ideaId prompt w) as [[e He]|(_ & Hv & Hk)].
  - rewrite (generateImage_rejected env _ _ references _ _ He). apply Spent_nothing.
  - rewrite (generateImage_run env _ _ references _ Hv Hk).
    destruct Hv as [Hid (s & -> & _)].
    destruct (guarded_spent ideaId s references (pipelineStart w) Hid)
      as (evs & [Ft Fa Fd] & B).
    exists evs. split; [|exact B]. constructor; assumption.
Qed.

Lemma applyWrites_keeps ws disk q :
  is_Some (disk !! q) -> is_Some (applyWrites ws disk !! q).
Proof.
  revert disk. induction ws as [|[path content] ws IH]; intros disk H; [exact H|].
  cbn. apply IH. cbn. destruct (decide (path = q)) as [->|Hne].
  - rewrite lookup_insert_eq. eauto.
  - now rewrite lookup_insert_ne.
Qed.

End FootprintFacts.

(** Whatever its arguments and whatever the collaborators answer, one call of
    [generateImage] makes at most two requests, all to the image endpoint, at
    most one download, at most one write, of a file named after the idea in
    the uploads directory, at most three statements, each an update of the
    [paintings] row of [ideaId] that sets its status first, and no deletion.
    The disk afterwards is the disk before with the write it took, if any, and
    nothing else: no file that was there is gone. *)
Theorem generateImage_stays_within_its_footprint
    (env : Env) (ideaId prompt : JsVal) (references : list JsVal) (w : World) :
  let w' := snd (OpenAIService.generateImage env ideaId prompt references w) in
  exists evs,
    trace w' = trace w ++ evs /\
    Forall (allowedCall env ideaId) evs /\
    calls isPost evs <= 2 /\
    calls isGet evs <= 1 /\
    calls isWriteFile evs <= 1 /\
    calls isExecute evs <= 3 /\
    calls isUnlink evs = 0 /\
    files w' = applyWrites (acceptedWrites evs) (files w) /\
    (forall q, is_Some (files w !! q) -> is_Some (files w' !! q)).
Proof.
  intros w'. subst w'.
  destruct (generateImage_spent env ideaId prompt references w)
    as (evs & [Ft Fa Fd] & (Bp & Bg & Bw & Bs & Bd)).
  cbn in Bp, Bg, Bw, Bs, Bd.
  exists evs. repeat (split; [first [assumption|lia]|]).
  intros q Hq. rewrite Fd. now apply applyWrites_keeps.
Qed.

(** The call for the idea whose number is [10^21]: four outside calls, and
    the file written is [painting_1e+21_<time>.png]. *)
Lemma generateImage_footprint_witness :
  let run := OpenAIService.generateImage Scenario.healthy (JNum (10 ^ 21))
               (JStr "a red barn at sunset") [] (initial_world ∅) in
  exists evs,
    trace (snd run) = evs /\
    Forall (allowedCall Scenario.healthy (JNum (10 ^ 21))) evs /\
    calls isUnlink evs = 0 /\
    length evs = 4 /\
    EvWriteFile "/app/uploads/painting_1e+21_1700000000000.png"
      [Byte.x68; Byte.x65; Byte.x6c; Byte.x6c; Byte.x6f] None ∈ evs.
Proof.
  cbv zeta.
  destruct (generateImage_stays_within_its_footprint Scenario.healthy (JNum (10 ^ 21))
              (JStr "a red barn at sunset") [] (initial_world ∅))
    as (evs & Htrace & Hallowed & _ & _ & _ & _ & Hunlink & _).
  cbn [trace initial_world app] in Htrace.
  exists evs. split; [exact Htrace|]. split; [exact Hallowed|]. split; [exact Hunlink|].
  rewrite <- Htrace. split; [vm_compute; reflexivity|].
  vm_compute. do 2 right. now left.
Defined.

(** A call that fails after the image file was saved leaves the file where
    it is: whenever [generateImage] throws and the disk took a write during
    the call, the file written is on disk afterwards, with the bytes written,
    and the call deleted nothing. *)
Theorem generateImage_failure_leaves_the_saved_image
    (env : Env) (ideaId prompt : JsVal) (references : list JsVal) (w : World)
    (error : JsError) (w' : World) (path : string) (content : Buffer) :
  OpenAIService.generateImage env ideaId prompt references w = (Throw error, w') ->
  EvWriteFile path content None ∈ newEvents w w' ->
  files w' !! path = Some content /\
  calls isUnlink (newEvents w w') = 0 /\
  (forall q, q <> path -> files w' !! q = files w !! q).
Proof.
  intros Hcall Hev.
  destruct (generateImage_spent env ideaId prompt references w)
    as (evs & [Ft Fa Fd] & (_ & _ & Bw & _ & Bd)).
  rewrite Hcall in Ft, Fd. cbn [snd] in Ft, Fd. cbn in Bw, Bd.
  rewrite (newEvents_app _ _ _ Ft) in *.
  pose proof (acceptedWrites_length evs) as Hlen.
  apply acceptedWrites_elem in Hev.
  destruct (acceptedWrites evs) as [|first [|second more]] eqn:Hws.
  - inversion Hev.
  - apply list_elem_of_singleton in Hev as <-.
    rewrite Fd. cbn. split; [apply lookup_insert_eq|]. split; [lia|].
    intros q Hq. now apply lookup_insert_ne.
  - cbn in Hlen. lia.
Qed.

(** The pool refuses the completing statement: the call throws the pool's
    error, and the image it saved stays in the uploads directory. *)
Lemma generateImage_failure_witness :
  let run := Scenario.firstCall columnTooShort [] in
  fst run = Throw (Error "Data too long for column 'image_data' at row 1") /\
  files (snd run) !! "/app/uploads/painting_42_1700000000000.png"
    = Some [Byte.x68; Byte.x69] /\
  recordStatus (trace (snd run)) = Some (JStr "failed").
Proof.
  cbv zeta. split; [reflexivity|]. split; [|reflexivity].
  apply (generateImage_failure_leaves_the_saved_image columnTooShort (JNum 42)
           (JStr "a red barn at sunset") [] (initial_world ∅)
           (Error "Data too long for column 'image_data' at row 1")
           (snd (Scenario.firstCall columnTooShort []))
           "/app/uploads/painting_42_1700000000000.png" [Byte.x68; Byte.x69]).
  - reflexivity.
  - vm_compute. right. right. now left.
Defined.

(** ** The status of the record and the outcome of the call *)

Section StatusFacts.

Variable env : Env.

Lemma Wrote_nothing w : Wrote w w [].
Proof. exists []. now rewrite app_nil_r. Qed.

Lemma Wrote_then w w1 w2 s1 s2 : Wrote w w1 s1 -> Wrote w1 w2 s2 -> Wrote w w2 (s1 ++ s2).
Proof.
  intros (evs1 & T1 & S1) (evs2 & T2 & S2). exists (evs1 ++ evs2). split.
  - rewrite T2, T1. now rewrite <- app_assoc.
  - now rewrite statusWrites_app, S1, S2.
Qed.

Lemma Wrote_logged ev w : Wrote w (log_event ev w) (statusWrites [ev]).
Proof. exists [ev]. split; reflexivity. Qed.

Lemma Wrote_written path content w : Wrote w (written path content w) [].
Proof. exists [EvWriteFile path content None]. split; reflexivity. Qed.

Lemma Wrote_posted body w : Wrote w (posted env body w) [].
Proof. eexists. split; reflexivity. Qed.

(** The update of the [catch]: the record reads [failed] when the pool took
    it. *)
Lemma Wrote_failed ideaId error w :
  exists statuses,
    Wrote w (executed env sqlFailed (failedValues ideaId error) w) statuses /\
    (statuses = [] \/ statuses = [JStr "failed"]).
Proof.
  unfold executed.
  destruct (pool_execute env (trace w) sqlFailed (failedValues ideaId error)) as [e|r].
  - exists []. split; [apply Wrote_logged|now left].
  - exists [JStr "failed"]. split; [apply Wrote_logged|now right].
Qed.

(** A step that wrote no status, and then the [catch]. *)
Lemma failed_after ideaId error w wk :
  Wrote w wk [] ->
  exists statuses,
    Wrote w (executed env sqlFailed (failedValues ideaId error) wk) statuses /\
    (statuses = [] \/ statuses = [JStr "failed"]).
Proof.
  intros Hk. destruct (Wrote_failed ideaId error wk) as (statuses & Hw & Hs).
  exists statuses. split; [exact (Wrote_then _ _ _ _ _ Hk Hw)|exact Hs].
Qed.

Lemma afterLadder_statuses ideaId references response w r w' :
  Js.truthy ideaId = true ->
  afterLadder env ideaId references response w = (r, w') ->
  exists statuses,
    Wrote w w' statuses /\
    (((exists v, r = Return v) /\ statuses = [JStr "completed"]) \/
     ((exists e, r = Throw e) /\ (statuses = [] \/ statuses = [JStr "failed"]))).
Proof.
  intros Hid.
  assert (Hfail : forall wk error,
             Wrote w wk [] ->
             (Throw error, executed env sqlFailed (failedValues ideaId error) wk) = (r, w') ->
             exists statuses,
               Wrote w w' statuses /\
               (((exists v, r = Return v) /\ statuses = [JStr "completed"]) \/
                ((exists e, r = Throw e) /\ (statuses = [] \/ statuses = [JStr "failed"])))).
  { intros wk error Hk H. injection H as <- <-.
    destruct (failed_after ideaId error w wk Hk) as (statuses & Hw & Hs).
    exists statuses. split; [exact Hw|]. right. split; [eauto|exact Hs]. }
  unfold afterLadder, try_catch, generateImage_finish.
  unfold bind at 1.
  destruct (extractImageData env response (0 <? length references)%nat w)
    as [[imageData|e] wx] eqn:Hx.
  all: destruct (extractImageData_trace env _ _ _ _ _ Hx) as (_ & evsX & Htx & Hsx & _ & _).
  all: assert (Hwx : Wrote w wx []) by (exists evsX; auto).
  2:{ rewrite failed_run by exact Hid. now apply Hfail. }
  unfold bind at 1. rewrite saveImageFile_run.
  destruct (Buffer_from_base64 env imageData) as [e|buffer].
  { rewrite failed_run by exact Hid. now apply Hfail. }
  destruct (fs_writeFile env (trace wx) (imageFilePath env ideaId wx) buffer) as [e|].
  { rewrite failed_run by exact Hid. apply Hfail.
    exact (Wrote_then _ _ _ _ _ Hwx (Wrote_logged _ wx)). }
  assert (Hwy : Wrote w (written (imageFilePath env ideaId wx) buffer wx) [])
    by exact (Wrote_then _ _ _ _ _ Hwx (Wrote_written _ _ wx)).
  unfold bind at 1. unfold lift.
  destruct (referenceIdsOf references) as [ids|e].
  2:{ rewrite failed_run by exact Hid. now apply Hfail. }
  unfold bind at 1. rewrite completed_run by exact Hid. cbv zeta.
  unfold executed at 1.
  destruct (pool_execute env _ sqlCompleted _) as [e|r1] eqn:Hp.
  - rewrite failed_run by exact Hid. apply Hfail.
    exact (Wrote_then _ _ _ _ _ Hwy (Wrote_logged _ _)).
  - unfold ret. intros H. injection H as <- <-. exists [JStr "completed"].
    split; [exact (Wrote_then _ _ _ _ _ Hwy (Wrote_logged _ _))|].
    left. split; [eauto|reflexivity].
Qed.

(** The guarded block: the processing update first, then as the ladder and
    the rest go. *)
Lemma guarded_statuses ideaId prompt references w r w' :
  Js.truthy ideaId = true ->
  guarded env ideaId (JStr prompt) references w = (r, w') ->
  exists statuses,
    Wrote w w' statuses /\
    (((exists v, r = Return v) /\ statuses = [JStr "processing"; JStr "completed"]) \/
     ((exists e, r = Throw e) /\
      (statuses = [] \/ statuses = [JStr "failed"] \/ statuses = [JStr "processing"] \/
       statuses = [JStr "processing"; JStr "failed"]))).
Proof.
  intros Hid.
  pose proof (guarded_run env ideaId prompt references w Hid) as Hrun.
  cbv zeta in Hrun. rewrite Hrun. clear Hrun.
  set (w1 := executed env sqlProcessing (processingValues ideaId) w).
  set (sent := promptSent prompt references).
  set (w2 := posted env (dalle3Body sent) w1).
  set (w3 := posted env (dalle2Body sent) w2).
  destruct (pool_execute env (trace w) sqlProcessing (processingValues ideaId))
    as [e|r0] eqn:Hp.
  { assert (S1 : Wrote w w1 []).
    { unfold w1, executed. rewrite Hp. apply Wrote_logged. }
    intros H. injection H as <- <-.
    destruct (failed_after ideaId e w w1 S1) as (statuses & Hw & Hs).
    exists statuses. split; [exact Hw|]. right. split; [eauto|].
    destruct Hs as [->| ->]; auto. }
  assert (S1 : Wrote w w1 [JStr "processing"]).
  { unfold w1, executed. rewrite Hp. apply Wrote_logged. }
  assert (S2 : Wrote w w2 [JStr "processing"])
    by exact (Wrote_then _ _ _ _ _ S1 (Wrote_posted _ w1)).
  assert (S3 : Wrote w w3 [JStr "processing"])
    by exact (Wrote_then _ _ _ _ _ S2 (Wrote_posted _ w2)).
  assert (Hfail : forall wk error,
             Wrote w wk [JStr "processing"] ->
             (Throw error, executed env sqlFailed (failedValues ideaId error) wk) = (r, w') ->
             exists statuses,
               Wrote w w' statuses /\
               (((exists v, r = Return v) /\
                 statuses = [JStr "processing"; JStr "completed"]) \/
                ((exists e, r = Throw e) /\
                 (statuses = [] \/ statuses = [JStr "failed"] \/
                  statuses = [JStr "processing"] \/
                  statuses = [JStr "processing"; JStr "failed"])))).
  { intros wk error Hk H. injection H as <- <-.
    destruct (Wrote_failed ideaId error wk) as (statuses & Hw & Hs).
    exists ([JStr "processing"] ++ statuses).
    split; [exact (Wrote_then _ _ _ _ _ Hk Hw)|]. right. split; [eauto|].
    destruct Hs as [->| ->]; cbn; auto. }
  assert (Hafter : forall wk response,
             Wrote w wk [JStr "processing"] ->
             afterLadder env ideaId references response wk = (r, w') ->
             exists statuses,
               Wrote w w' statuses /\
               (((exists v, r = Return v) /\
                 statuses = [JStr "processing"; JStr "completed"]) \/
                ((exists e, r = Throw e) /\
                 (statuses = [] \/ statuses = [JStr "failed"] \/
                  statuses = [JStr "processing"] \/
                  statuses = [JStr "processing"; JStr "failed"])))).
  { intros wk response Hk H.
    destruct (afterLadder_statuses ideaId references response wk r w' Hid H)
      as (statuses & Hw & Hs).
    exists ([JStr "processing"] ++ statuses).
    split; [exact (Wrote_then _ _ _ _ _ Hk Hw)|].
    destruct Hs as [[Hv ->]|[He [->| ->]]]; cbn; auto 6. }
  destruct (axios_post env (trace w1) imagesURL (dalle3Body sent)) as [error|response].
  2:{ now apply Hafter. }
  destruct (isClientError (generationError error)); [now apply Hfail|].
  destruct (axios_post env (trace w2) imagesURL (dalle2Body sent)) as [error2|response].
  - now apply Hfail.
  - now apply Hafter.
Qed.

End StatusFacts.

(** The record and the outcome go together.  A call of [generateImage]
    returns exactly when the updates the pool accepted during the call set the
    status to [processing] and then to [completed]; a call that throws has set
    it to nothing, to [processing] only, to [failed] only, or to [processing]
    and then [failed].  So no call that throws leaves its record completed, no
    call that returns leaves it processing or failed, and [completed] is
    never overwritten within a call. *)
Theorem generateImage_returns_exactly_when_the_record_is_completed
    (env : Env) (ideaId prompt : JsVal) (references : list JsVal) (w : World) :
  let call := OpenAIService.generateImage env ideaId prompt references w in
  let written := statusWrites (newEvents w (snd call)) in
  ((exists v, fst call = Return v) /\ written = [JStr "processing"; JStr "completed"]) \/
  ((exists e, fst call = Throw e) /\
   (written = [] \/ written = [JStr "failed"] \/ written = [JStr "processing"] \/
    written = [JStr "processing"; JStr "failed"])).
Proof.
  intros call written. subst written call.
  destruct (validateInputs_cases env ideaId prompt w) as [[e He]|(_ & Hv & Hk)].
  - rewrite (generateImage_rejected env _ _ references _ _ He). cbn [fst snd].
    right. split; [eauto|]. left.
    now rewrite (newEvents_app w w []) by (now rewrite app_nil_r).
  - rewrite (generateImage_run env _ _ references _ Hv Hk).
    destruct Hv as [Hid (s & -> & _)].
    destruct (guarded env ideaId (JStr s) references (pipelineStart w)) as [r w'] eqn:Hg.
    destruct (guarded_statuses env ideaId s references _ r w' Hid Hg)
      as (statuses & (evs & Ht & Hs) & Hcases).
    cbn [fst snd]. rewrite (newEvents_app w w' evs) by exact Ht. rewrite Hs.
    exact Hcases.
Qed.

(** ** generateImage and its reference images *)

Lemma referenceIdsOf_ids references references' :
  map (fun ref => Js.get ref "id") references
    = map (fun ref => Js.get ref "id") references' ->
  referenceIdsOf references = referenceIdsOf references'.
Proof.
  revert references'. induction references as [|ref rest IH]; intros [|ref' rest'] H;
    try discriminate H; [reflexivity|].
  cbn in H. injection H as Hhead Htail. cbn. rewrite Hhead.
  now rewrite (IH rest' Htail).
Qed.

(** Of its reference images [generateImage] reads the [id]s and whether there
    are any; their image data are never read, written or sent.  Two lists of
    references with the same [id]s, entry by entry, give the same call: the
    same requests, the same statements, the same outcome.  An entry that is
    [null] or [undefined] has no [id]: reading it throws, and the error tells
    the one from the other. *)
Theorem generateImage_reads_only_the_ids_of_its_references
    (env : Env) (ideaId prompt : JsVal) (references references' : list JsVal) (w : World) :
  map (fun ref => Js.get ref "id") references
    = map (fun ref => Js.get ref "id") references' ->
  OpenAIService.generateImage env ideaId prompt references w =
  OpenAIService.generateImage env ideaId prompt references' w.
Proof.
  intros H.
  assert (Hlen : length references = length references').
  { apply (f_equal (@length (Outcome JsVal))) in H. now rewrite !length_map in H. }
  pose proof (referenceIdsOf_ids _ _ H) as Hids.
  unfold OpenAIService.generateImage, OpenAIService.generateImage_try,
    OpenAIService.generateImage_finish.
  now rewrite Hlen, Hids.
Qed.

(** With and without its image the reference gives the same call; the note
    about reference images is in the prompt both times.  A reference that is
    [null] and one that is [undefined] have no id to read, and the two calls
    differ: each throws, and records, the error that names what was read. *)
Lemma generateImage_references_witness :
  Scenario.firstCall Scenario.healthy pictured = Scenario.firstCall Scenario.healthy unpictured /\
  requestedModels (trace (snd (Scenario.firstCall Scenario.healthy pictured))) = ["dall-e-3"] /\
  statements (trace (snd (Scenario.firstCall Scenario.healthy pictured))) =
    [(sqlProcessing, [JStr "processing"; JNum 42]);
     (sqlCompleted,
      [JStr "completed"; JStr "uploads/painting_42_1700000000000.png";
       JStr "data:image/png;base64,aGVsbG8="; JStr "[1]"; JNum 42])] /\
  fst (Scenario.firstCall Scenario.healthy [JNull])
    = Throw (TypeError "Cannot read properties of null (reading 'id')") /\
  fst (Scenario.firstCall Scenario.healthy [JUndefined])
    = Throw (TypeError "Cannot read properties of undefined (reading 'id')") /\
  map (fun ref => Js.get ref "id") [JNull] <> map (fun ref => Js.get ref "id") [JUndefined].
Proof.
  split.
  - apply (generateImage_reads_only_the_ids_of_its_references Scenario.healthy (JNum 42)
             (JStr "a red barn at sunset") pictured unpictured (initial_world ∅)).
    reflexivity.
  - repeat (split; [reflexivity|]). discriminate.
Defined.

(** ** The note about reference images and the cut of the secondary tier *)

Lemma trimStart_append s t :
  JsString.trimStart s <> EmptyString ->
  JsString.trimStart (s +:+ t) = JsString.trimStart s +:+ t.
Proof.
  induction s as [|c s IH]; simpl; [congruence|].
  destruct (JsString.is_whitespace c); [exact IH|reflexivity].
Qed.

Lemma trimEnd_append s t :
  JsString.trimEnd t <> EmptyString ->
  JsString.trimEnd (s +:+ t) = s +:+ JsString.trimEnd t.
Proof.
  intros Ht. induction s as [|c s IH]; [reflexivity|].
  change (String c s +:+ t) with (String c (s +:+ t)).
  change (String c s +:+ JsString.trimEnd t) with (String c (s +:+ JsString.trimEnd t)).
  cbn [JsString.trimEnd]. rewrite IH.
  destruct (s +:+ JsString.trimEnd t) eqn:E; [|reflexivity].
  destruct s; simpl in E; [contradiction|discriminate].
Qed.

(** What [trimEnd] takes away stands at the end. *)
Lemma trimEnd_is_a_prefix s : exists blanks, s = JsString.trimEnd s +:+ blanks.
Proof.
  induction s as [|c s [blanks IH]]; simpl; [now exists EmptyString|].
  destruct (JsString.trimEnd s) eqn:E.
  - destruct (JsString.is_whitespace c).
    + now exists (String c s).
    + exists blanks. change (String c "" +:+ blanks) with (String c ("" +:+ blanks)).
      now rewrite <- IH.
  - exists blanks.
    change (String c (String a s0) +:+ blanks) with (String c (String a s0 +:+ blanks)).
    now rewrite <- IH.
Qed.

Lemma substring0_append n s t :
  n <= String.length s -> JsString.substring0 n (s +:+ t) = JsString.substring0 n s.
Proof.
  unfold JsString.substring0. revert n.
  induction s as [|c s IH]; intros [|n] H; simpl in *; try reflexivity; try lia.
  - now destruct t.
  - rewrite IH by lia. reflexivity.
Qed.

(** With reference images the ladder adds a note to the prompt, at its end;
    the secondary tier cuts the prompt at 1000 characters.  So for a prompt
    that has 1000 characters or more once trimmed, the note never reaches
    dall-e-2: with references or without, the request to the secondary tier
    is the same, while the request to the primary tier ends in the note. *)
Theorem secondary_tier_never_sees_the_reference_note
    (env : Env) (prompt : string) (references : list JsVal) (w : World) :
  1000 <= String.length (JsString.trim prompt) ->
  references <> [] ->
  dalle2Body (promptSent prompt references) = dalle2Body prompt /\
  snd (OpenAIService.makeDalle2GenerationRequest env (JStr (promptSent prompt references)) w)
    = posted env (dalle2Body (promptSent prompt [])) w /\
  Js.prop (dalle3Body (promptSent prompt references)) "prompt"
    = JStr (JsString.trimStart prompt +:+ referenceNote).
Proof.
  intros Hlong Hrefs.
  assert (Hsent : promptSent prompt references = prompt +:+ referenceNote).
  { unfold promptSent. destruct references; [contradiction|reflexivity]. }
  assert (Hstart : 1000 <= String.length (JsString.trimStart prompt)).
  { unfold JsString.trim in Hlong.
    pose proof (length_trimEnd (JsString.trimStart prompt)). lia. }
  assert (Hsome : JsString.trimStart prompt <> EmptyString).
  { intros E. rewrite E in Hstart. simpl in Hstart. lia. }
  assert (Htrim : JsString.trim (prompt +:+ referenceNote)
                  = JsString.trimStart prompt +:+ referenceNote).
  { unfold JsString.trim. rewrite (trimStart_append _ _ Hsome).
    rewrite trimEnd_append by (vm_compute; discriminate). reflexivity. }
  assert (Hcut : JsString.substring0 1000 (JsString.trim (prompt +:+ referenceNote))
                 = JsString.substring0 1000 (JsString.trim prompt)).
  { rewrite Htrim, (substring0_append _ _ _ Hstart).
    destruct (trimEnd_is_a_prefix (JsString.trimStart prompt)) as [blanks Hb].
    fold (JsString.trim prompt) in Hb. rewrite Hb at 1.
    now apply substring0_append. }
  assert (Hbody : dalle2Body (promptSent prompt references) = dalle2Body prompt).
  { rewrite Hsent. unfold dalle2Body. now rewrite Hcut. }
  split; [exact Hbody|]. split.
  - rewrite makeDalle2GenerationRequest_run. cbn [snd]. now rewrite Hbody.
  - rewrite Hsent. unfold dalle3Body. cbn [Js.prop Js.lookup_prop String.eqb Ascii.eqb Bool.eqb].
    now rewrite Htrim.
Qed.

(** A prompt of 1200 letters and one reference image: dall-e-2 is asked for
    the first 1000 letters, as without the reference. *)
Lemma secondary_tier_note_witness :
  dalle2Body (promptSent (letters 1200) pictured) = dalle2Body (letters 1200) /\
  Js.prop (dalle2Body (promptSent (letters 1200) pictured)) "prompt" = JStr (letters 1000).
Proof.
  destruct (secondary_tier_never_sees_the_reference_note Scenario.healthy (letters 1200)
              pictured (initial_world ∅)) as (Hbody & _ & _).
  - vm_compute. lia.
  - discriminate.
  - split; [exact Hbody|]. rewrite Hbody. vm_compute. reflexivity.
Defined.

(** ** generateIdeas, step by step *)

Section IdeaSteps.

Variable env : Env.

Lemma try_catch_rethrow {A} (m : M A) w : try_catch m (fun error => throw error) w = m w.
Proof. unfold try_catch, throw. now destruct (m w) as [[a|e] w']. Qed.

(** Past the three checks: the ideas are summarised, the request is sent, and
    the rest works on the reply. *)
Lemma generateIdeas_run titleId titleText instructions previousIdeas w :
  Js.truthy titleId = true ->
  Js.truthy titleText = true ->
  key_present (OPENROUTER_API_KEY env) = true ->
  generateIdeas env titleId titleText instructions previousIdeas w =
    match summariesOf (slice_last3 previousIdeas) with
    | Throw e => (Throw e, w)
    | Return summaries =>
        let body := ideasBody titleText instructions previousIdeas summaries in
        let res := axios_post env (trace w) OPENROUTER_URL body in
        match res with
        | inl e => (Throw e, log_event (EvPost OPENROUTER_URL body res) w)
        | inr reply =>
            ideaFromReply env titleId reply (log_event (EvPost OPENROUTER_URL body res) w)
        end
    end.
Proof.
  intros Hid Htext Hkey. unfold generateIdeas. rewrite try_catch_rethrow.
  rewrite Hid, Htext, Hkey. cbn [negb].
  unfold bind at 1. unfold lift at 1.
  destruct (summariesOf (slice_last3 previousIdeas)) as [summaries|e]; [|reflexivity].
  unfold bind at 1. unfold post. cbv zeta.
  fold (previousIdeasSummary previousIdeas summaries).
  fold (ideasBody titleText instructions previousIdeas summaries).
  now destruct (axios_post env (trace w) OPENROUTER_URL _).
Qed.

(** The rest: it throws with no further outside call, or it hands a complete
    idea to the pool and makes its result of the rows. *)
Lemma ideaFromReply_cases titleId reply w :
  Js.truthy titleId = true ->
  (exists e, ideaFromReply env titleId reply w = (Throw e, w)) \/
  (exists ideaData,
      Js.truthy (argumentsOf reply) = true /\
      safeJSONParse env (argumentsOf reply) = Return ideaData /\
      let summary := Js.prop ideaData "summary" in
      let fullPrompt := Js.prop ideaData "fullPrompt" in
      let params := [titleId; summary; fullPrompt] in
      let res := pool_execute env (trace w) sqlInsertIdea params in
      Js.truthy summary = true /\
      Js.truthy fullPrompt = true /\
      ideaFromReply env titleId reply w =
        (match res with
         | inl e => Throw e
         | inr rows => ideaInserted titleId summary fullPrompt rows
         end,
         log_event (EvExecute sqlInsertIdea params res) w)).
Proof.
  intros Hid. unfold ideaFromReply. cbv zeta. fold (argumentsOf reply).
  destruct (Js.truthy (argumentsOf reply)) eqn:Harg; cbn [negb];
    [|left; eexists; reflexivity].
  unfold bind, lift, ret, throw.
  destruct (safeJSONParse env (argumentsOf reply)) as [ideaData|e] eqn:Hparse;
    [|left; eexists; reflexivity].
  unfold ideaInserted, Js.get.
  destruct (Js.nullish ideaData) eqn:Hnn; [left; eexists; reflexivity|].
  destruct (Js.truthy (Js.prop ideaData "summary")) eqn:Hs; cbn [negb orb].
  2:{ left. eexists. reflexivity. }
  destruct (Js.truthy (Js.prop ideaData "fullPrompt")) eqn:Hf; cbn [negb].
  2:{ left. eexists. reflexivity. }
  right. exists ideaData. split; [reflexivity|]. split; [reflexivity|].
  cbv zeta. split; [exact Hs|]. split; [exact Hf|].
  unfold insertIdea. cbn [existsb].
  rewrite (truthy_defined _ Hid), (truthy_defined _ Hs), (truthy_defined _ Hf).
  cbn [orb]. unfold execute.
  destruct (pool_execute env (trace w) sqlInsertIdea _) as [e|rows]; [reflexivity|].
  destruct (destructure_first rows) as [result|e]; [|reflexivity].
  now destruct (Js.nullish result).
Qed.

End IdeaSteps.

Section IdeaCalls.

Variable env : Env.

Lemma generateIdeas_refused titleId titleText instructions previousIdeas w :
  Js.truthy titleId = false \/ Js.truthy titleText = false \/
  key_present (OPENROUTER_API_KEY env) = false ->
  generateIdeas env titleId titleText instructions previousIdeas w =
    (Throw (Error
       (if negb (Js.truthy titleId) then "Title ID is required for idea generation"
        else if negb (Js.truthy titleText) then "Title text is required for idea generation"
        else "OpenRouter API key is missing. Please check your .env file.")), w).
Proof.
  intros H. unfold generateIdeas. rewrite try_catch_rethrow.
  destruct (Js.truthy titleId); cbn [negb]; [|reflexivity].
  destruct (Js.truthy titleText); cbn [negb]; [|reflexivity].
  destruct (key_present (OPENROUTER_API_KEY env)); cbn [negb]; [|reflexivity].
  destruct H as [H|[H|H]]; discriminate H.
Qed.

(** The three ways a call can end, by its outside calls. *)
Lemma generateIdeas_ends titleId titleText instructions previousIdeas w :
  let call := generateIdeas env titleId titleText instructions previousIdeas w in
  (snd call = w /\
   (Js.truthy titleId = false \/ Js.truthy titleText = false \/
    key_present (OPENROUTER_API_KEY env) = false \/
    exists e, summariesOf (slice_last3 previousIdeas) = Throw e)) \/
  (exists summaries,
      summariesOf (slice_last3 previousIdeas) = Return summaries /\
      Js.truthy titleId = true /\ Js.truthy titleText = true /\
      key_present (OPENROUTER_API_KEY env) = true /\
      let body := ideasBody titleText instructions previousIdeas summaries in
      let res := axios_post env (trace w) OPENROUTER_URL body in
      let w1 := log_event (EvPost OPENROUTER_URL body res) w in
      (snd call = w1 /\ exists e, fst call = Throw e) \/
      (exists reply ideaData,
          res = inr reply /\
          safeJSONParse env (argumentsOf reply) = Return ideaData /\
          let summary := Js.prop ideaData "summary" in
          let fullPrompt := Js.prop ideaData "fullPrompt" in
          let params := [titleId; summary; fullPrompt] in
          let outcome := pool_execute env (trace w1) sqlInsertIdea params in
          Js.truthy summary = true /\
          Js.truthy fullPrompt = true /\
          call = (match outcome with
                  | inl e => Throw e
                  | inr rows => ideaInserted titleId summary fullPrompt rows
                  end,
                  log_event (EvExecute sqlInsertIdea params outcome) w1))).
Proof.
  intros call. subst call.
  destruct (Js.truthy titleId) eqn:Hid.
  2:{ left. rewrite generateIdeas_refused by auto. auto. }
  destruct (Js.truthy titleText) eqn:Htext.
  2:{ left. rewrite generateIdeas_refused by auto. auto. }
  destruct (key_present (OPENROUTER_API_KEY env)) eqn:Hkey.
  2:{ left. rewrite generateIdeas_refused by auto. auto. }
  rewrite (generateIdeas_run env _ _ _ _ _ Hid Htext Hkey).
  destruct (summariesOf (slice_last3 previousIdeas)) as [summaries|e] eqn:Hsum.
  2:{ left. split; [reflexivity|]. right. right. right. now exists e. }
  right. exists summaries. split; [reflexivity|]. repeat (split; [reflexivity|]).
  cbv zeta.
  destruct (axios_post env (trace w) OPENROUTER_URL
              (ideasBody titleText instructions previousIdeas summaries)) as [e|reply] eqn:Hpost.
  { left. split; [reflexivity|]. now exists e. }
  destruct (ideaFromReply_cases env titleId reply
              (log_event (EvPost OPENROUTER_URL
                            (ideasBody titleText instructions previousIdeas summaries)
                            (inr reply)) w) Hid)
    as [[e He]|(ideaData & _ & Hparse & Hs & Hf & Hrun)].
  - left. rewrite He. split; [reflexivity|]. now exists e.
  - right. exists reply, ideaData. split; [reflexivity|]. split; [exact Hparse|].
    cbv zeta in *. split; [exact Hs|]. split; [exact Hf|]. exact Hrun.
Qed.

End IdeaCalls.


Section IdeaRuns.

Variable env : Env.

Lemma slice_last3_app older recent :
  3 <= length recent -> slice_last3 (older ++ recent) = slice_last3 recent.
Proof.
  intros H. unfold slice_last3. rewrite length_app, skipn_app.
  rewrite skipn_all2 by lia. cbn [app]. f_equal. lia.
Qed.

(** A complete idea in the reply: it is handed to the pool, and the call ends
    with what the pool made of it. *)
Lemma ideaFromReply_run titleId reply ideaData w :
  Js.truthy titleId = true ->
  Js.truthy (argumentsOf reply) = true ->
  safeJSONParse env (argumentsOf reply) = Return ideaData ->
  let summary := Js.prop ideaData "summary" in
  let fullPrompt := Js.prop ideaData "fullPrompt" in
  let params := [titleId; summary; fullPrompt] in
  let outcome := pool_execute env (trace w) sqlInsertIdea params in
  Js.truthy summary = true ->
  Js.truthy fullPrompt = true ->
  ideaFromReply env titleId reply w =
    (match outcome with
     | inl e => Throw e
     | inr rows => ideaInserted titleId summary fullPrompt rows
     end,
     log_event (EvExecute sqlInsertIdea params outcome) w).
Proof.
  intros Hid Harg Hparse summary fullPrompt params outcome Hs Hf.
  destruct (ideaFromReply_cases env titleId reply w Hid)
    as [[e He]|(ideaData' & _ & Hparse' & _ & _ & Hrun)].
  - exfalso. revert He. unfold ideaFromReply. cbv zeta. fold (argumentsOf reply).
    rewrite Harg. cbn [negb]. unfold bind, lift, ret, throw. rewrite Hparse.
    unfold Js.get. rewrite (truthy_prop_not_nullish _ _ Hs).
    fold summary. rewrite Hs. cbn [negb orb]. fold fullPrompt. rewrite Hf. cbn [negb].
    unfold insertIdea. cbn [existsb].
    rewrite (truthy_defined _ Hid), (truthy_defined _ Hs), (truthy_defined _ Hf).
    cbn [orb]. unfold execute.
    destruct (pool_execute env (trace w) sqlInsertIdea _) as [e0|rows].
    + intros H. apply (f_equal (fun p => length (trace (snd p)))) in H.
      cbn in H. rewrite length_app in H. cbn in H. lia.
    + destruct (destructure_first rows) as [result|e0].
      * destruct (Js.nullish result);
          intros H; apply (f_equal (fun p => length (trace (snd p)))) in H;
          cbn in H; rewrite length_app in H; cbn in H; lia.
      * intros H. apply (f_equal (fun p => length (trace (snd p)))) in H.
        cbn in H. rewrite length_app in H. cbn in H. lia.
  - rewrite Hparse in Hparse'. injection Hparse' as <-. exact Hrun.
Qed.

End IdeaRuns.

(** Of the earlier ideas only the last three are read: whatever stands before
    them, be it [null], changes nothing in the call -- not its request, not
    its outcome. *)
Theorem generateIdeas_reads_only_the_last_three_ideas
    (env : Env) (titleId titleText instructions : JsVal) (older recent : list JsVal)
    (w : World) :
  3 <= length recent ->
  OpenRouterService.generateIdeas env titleId titleText instructions (older ++ recent) w =
  OpenRouterService.generateIdeas env titleId titleText instructions recent w.
Proof.
  intros H. unfold OpenRouterService.generateIdeas.
  now rewrite (slice_last3_app older recent H).
Qed.

(** Of five earlier ideas, the first of them [null], the call reads the last
    three, and succeeds. *)
Lemma generateIdeas_last_three_witness :
  let call := OpenRouterService.generateIdeas painter (JNum 5) (JStr "Harvest") JUndefined in
  call fiveIdeas (initial_world ∅) = call (skipn 2 fiveIdeas) (initial_world ∅) /\
  exists idea, fst (call fiveIdeas (initial_world ∅)) = Return idea.
Proof.
  cbv zeta. split.
  - exact (generateIdeas_reads_only_the_last_three_ideas painter (JNum 5) (JStr "Harvest")
             JUndefined (firstn 2 fiveIdeas) (skipn 2 fiveIdeas) (initial_world ∅)
             (le_n 3)).
  - eexists. vm_compute. reflexivity.
Defined.

(** One call of [generateIdeas] touches neither the disk nor the state of the
    image service, and its outside calls are none, or the one request to the
    chat endpoint, or that request, answered, and then one insert into
    [ideas] -- an insert of the title id with a summary and a prompt that the
    reply carried and that are both set.  So nothing is inserted before the
    provider answered, nothing incomplete is inserted, and nothing is asked or
    inserted twice. *)
Theorem generateIdeas_asks_once_and_inserts_only_a_complete_idea
    (env : Env) (titleId titleText instructions : JsVal) (previousIdeas : list JsVal)
    (w : World) :
  let w' := snd (OpenRouterService.generateIdeas env titleId titleText instructions
                   previousIdeas w) in
  files w' = files w /\
  managers w' = managers w /\
  apiKeyValidated w' = apiKeyValidated w /\
  (trace w' = trace w \/
   (exists body res, trace w' = trace w ++ [EvPost OPENROUTER_URL body res]) \/
   (exists body reply ideaData res,
       let summary := Js.prop ideaData "summary" in
       let fullPrompt := Js.prop ideaData "fullPrompt" in
       trace w' = trace w ++ [EvPost OPENROUTER_URL body (inr reply);
                              EvExecute sqlInsertIdea [titleId; summary; fullPrompt] res] /\
       safeJSONParse env (argumentsOf reply) = Return ideaData /\
       Js.truthy titleId = true /\
       Js.truthy summary = true /\
       Js.truthy fullPrompt = true)).
Proof.
  intros w'. subst w'.
  pose proof (generateIdeas_ends env titleId titleText instructions previousIdeas w) as H.
  cbv zeta in H.
  destruct H as [[Hw _]|(summaries & _ & Hid & _ & _ & [[Hw _]|H])].
  - rewrite Hw. auto.
  - rewrite Hw. repeat (split; [reflexivity|]). right. left. eauto.
  - destruct H as (reply & ideaData & Hres & Hparse & Hs & Hf & Hrun).
    rewrite Hrun. cbn [snd]. repeat (split; [reflexivity|]). right. right.
    eexists _, reply, ideaData, _. cbv zeta.
    split; [|auto].
    cbn [trace log_event]. rewrite Hres. now rewrite <- app_assoc.
Qed.

(** [generateIdeas] hands every failure of its collaborators on as it got
    it.  Past its checks: an error of the chat provider is thrown as it is,
    with no insert; an error of the pool is thrown as it is; and when the pool
    took the insert but its answer has no first row to read the new id from,
    the call throws a [TypeError] -- the idea is in the table, the caller has
    an error. *)
Theorem generateIdeas_hands_errors_on_unchanged
    (env : Env) (titleId titleText instructions : JsVal)
    (previousIdeas summaries : list JsVal) (w : World) :
  Js.truthy titleId = true ->
  Js.truthy titleText = true ->
  key_present (OPENROUTER_API_KEY env) = true ->
  summariesOf (slice_last3 previousIdeas) = Return summaries ->
  let body := ideasBody titleText instructions previousIdeas summaries in
  let res := axios_post env (trace w) OPENROUTER_URL body in
  let w1 := log_event (EvPost OPENROUTER_URL body res) w in
  let call := OpenRouterService.generateIdeas env titleId titleText instructions
                previousIdeas w in
  (forall e, res = inl e -> call = (Throw e, w1)) /\
  (forall reply ideaData,
      res = inr reply ->
      Js.truthy (argumentsOf reply) = true ->
      safeJSONParse env (argumentsOf reply) = Return ideaData ->
      let summary := Js.prop ideaData "summary" in
      let fullPrompt := Js.prop ideaData "fullPrompt" in
      let params := [titleId; summary; fullPrompt] in
      let outcome := pool_execute env (trace w1) sqlInsertIdea params in
      let w2 := log_event (EvExecute sqlInsertIdea params outcome) w1 in
      Js.truthy summary = true ->
      Js.truthy fullPrompt = true ->
      (forall e, outcome = inl e -> call = (Throw e, w2)) /\
      (forall rows,
          outcome = inr rows ->
          (forall result, destructure_first rows = Return result ->
                          Js.nullish result = true) ->
          exists msg, call = (Throw (TypeError msg), w2))).
Proof.
  intros Hid Htext Hkey Hsum body res w1 call.
  assert (Hcall : call = match res with
                         | inl e => (Throw e, w1)
                         | inr reply => ideaFromReply env titleId reply w1
                         end).
  { unfold call. rewrite (generateIdeas_run env _ _ _ _ _ Hid Htext Hkey), Hsum.
    cbv zeta. fold body. fold res. fold w1. now destruct res. }
  split.
  - intros e He. now rewrite Hcall, He.
  - intros reply ideaData Hres Harg Hparse summary fullPrompt params outcome w2 Hs Hf.
    rewrite Hcall, Hres.
    rewrite (ideaFromReply_run env titleId reply ideaData w1 Hid Harg Hparse Hs Hf).
    fold summary fullPrompt params outcome w2.
    split.
    + intros e He. now rewrite He.
    + intros rows Hrows Hnone. rewrite Hrows. unfold ideaInserted.
      destruct (destructure_first rows) as [result|e] eqn:Hfirst.
      * unfold Js.get. rewrite (Hnone result eq_refl). eexists. reflexivity.
      * destruct rows; cbn in Hfirst; try discriminate Hfirst;
          injection Hfirst as <-; eexists; reflexivity.
Qed.

(** The pool is down: the caller gets the pool's own error.  The pool takes
    the idea and answers with no row: the caller gets a [TypeError], and the
    insert is in the trace, accepted. *)
Lemma generateIdeas_errors_witness :
  let down := OpenRouterService.generateIdeas painterWithoutPool (JNum 5) (JStr "Harvest")
                JUndefined [] (initial_world ∅) in
  let headless := OpenRouterService.generateIdeas painterWithoutHeader (JNum 5)
                    (JStr "Harvest") JUndefined [] (initial_world ∅) in
  fst down = Throw (mkError "Error" "connect ECONNREFUSED 127.0.0.1:3306" None false) /\
  (exists msg, fst headless = Throw (TypeError msg)) /\
  last (trace (snd headless))
    = Some (EvExecute sqlInsertIdea [JNum 5; JStr "A barn at dusk"; JStr "Paint a red barn"]
              (inr (JArr []))).
Proof.
  cbv zeta.
  pose (reply := toolCallReply
                   (JStr (json "{'summary':'A barn at dusk','fullPrompt':'Paint a red barn'}"))).
  pose (ideaData := JObj [("summary", JStr "A barn at dusk");
                          ("fullPrompt", JStr "Paint a red barn")]).
  split; [|split].
  - destruct (generateIdeas_hands_errors_on_unchanged painterWithoutPool (JNum 5)
                (JStr "Harvest") JUndefined [] [] (initial_world ∅)
                eq_refl eq_refl eq_refl eq_refl) as [_ H].
    destruct (H reply ideaData eq_refl eq_refl eq_refl eq_refl eq_refl) as [Hdown _].
    now rewrite (Hdown _ eq_refl).
  - destruct (generateIdeas_hands_errors_on_unchanged painterWithoutHeader (JNum 5)
                (JStr "Harvest") JUndefined [] [] (initial_world ∅)
                eq_refl eq_refl eq_refl eq_refl) as [_ H].
    destruct (H reply ideaData eq_refl eq_refl eq_refl eq_refl eq_refl) as [_ Hrows].
    destruct (Hrows (JArr []) eq_refl) as [msg Hmsg].
    + intros result Hr. injection Hr as <-. reflexivity.
    + exists msg. now rewrite Hmsg.
  - reflexivity.
Defined.

(** A reply whose tool call carries its arguments as an object, not as the
    text of one, is rejected: the text [JSON.parse] is handed is not JSON, and
    the repair is a method of strings.  The call throws a [TypeError] after
    the request, and nothing is inserted. *)
Theorem generateIdeas_rejects_arguments_that_are_no_text
    (env : Env) (titleId titleText instructions : JsVal)
    (previousIdeas summaries : list JsVal) (w : World)
    (reply : Response) (props : list (string * JsVal)) (cause : JsError) :
  Js.truthy titleId = true ->
  Js.truthy titleText = true ->
  key_present (OPENROUTER_API_KEY env) = true ->
  summariesOf (slice_last3 previousIdeas) = Return summaries ->
  let body := ideasBody titleText instructions previousIdeas summaries in
  axios_post env (trace w) OPENROUTER_URL body = inr reply ->
  argumentsOf reply = JObj props ->
  JSON_parse env "[object Object]" = inl cause ->
  OpenRouterService.generateIdeas env titleId titleText instructions previousIdeas w =
    (Throw (TypeError "str.replace is not a function"),
     log_event (EvPost OPENROUTER_URL body (inr reply)) w).
Proof.
  intros Hid Htext Hkey Hsum body Hpost Hargs Hparse.
  rewrite (generateIdeas_run env _ _ _ _ _ Hid Htext Hkey), Hsum.
  cbv zeta. fold body. rewrite Hpost.
  unfold ideaFromReply. cbv zeta. fold (argumentsOf reply). rewrite Hargs.
  cbn [Js.truthy negb]. unfold bind, lift.
  unfold safeJSONParse. cbn [Js.toString]. now rewrite Hparse.
Qed.

Lemma generateIdeas_parsed_arguments_witness :
  let call := OpenRouterService.generateIdeas parsedArguments (JNum 5) (JStr "Harvest")
                JUndefined [] (initial_world ∅) in
  fst call = Throw (TypeError "str.replace is not a function") /\
  statements (trace (snd call)) = [].
Proof.
  cbv zeta.
  rewrite (generateIdeas_rejects_arguments_that_are_no_text parsedArguments (JNum 5)
             (JStr "Harvest") JUndefined [] [] (initial_world ∅)
             (toolCallReply (JObj [("summary", JStr "A barn at dusk");
                                   ("fullPrompt", JStr "Paint a red barn")]))
             [("summary", JStr "A barn at dusk"); ("fullPrompt", JStr "Paint a red barn")]
             Reference.SyntaxError
             eq_refl eq_refl eq_refl eq_refl eq_refl eq_refl eq_refl).
  split; reflexivity.
Defined.

(** ** The process over many calls *)

Section ProcessFacts.

Variable env : Env.

(** With the key set, [validateInputs] decides without looking at the flag. *)
Lemma validateInputs_flag_blind ideaId prompt w :
  key_present (OPENAI_API_KEY env) = true ->
  validateInputs env ideaId prompt w =
    match fst (validateInputs env ideaId prompt (set_apiKeyValidated false w)) with
    | Return _ => (Return tt, set_apiKeyValidated true w)
    | Throw e => (Throw e, w)
    end.
Proof.
  intros Hkey. unfold validateInputs, bind, lift, ret, throw.
  destruct (Js.truthy ideaId); cbn [negb]; [|reflexivity].
  destruct (Js.truthy prompt); cbn [negb]; [|reflexivity].
  destruct (call_trim prompt) as [trimmed|e]; [|reflexivity].
  destruct (String.length trimmed =? 0)%nat; [reflexivity|].
  rewrite Hkey. cbn [negb apiKeyValidated set_apiKeyValidated andb fst].
  now rewrite andb_false_r.
Qed.

(** So does the whole call. *)
Lemma generateImage_flag_blind ideaId prompt references w :
  key_present (OPENAI_API_KEY env) = true ->
  generateImage env ideaId prompt references w =
    match fst (validateInputs env ideaId prompt (set_apiKeyValidated false w)) with
    | Return _ => guarded env ideaId prompt references (pipelineStart w)
    | Throw e => (Throw e, w)
    end.
Proof.
  intros Hkey.
  pose proof (validateInputs_flag_blind ideaId prompt w Hkey) as Hv.
  destruct (fst (validateInputs env ideaId prompt (set_apiKeyValidated false w)))
    as [[]|e].
  - destruct (validateInputs_cases env ideaId prompt w) as [[e He]|(_ & Hvalid & Hk)].
    + rewrite He in Hv. discriminate Hv.
    + now apply generateImage_run.
  - now apply generateImage_rejected.
Qed.

Lemma cold_is_the_same w :
  apiKeyValidated w = false -> set_apiKeyValidated false w = w.
Proof. destruct w as [flag disk store tr]. cbn. now intros ->. Qed.

(** The outside calls of one call of [generateIdeas] hold no deletion. *)
Lemma generateIdeas_deletes_nothing titleId titleText instructions previousIdeas w :
  exists evs,
    trace (snd (generateIdeas env titleId titleText instructions previousIdeas w))
      = trace w ++ evs /\
    calls isUnlink evs = 0.
Proof.
  pose proof (generateIdeas_ends env titleId titleText instructions previousIdeas w) as H.
  cbv zeta in H.
  destruct H as [[Hw _]|(summaries & _ & _ & _ & _ & [[Hw _]|H])].
  - rewrite Hw. exists []. now rewrite app_nil_r.
  - rewrite Hw. eexists. split; reflexivity.
  - destruct H as (reply & ideaData & _ & _ & _ & _ & Hrun).
    rewrite Hrun. cbn [snd trace log_event]. rewrite <- app_assoc.
    eexists. split; reflexivity.
Qed.

End ProcessFacts.

(** The cache of the key check never changes an outcome.  In every state the
    process can reach, a call of [generateImage] does what it would do with the
    flag cleared: the same outcome, the same outside calls, the same files. *)
Theorem validation_cache_never_changes_an_outcome
    (env : Env) (w : World) (ideaId prompt : JsVal) (references : list JsVal) :
  Reachable env w ->
  let warm := OpenAIService.generateImage env ideaId prompt references w in
  let cold := OpenAIService.generateImage env ideaId prompt references
                (set_apiKeyValidated false w) in
  fst warm = fst cold /\
  trace (snd warm) = trace (snd cold) /\
  files (snd warm) = files (snd cold) /\
  managers (snd warm) = managers (snd cold).
Proof.
  intros Hreach warm cold. subst warm cold.
  destruct (apiKeyValidated w) eqn:Hflag.
  2:{ rewrite (cold_is_the_same w Hflag). auto. }
  pose proof (flag_implies_key env w Hreach Hflag) as Hkey.
  rewrite (generateImage_flag_blind env ideaId prompt references w Hkey).
  rewrite (generateImage_flag_blind env ideaId prompt references
             (set_apiKeyValidated false w) Hkey).
  change (set_apiKeyValidated false (set_apiKeyValidated false w))
    with (set_apiKeyValidated false w).
  change (pipelineStart (set_apiKeyValidated false w)) with (pipelineStart w).
  destruct (fst (validateInputs env ideaId prompt (set_apiKeyValidated false w)))
    as [[]|e]; auto.
Qed.

(** After a first call the flag is set; the second call is the call it would
    be with the flag cleared. *)
Lemma validation_cache_witness :
  let w := snd (Scenario.firstCall Scenario.healthy []) in
  apiKeyValidated w = true /\
  fst (OpenAIService.generateImage Scenario.healthy (JNum 43) (JStr "a white horse") [] w)
    = fst (OpenAIService.generateImage Scenario.healthy (JNum 43) (JStr "a white horse") []
             (set_apiKeyValidated false w)).
Proof.
  cbv zeta. split; [reflexivity|].
  apply (validation_cache_never_changes_an_outcome Scenario.healthy
           (snd (Scenario.firstCall Scenario.healthy [])) (JNum 43) (JStr "a white horse") []).
  exact (reach_generateImage Scenario.healthy (initial_world ∅) (JNum 42)
           (JStr "a red barn at sunset") []
           (fst (Scenario.firstCall Scenario.healthy []))
           (snd (Scenario.firstCall Scenario.healthy []))
           (reach_initial Scenario.healthy ∅)
           (surjective_pairing (Scenario.firstCall Scenario.healthy []))).
Defined.

(** Whatever calls of the two exported functions came before: no manager
    tracks a file, and no file was ever deleted -- the process only adds to
    its uploads directory. *)
Theorem the_process_tracks_and_deletes_nothing (env : Env) (w : World) :
  Reachable env w ->
  Forall (fun tracked => tracked = []) (managers w) /\
  calls isUnlink (trace w) = 0.
Proof.
  induction 1 as [disk|w ideaId prompt references r w' Hreach [IHm IHt] Hcall
                 |w titleId titleText instructions previousIdeas r w' Hreach [IHm IHt] Hcall].
  - split; [constructor|reflexivity].
  - split.
    + destruct (validateInputs_cases env ideaId prompt w) as [[e He]|(_ & Hv & Hk)].
      * rewrite (generateImage_rejected env _ _ _ _ _ He) in Hcall.
        injection Hcall as _ <-. exact IHm.
      * destruct (generateImage_accepted env ideaId prompt references w Hv Hk)
          as (Hrun & r' & wb & Hg & Hm & _).
        rewrite Hrun, Hg in Hcall. injection Hcall as _ <-.
        rewrite Hm. apply Forall_app. split; [exact IHm|]. constructor; [reflexivity|constructor].
    + destruct (generateImage_spent env ideaId prompt references w)
        as (evs & [Ft _ _] & (_ & _ & _ & _ & Bd)).
      rewrite Hcall in Ft. cbn [snd] in Ft. cbn in Bd.
      rewrite Ft, calls_app, IHt. lia.
  - split.
    + destruct (keeps_generateIdeas env titleId titleText instructions previousIdeas w)
        as [Hm _].
      rewrite Hcall in Hm. cbn [snd] in Hm. now rewrite Hm.
    + destruct (generateIdeas_deletes_nothing env titleId titleText instructions
                  previousIdeas w) as (evs & Ht & Hd).
      rewrite Hcall in Ht. cbn [snd] in Ht. rewrite Ht, calls_app, IHt, Hd. reflexivity.
Qed.

(** After a call of each function: the one manager made tracks no file, and
    the trace holds no deletion. *)
Lemma the_process_witness :
  let w1 := snd (Scenario.firstCall painter []) in
  let w2 := snd (OpenRouterService.generateIdeas painter (JNum 5) (JStr "Harvest") JUndefined
                   [] w1) in
  managers w2 = [[]] /\
  Forall (fun tracked => tracked = []) (managers w2) /\
  calls isUnlink (trace w2) = 0.
Proof.
  cbv zeta. split; [reflexivity|].
  destruct (the_process_tracks_and_deletes_nothing painter
              (snd (OpenRouterService.generateIdeas painter (JNum 5) (JStr "Harvest")
                      JUndefined [] (snd (Scenario.firstCall painter [])))))
    as [Hm Ht].
  - eapply reach_generateIdeas; [|apply surjective_pairing].
    eapply reach_generateImage; [apply reach_initial|apply surjective_pairing].
  - split; [exact Hm|exact Ht].
Defined.

(** ** safeJSONParse: what the repair does not reach *)

Lemma replace_char_absent c by_ s :
  JsString.count c s = 0 -> JsString.replace_char c by_ s = s.
Proof.
  induction s as [|a s IH]; cbn; [reflexivity|].
  destruct (Ascii.eqb a c); [discriminate|].
  intros H. now rewrite (IH H).
Qed.

(** The repair of [safeJSONParse] reaches newlines, carriage returns and
    quotes behind a backslash, and nothing else: a text that holds none of
    them is handed to the parser a second time as it is, so for such a text
    [safeJSONParse] returns what [JSON.parse] returns and throws what it
    throws -- a comma too many or a quote too few is not repaired. *)
Theorem safeJSONParse_repairs_nothing_else (env : Env) (str : string) :
  JsString.count JsString.LF str = 0 ->
  JsString.count JsString.CR str = 0 ->
  hasEscaped JsString.squote str = false ->
  hasEscaped JsString.dquote str = false ->
  cleaned str = str /\
  OpenRouterService.safeJSONParse env (JStr str) = of_sum (JSON_parse env str).
Proof.
  intros Hlf Hcr Hsq Hdq.
  assert (Hclean : cleaned str = str).
  { rewrite (cleaned_spaced str Hsq Hdq). unfold spaced.
    rewrite (replace_char_absent _ _ _ Hlf). now apply replace_char_absent. }
  split; [exact Hclean|].
  unfold OpenRouterService.safeJSONParse. cbn [Js.toString]. rewrite Hclean.
  now destruct (JSON_parse env str).
Qed.

(** The comma too many stays, and the parser's error comes out. *)
Lemma safeJSONParse_trailing_comma_witness :
  cleaned trailingComma = trailingComma /\
  OpenRouterService.safeJSONParse Scenario.healthy (JStr trailingComma)
    = Throw Reference.SyntaxError.
Proof.
  destruct (safeJSONParse_repairs_nothing_else Scenario.healthy trailingComma)
    as [Hclean Hparse]; try reflexivity.
  split; [exact Hclean|]. rewrite Hparse. reflexivity.
Defined.
